(** * Adaptive-subdivision fetch engine (utils_police.py, utils_osm.py)
    and its callers in build_dataset.py

    A shallow embedding of the two fetch modules of the bike-crime data
    pipeline, and the properties of the subdivision, caching, merging,
    simplification, encoding and containment steps; then of the month
    list, the crime records, the Overpass failover and sweep, and of the
    two functions of build_dataset.py that select the months and build the
    exposure map.

    Python values that come out of [json.load] and [resp.json()] are
    modelled by the inductive type [json]; Python floats are IEEE binary64
    values ([PrimFloat.float]); the cache directory is a finite map from
    path strings to decoded payloads; the network is an oracle that answers
    a request given the history of earlier requests; the geometry library
    (shapely) is an interface, [Shapely], of the operations the code calls.
    Functions that touch the cache or the network are computations on a
    [world]; besides the files and the requests, the world carries two ghost
    logs, of the recursion frames and of the cache writes, that the
    statements on depth and on overwriting read.

    Not modelled: logging, the politeness delay, file-system errors, cache
    files that were not written by [json.dump], the clock, and what pandas
    computes (the aggregation of the records, the panel, the alerts). *)

From Stdlib Require Import ZArith String Ascii List Floats Lia Bool.
From stdpp Require Import base option list gmap strings pretty sorting.

Set Warnings "-register-all,-inexact-float".
Local Open Scope string_scope.
Local Open Scope Z_scope.

(** ** Python values *)

(** Values produced by the JSON decoder. A dict is an association list; the
    decoder keeps one binding per key, and lookups take the first match. *)
Inductive json : Type :=
| JNull
| JBool (b : bool)
| JInt (n : Z)
| JFloat (f : float)
| JStr (s : string)
| JList (l : list json)
| JDict (d : list (string * json)).

(** Exceptions that the modelled code can let escape. [OutOfFuel] is not a
    Python exception: it marks an exhausted recursion budget of the model
    (see [fetch_fuel_adequate]: it never occurs). *)
Inductive exn : Type :=
| AttributeError
| TypeError
| JSONDecodeError
| FileNotFoundError
| OutOfFuel.

Inductive result (A : Type) : Type :=
| Ok (a : A)
| Raise (e : exn).
Arguments Ok {A} a.
Arguments Raise {A} e.

Definition bindR {A B} (r : result A) (k : A -> result B) : result B :=
  match r with
  | Ok a => k a
  | Raise e => Raise e
  end.

Notation "'let?' x ':=' e 'in' k" := (bindR e (fun x => k))
  (at level 10, x pattern, e at level 200, k at level 200).

(** [bool(x)] *)
Definition truthy (x : json) : bool :=
  match x with
  | JNull => false
  | JBool b => b
  | JInt n => negb (n =? 0)
  | JFloat f => negb (PrimFloat.eqb f 0%float)
  | JStr s => negb (String.eqb s "")
  | JList l => match l with [] => false | _ => true end
  | JDict d => match d with [] => false | _ => true end
  end.

(** [x is None] *)
Definition is_None (x : json) : bool :=
  match x with JNull => true | _ => false end.

Fixpoint dict_get (d : list (string * json)) (k : string) : option json :=
  match d with
  | [] => None
  | (k', v) :: d' => if String.eqb k' k then Some v else dict_get d' k
  end.

(** [x.get(k, default)]: only dicts have [get]. *)
Definition py_get (x : json) (k : string) (default : json) : result json :=
  match x with
  | JDict d => Ok (match dict_get d k with Some v => v | None => default end)
  | _ => Raise AttributeError
  end.

(** [len(x)] *)
Definition py_len (x : json) : result Z :=
  match x with
  | JStr s => Ok (Z.of_nat (String.length s))
  | JList l => Ok (Z.of_nat (length l))
  | JDict d => Ok (Z.of_nat (length d))
  | _ => Raise TypeError
  end.

Fixpoint chars (s : string) : list json :=
  match s with
  | EmptyString => []
  | String a s' => JStr (String a EmptyString) :: chars s'
  end.

(** The items a [for c in x] loop visits: the elements of a list, the
    characters of a string, the keys of a dict. *)
Definition py_iter (x : json) : result (list json) :=
  match x with
  | JList l => Ok l
  | JStr s => Ok (chars s)
  | JDict d => Ok (map (fun kv => JStr (fst kv)) d)
  | _ => Raise TypeError
  end.

(** *** Hashable values and their equality

    Members of a Python set are found by identity or [==] after hashing.
    For the hashable JSON values ([None], booleans, integers, floats,
    strings) [==] compares numbers by exact value ([True == 1 == 1.0]);
    [pyval] is the normal form of a value under that comparison: a number is
    zero or an odd integer times a power of two. Every NaN that the decoder
    returns is the same object, so a NaN is found by identity. *)
Inductive pyval : Type :=
| VNone
| VZero
| VNum (neg : bool) (odd : positive) (exp : Z)
| VInf (neg : bool)
| VNaN
| VStr (s : string).

Fixpoint strip_twos (p : positive) (k : Z) : positive * Z :=
  match p with
  | xO q => strip_twos q (k + 1)
  | _ => (p, k)
  end.

Definition pyval_of_Z (n : Z) : pyval :=
  match n with
  | Z0 => VZero
  | Zpos p => let '(o, k) := strip_twos p 0 in VNum false o k
  | Zneg p => let '(o, k) := strip_twos p 0 in VNum true o k
  end.

Definition pyval_of_float (f : float) : pyval :=
  match Prim2SF f with
  | S754_zero _ => VZero
  | S754_infinity s => VInf s
  | S754_nan => VNaN
  | S754_finite s m e => let '(o, k) := strip_twos m e in VNum s o k
  end.

(** [None] when the value is unhashable (lists and dicts). *)
Definition pyval_of (x : json) : option pyval :=
  match x with
  | JNull => Some VNone
  | JBool b => Some (pyval_of_Z (if b then 1 else 0))
  | JInt n => Some (pyval_of_Z n)
  | JFloat f => Some (pyval_of_float f)
  | JStr s => Some (VStr s)
  | JList _ | JDict _ => None
  end.

#[global] Instance pyval_eq_dec : EqDecision pyval.
Proof. solve_decision. Defined.

(** [a is b or a == b] on hashable values that were decoded from JSON. *)
Definition pyval_eqb (a b : pyval) : bool := bool_decide (a = b).

(** The dedup key of an incident: the tuple [(uid, month)]. *)
Definition key : Type := pyval * pyval.

Definition key_eqb (k1 k2 : key) : bool :=
  pyval_eqb (fst k1) (fst k2) && pyval_eqb (snd k1) (snd k2).

(** [k in seen_ids] *)
Definition key_in (k : key) (seen_ids : list key) : bool :=
  existsb (key_eqb k) seen_ids.

(** ** Float formatting: [f"{x:.6f}"]

    The exact binary value is rounded to six decimals, ties to even. *)
Definition div_half_even (n d : Z) : Z :=
  let q := n / d in
  let r := n mod d in
  if 2 * r <? d then q
  else if d <? 2 * r then q + 1
  else if Z.even q then q else q + 1.

(** [round(m * 2^e * 10^6)] *)
Definition micro_units (m : positive) (e : Z) : Z :=
  if 0 <=? e then Zpos m * 2 ^ e * 1000000
  else div_half_even (Zpos m * 1000000) (2 ^ (- e)).

Definition digits (n : Z) : string := pretty (Z.to_N n).

Definition pad6 (n : Z) : string :=
  let s := digits n in
  string_of_list_ascii (repeat "0"%char (6 - String.length s)%nat) +:+ s.

Definition format_6f (x : float) : string :=
  match Prim2SF x with
  | S754_nan => "nan"
  | S754_infinity s => if s then "-inf" else "inf"
  | S754_zero s => (if s then "-" else "") +:+ "0.000000"
  | S754_finite s m e =>
      let u := micro_units m e in
      (if s then "-" else "") +:+ digits (u / 1000000) +:+ "." +:+ pad6 (u mod 1000000)
  end.

(** ** More of Python: exceptions, subscripts, [float], [sorted], slices

    What [get_available_months], [parse_crimes_to_records] and the callers
    in build_dataset.py use beyond the above. *)

(** The exceptions of these functions: those of [exn], and the ones that
    only they can raise. [RequestError] is a [requests.RequestException]
    raised by the call itself, [HTTPError] the one of [raise_for_status]. *)
Inductive error : Type :=
| Core (e : exn)
| KeyError
| IndexError
| ValueError
| OverflowError
| HTTPError
| RequestError.

Inductive outcome (A : Type) : Type :=
| Returns (a : A)
| Throws (e : error).
Arguments Returns {A} a.
Arguments Throws {A} e.

Definition bindO {A B} (o : outcome A) (k : A -> outcome B) : outcome B :=
  match o with
  | Returns a => k a
  | Throws e => Throws e
  end.

Notation "'let!' x ':=' e 'in' k" := (bindO e (fun x => k))
  (at level 10, x pattern, e at level 200, k at level 200).

Definition widen {A} (r : result A) : outcome A :=
  match r with
  | Ok a => Returns a
  | Raise e => Throws (Core e)
  end.

(** The results of [f] over a list, up to the first exception: a
    comprehension or a generator that is consumed to its end. *)
Fixpoint map_outcome {A B : Type} (f : A -> outcome B) (l : list A)
    : outcome (list B) :=
  match l with
  | [] => Returns []
  | x :: l' =>
      let! y := f x in
      let! ys := map_outcome f l' in
      Returns (y :: ys)
  end.

(** [x[k]] for a string [k]: only a dict can be indexed by a string. *)
Definition py_subscript (x : json) (k : string) : outcome json :=
  match x with
  | JDict d =>
      match dict_get d k with
      | Some v => Returns v
      | None => Throws KeyError
      end
  | _ => Throws (Core TypeError)
  end.

(** [float(n)] for an integer: the nearest binary64 value, ties to even;
    [None] when that is beyond the largest finite value. *)
Definition float_of_int (n : Z) : option float :=
  match binary_normalize FloatOps.prec FloatOps.emax n 0 false with
  | S754_infinity _ => None
  | sf => Some (SF2Prim sf)
  end.

(** [float(x)]. What [float] makes of a string, [None] when it refuses it,
    is the parameter [float_of_str]. *)
Definition py_float (float_of_str : string -> option float) (x : json)
    : outcome float :=
  match x with
  | JStr s =>
      match float_of_str s with
      | Some f => Returns f
      | None => Throws ValueError
      end
  | JFloat f => Returns f
  | JInt n =>
      match float_of_int n with
      | Some f => Returns f
      | None => Throws OverflowError
      end
  | JBool b => Returns (if b then 1%float else 0%float)
  | JNull | JList _ | JDict _ => Throws (Core TypeError)
  end.

(** The strings of a list, when all its items are strings. *)
Fixpoint all_strings (l : list json) : option (list string) :=
  match l with
  | [] => Some []
  | JStr s :: l' =>
      match all_strings l' with
      | Some ss => Some (s :: ss)
      | None => None
      end
  | _ :: _ => None
  end.

(** [sorted(l)]. Strings are ordered by their code points, which is the
    order of the bytes of their encoding, so a list of strings has one
    sorted arrangement; a list of at most one item is compared with
    nothing. What [sorted] makes of any other list depends on the values
    and on the comparisons that the sort happens to make: it is the
    parameter [sorted_mixed]. *)
Definition py_sorted (sorted_mixed : list json -> outcome (list json))
    (l : list json) : outcome (list json) :=
  match l with
  | [] | [_] => Returns l
  | _ =>
      match all_strings l with
      | Some ss => Returns (map JStr (merge_sort String.le ss))
      | None => sorted_mixed l
      end
  end.

(** [l[start:]] *)
Definition py_slice_from {A : Type} (start : Z) (l : list A) : list A :=
  let len := Z.of_nat (length l) in
  let first := if start <? 0 then Z.max (len + start) 0 else Z.min start len in
  drop (Z.to_nat first) l.

(** ** The world: cache files, network, recursion frames *)

Inductive request : Type :=
| HttpGet (url : string) (params : list (string * string))
| HttpPost (url : string) (data : list (string * string)).

(** What one HTTP call gives: a [requests.RequestException], or a response
    with its status code and its body ([None]: [resp.json()] cannot decode
    it). *)
Inductive net_outcome : Type :=
| RequestException
| Response (status_code : Z) (body : option json).

(** A session answers a request given the requests made before it (newest
    first), so that a server may change its answers over time. *)
Definition Session : Type := list request -> request -> net_outcome.

(** Ghost record of one invocation of [_fetch_with_subdivision]: whether it
    returned without recursing ([Leaf]) or subdivided ([Split]), its depth
    and label, and whether its own direct query went to the network. *)
Inductive frame_kind : Type := Leaf | Split.

Record frame : Type := Frame {
  f_kind : frame_kind;
  f_depth : Z;
  f_label : string;
  f_queried : bool
}.

(** Ghost record of one write of a cache file: its path, what the file held
    just before ([None]: no file), and what was written. *)
Record cache_write : Type := CacheWrite {
  cw_path : string;
  cw_old : option json;
  cw_new : json
}.

Record world : Type := World {
  fs : gmap string json;      (* cache files: path -> decoded content *)
  requests : list request;    (* network calls made so far, newest first *)
  frames : list frame;        (* ghost: frames completed so far, newest first *)
  writes : list cache_write   (* ghost: cache writes so far, newest first *)
}.

(** State and exceptions: a computation maps a world to the world it leaves
    and a value or a raised exception. *)
Definition M (A : Type) : Type := world -> world * result A.

Definition ret {A} (a : A) : M A := fun w => (w, Ok a).

Definition lift {A} (r : result A) : M A := fun w => (w, r).

Definition bind {A B} (m : M A) (k : A -> M B) : M B :=
  fun w =>
    match m w with
    | (w', Ok a) => k a w'
    | (w', Raise e) => (w', Raise e)
    end.

Notation "'do' x <- c1 ;; c2" := (bind c1 (fun x => c2))
  (at level 10, x pattern, c1 at level 99, c2 at level 200).
Notation "'run' c1 ;; c2" := (bind c1 (fun _ => c2))
  (at level 10, c1 at level 99, c2 at level 200).

(** [path.exists()] *)
Definition path_exists (path : string) : M bool :=
  fun w => (w, Ok (bool_decide (is_Some (fs w !! path)))).

(** [json.load(open(path))] *)
Definition json_load (path : string) : M json :=
  fun w =>
    match fs w !! path with
    | Some v => (w, Ok v)
    | None => (w, Raise FileNotFoundError)
    end.

(** [path.parent.mkdir(parents=True, exist_ok=True); json.dump(v, open(path, "w"))] *)
Definition json_dump (path : string) (v : json) : M unit :=
  fun w => (World (<[path := v]> (fs w)) (requests w) (frames w)
              (CacheWrite path (fs w !! path) v :: writes w), Ok tt).

(** One network call; the [finally: time.sleep(REQUEST_DELAY)] that follows
    it changes nothing that is modelled. *)
Definition send (session : Session) (r : request) : M net_outcome :=
  fun w => (World (fs w) (r :: requests w) (frames w) (writes w),
            Ok (session (requests w) r)).

Definition request_count : M nat :=
  fun w => (w, Ok (length (requests w))).

Definition log_frame (f : frame) : M unit :=
  fun w => (World (fs w) (requests w) (f :: frames w) (writes w), Ok tt).

(** [resp.json()] *)
Definition resp_json (body : option json) : result json :=
  match body with
  | Some v => Ok v
  | None => Raise JSONDecodeError
  end.

(** [dir / name] *)
Definition path_join (dir name : string) : string := dir +:+ "/" +:+ name.

(** [name.replace(" ", "_")] *)
Fixpoint replace_spaces (s : string) : string :=
  match s with
  | EmptyString => EmptyString
  | String a s' =>
      String (if Ascii.eqb a " "%char then "_"%char else a) (replace_spaces s')
  end.

(** ** The geometry library

    The operations of shapely that the code calls. [exterior_coords g] is
    [list(g.exterior.coords)], [None] when [g] has no [exterior] attribute
    (any geometry that is not a polygon); [Point] raises on coordinates it
    cannot convert; [contains g p] holds when [p] lies in the interior of
    [g]. *)
Class Shapely (G Pt : Type) : Type := {
  exterior_coords : G -> option (list (float * float));
  simplify : G -> float -> G;
  bounds : G -> float * float * float * float;
  box : float -> float -> float -> float -> G;
  intersection : G -> G -> G;
  is_empty : G -> bool;
  Point : json -> json -> result Pt;
  contains : G -> Pt -> bool
}.

(** ** utils_police.py *)
Module Police.
Section Police.
Context {G Pt : Type} `{Shapely G Pt}.

Definition POLICE_API_BASE : string := "https://data.police.uk/api".
Definition MAX_POLY_POINTS : Z := 25.
Definition MAX_GRID_DEPTH : Z := 2.

(** The [for _ in range(...)] loop of [_simplify_to_n_points], [k] rounds
    left; [simplified] is the value the variable holds when the loop ends. *)
Fixpoint simplify_loop (k : nat) (geom simplified : G) (tolerance : float)
    (max_points : Z) : result G :=
  match k with
  | O => Ok simplified
  | S k' =>
      let simplified := simplify geom tolerance in
      match exterior_coords simplified with
      | None => Raise AttributeError
      | Some cs =>
          if Z.of_nat (length cs) <=? max_points then Ok simplified
          else simplify_loop k' geom simplified (tolerance * 2)%float max_points
      end
  end.

Definition _simplify_to_n_points (geom : G) (max_points : Z)
    : result (list (float * float)) :=
  match exterior_coords geom with
  | None => Raise AttributeError
  | Some coords =>
      if Z.of_nat (length coords) <=? max_points then Ok (removelast coords)
      else
        let? simplified := simplify_loop 30 geom geom 0.0001%float max_points in
        match exterior_coords simplified with
        | None => Raise AttributeError
        | Some cs => Ok (removelast cs)
        end
  end.

(** [":".join(items)] *)
Fixpoint join (sep : string) (items : list string) : string :=
  match items with
  | [] => ""
  | [x] => x
  | x :: rest => x +:+ sep +:+ join sep rest
  end.

Definition _coords_to_api_string (coords : list (float * float)) : string :=
  join ":" (map (fun '(lng, lat) => format_6f lat +:+ "," +:+ format_6f lng) coords).

Definition _fetch_single_poly (poly_str month cache_path : string)
    (session : Session) : M json :=
  do cached <- path_exists cache_path ;;
  if (cached : bool) then json_load cache_path
  else
    let url := POLICE_API_BASE +:+ "/crimes-street/bicycle-theft" in
    let params := [("poly", poly_str); ("date", month)] in
    do resp <- send session (HttpGet url params) ;;
    match resp with
    | RequestException => ret (JList [])
    | Response status_code body =>
        if status_code =? 503 then ret JNull
        else if negb (status_code =? 200) then ret (JList [])
        else
          do crimes <- lift (resp_json body) ;;
          run json_dump cache_path crimes ;;
          do _ <- lift (py_len crimes) ;;     (* the argument of the debug log *)
          ret crimes
    end.

(** [c.get("id") or (c.get("location", {}) or {}).get("street", {}).get("id", "")] *)
Definition crime_uid (c : json) : result json :=
  let? id := py_get c "id" JNull in
  if truthy id then Ok id
  else
    let? location := py_get c "location" (JDict []) in
    let location := if truthy location then location else JDict [] in
    let? street := py_get location "street" (JDict []) in
    py_get street "id" (JStr "").

(** [(uid, c.get("month", ""))], hashed when it is looked up in the set. *)
Definition crime_key (c : json) : result key :=
  let? uid := crime_uid c in
  let? m := py_get c "month" (JStr "") in
  match pyval_of uid, pyval_of m with
  | Some u, Some v => Ok (u, v)
  | _, _ => Raise TypeError
  end.

(** The inner loop [for c in crimes] over the accumulators
    [(all_crimes, seen_ids)]. *)
Fixpoint dedup_into (crimes : list json) (acc : list json * list key)
    : result (list json * list key) :=
  match crimes with
  | [] => Ok acc
  | c :: rest =>
      let? k := crime_key c in
      if negb (key_in k (snd acc))
      then dedup_into rest ((fst acc ++ [c])%list, k :: snd acc)
      else dedup_into rest acc
  end.

(** A [for] loop with a body that acts on the world. *)
Fixpoint for_each {A S : Type} (xs : list A) (body : A -> S -> M S) (s : S) : M S :=
  match xs with
  | [] => ret s
  | x :: xs' => do s' <- body x s ;; for_each xs' body s'
  end.

Definition label_of (cell_id : string) : string :=
  if String.eqb cell_id "" then "full" else cell_id.

Definition sub_id_of (cell_id suffix : string) : string :=
  if String.eqb cell_id "" then suffix else label_of cell_id +:+ "_" +:+ suffix.

Definition cache_file (cache_dir label month : string) : string :=
  path_join cache_dir (label +:+ "_" +:+ month +:+ ".json").

Definition quadrants_of (geom : G) : list G :=
  let '(minx, miny, maxx, maxy) := bounds geom in
  let midx := ((minx + maxx) / 2)%float in
  let midy := ((miny + maxy) / 2)%float in
  [ box minx midy midx maxy;    (* NW *)
    box midx midy maxx maxy;    (* NE *)
    box minx miny midx midy;    (* SW *)
    box midx miny maxx midy ].  (* SE *)

Definition suffixes : list string := ["NW"; "NE"; "SW"; "SE"].

(** The body of the loop [for quad, suffix in zip(quadrants, suffixes)];
    [fetch] is the recursive call. *)
Definition quadrant_step
    (fetch : G -> string -> string -> Session -> Z -> string -> M json)
    (geom : G) (month cache_dir : string) (session : Session) (depth : Z)
    (cell_id : string) (qs : G * string) (acc : list json * list key)
    : M (list json * list key) :=
  let clipped := intersection geom (fst qs) in
  if is_empty clipped then ret acc
  else
    let sub_id := sub_id_of cell_id (snd qs) in
    do crimes <- fetch clipped month cache_dir session (depth + 1) sub_id ;;
    do items <- lift (py_iter crimes) ;;
    lift (dedup_into items acc).

(** The body of [_fetch_with_subdivision]; [fuel] bounds the nesting of the
    recursive calls. The [log_frame] steps are ghost. *)
Fixpoint fetch_fuel (fuel : nat) (geom : G) (month cache_dir : string)
    (session : Session) (depth : Z) (cell_id : string) : M json :=
  match fuel with
  | O => lift (Raise OutOfFuel)
  | S fuel' =>
      do coords <- lift (_simplify_to_n_points geom MAX_POLY_POINTS) ;;
      let poly_str := _coords_to_api_string coords in
      let label := label_of cell_id in
      let cache_path := cache_file cache_dir label month in
      do n0 <- request_count ;;
      do result <- _fetch_single_poly poly_str month cache_path session ;;
      do n1 <- request_count ;;
      let queried := negb (Nat.eqb n0 n1) in
      if negb (is_None result) then
        run log_frame (Frame Leaf depth label queried) ;;
        ret result
      else if MAX_GRID_DEPTH <=? depth then
        run log_frame (Frame Leaf depth label queried) ;;
        ret (JList [])
      else
        run log_frame (Frame Split depth label queried) ;;
        do acc <- for_each (combine (quadrants_of geom) suffixes)
                    (quadrant_step (fetch_fuel fuel') geom month cache_dir
                       session depth cell_id)
                    ([], []) ;;
        let all_crimes := fst acc in
        run json_dump cache_path (JList all_crimes) ;;
        ret (JList all_crimes)
  end.

Definition _fetch_with_subdivision (geom : G) (month cache_dir : string)
    (session : Session) (depth : Z) (cell_id : string) : M json :=
  fetch_fuel (S (Z.to_nat (MAX_GRID_DEPTH - depth))) geom month cache_dir
    session depth cell_id.

Definition fetch_borough_month (borough_name : string) (borough_geom : G)
    (month cache_dir : string) (session : Session) : M json :=
  let borough_cache_dir := path_join cache_dir (replace_spaces borough_name) in
  _fetch_with_subdivision borough_geom month borough_cache_dir session 0 "".

(** [resp.raise_for_status()] *)
Definition raise_for_status (status_code : Z) : outcome unit :=
  if (400 <=? status_code) && (status_code <? 600) then Throws HTTPError
  else Returns tt.

(** The body of the [try] of [get_available_months], from the answer to
    the request on. *)
Definition available_months (sorted_mixed : list json -> outcome (list json))
    (resp : net_outcome) : outcome (list json) :=
  match resp with
  | RequestException => Throws RequestError
  | Response status_code body =>
      let! _ := raise_for_status status_code in
      let! dates := widen (resp_json body) in
      let! items := widen (py_iter dates) in
      let! values := map_outcome (fun d => py_subscript d "date") items in
      let! months := py_sorted sorted_mixed values in
      match months with
      | [] => Throws IndexError        (* [months[0]], an argument of the log *)
      | _ :: _ => Returns months
      end
  end.

Definition get_available_months (sorted_mixed : list json -> outcome (list json))
    (session : Session) : M (list json) :=
  do resp <- send session (HttpGet (POLICE_API_BASE +:+ "/crimes-street-dates") []) ;;
  match available_months sorted_mixed resp with
  | Returns months => ret months
  | Throws _ => ret []                 (* [except Exception] *)
  end.

(** A record of [parse_crimes_to_records]: the dict with the keys
    [area_id], [area_name], [month], [crime_id], [lat] and [lng]. *)
Record crime_record : Type := CrimeRecord {
  r_area_id : string;
  r_area_name : string;
  r_month : string;
  r_crime_id : json;
  r_lat : option float;
  r_lng : option float
}.

(** [float(x) if x else None] *)
Definition coordinate (float_of_str : string -> option float) (x : json)
    : outcome (option float) :=
  if truthy x then
    let! f := py_float float_of_str x in
    Returns (Some f)
  else Returns None.

(** The [try] of the loop: both conversions, and [lat = lng = None] when
    one of them raises a [TypeError] or a [ValueError]. *)
Definition coordinates (float_of_str : string -> option float)
    (lat_str lng_str : json) : outcome (option float * option float) :=
  match (let! lat := coordinate float_of_str lat_str in
         let! lng := coordinate float_of_str lng_str in
         Returns (lat, lng)) with
  | Throws (Core TypeError) | Throws ValueError => Returns (None, None)
  | o => o
  end.

(** The body of the loop [for c in crimes]. *)
Definition parse_crime (float_of_str : string -> option float) (c : json)
    (borough_gss borough_name month : string) : outcome crime_record :=
  let! location := widen (py_get c "location" JNull) in
  let loc := if truthy location then location else JDict [] in
  let! lat_str := widen (py_get loc "latitude" JNull) in
  let! lng_str := widen (py_get loc "longitude" JNull) in
  let! latlng := coordinates float_of_str lat_str lng_str in
  let! id := widen (py_get c "id" (JStr "")) in
  Returns (CrimeRecord borough_gss borough_name month id (fst latlng) (snd latlng)).

Fixpoint parse_loop (float_of_str : string -> option float) (crimes : list json)
    (borough_gss borough_name month : string) (records : list crime_record)
    : outcome (list crime_record) :=
  match crimes with
  | [] => Returns records
  | c :: rest =>
      let! r := parse_crime float_of_str c borough_gss borough_name month in
      parse_loop float_of_str rest borough_gss borough_name month
        (records ++ [r])%list
  end.

Definition parse_crimes_to_records (float_of_str : string -> option float)
    (crimes : json) (borough_gss borough_name month : string)
    : outcome (list crime_record) :=
  let! items := widen (py_iter crimes) in
  parse_loop float_of_str items borough_gss borough_name month [].


End Police.
End Police.

(** ** utils_osm.py *)
Module Osm.
Section Osm.
Context {G Pt : Type} `{Shapely G Pt}.

Definition OVERPASS_ENDPOINTS : list string :=
  [ "https://overpass-api.de/api/interpreter";
    "https://overpass.kumi.systems/api/interpreter" ].

Definition nl : string := String (ascii_of_nat 10) EmptyString.
Definition dq : string := String (ascii_of_nat 34) EmptyString.

Definition _build_query (south west north east : float) : string :=
  let bbox := format_6f south +:+ "," +:+ format_6f west +:+ ","
              +:+ format_6f north +:+ "," +:+ format_6f east in
  let tag := "[" +:+ dq +:+ "amenity" +:+ dq +:+ "=" +:+ dq
             +:+ "bicycle_parking" +:+ dq +:+ "]" in
  "[out:json][timeout:60];" +:+ nl
  +:+ "(" +:+ nl
  +:+ "  node" +:+ tag +:+ "(" +:+ bbox +:+ ");" +:+ nl
  +:+ "  way" +:+ tag +:+ "(" +:+ bbox +:+ ");" +:+ nl
  +:+ ");" +:+ nl
  +:+ "out center;".

(** The loop of [_query_overpass] over the endpoints that are left. A body
    that does not decode raises inside the [try], as a
    [requests.RequestException], and the next endpoint is tried. *)
Fixpoint query_endpoints (endpoints : list string) (query : string)
    (session : Session) : M json :=
  match endpoints with
  | [] => ret JNull
  | endpoint :: rest =>
      do resp <- send session (HttpPost endpoint [("data", query)]) ;;
      match resp with
      | RequestException => query_endpoints rest query session
      | Response status_code body =>
          if status_code =? 200 then
            match body with
            | Some v => ret v
            | None => query_endpoints rest query session
            end
          else query_endpoints rest query session
      end
  end.

Definition _query_overpass (query : string) (session : Session) : M json :=
  query_endpoints OVERPASS_ENDPOINTS query session.

(** [x == s] for a string literal [s] *)
Definition eq_str (x : json) (s : string) : bool :=
  match x with
  | JStr t => String.eqb t s
  | _ => false
  end.

Definition _element_to_point (elem : json) : result (option Pt) :=
  let? etype := py_get elem "type" JNull in
  let? latlon :=
    if eq_str etype "node" then
      let? lat := py_get elem "lat" JNull in
      let? lon := py_get elem "lon" JNull in
      Ok (Some (lat, lon))
    else if eq_str etype "way" then
      let? center := py_get elem "center" (JDict []) in
      let? lat := py_get center "lat" JNull in
      let? lon := py_get center "lon" JNull in
      Ok (Some (lat, lon))
    else Ok None in
  match latlon with
  | None => Ok None
  | Some (lat, lon) =>
      if is_None lat || is_None lon then Ok None
      else let? pt := Point lon lat in Ok (Some pt)
  end.

(** The counting loop [for elem in elements]. *)
Fixpoint count_inside (elements : list json) (borough_geom : G) (count : Z)
    : result Z :=
  match elements with
  | [] => Ok count
  | elem :: rest =>
      let? pt := _element_to_point elem in
      match pt with
      | Some p =>
          if contains borough_geom p then count_inside rest borough_geom (count + 1)
          else count_inside rest borough_geom count
      | None => count_inside rest borough_geom count
      end
  end.

(** The spatial filter that ends [fetch_borough_parking]. *)
Definition spatial_filter (raw : json) (borough_geom : G) : result Z :=
  let? elements := py_get raw "elements" (JList []) in
  let? items := py_iter elements in
  count_inside items borough_geom 0.

Definition fetch_borough_parking (borough_name : string) (borough_geom : G)
    (cache_dir : string) (session : Session) : M Z :=
  let safe_name := replace_spaces borough_name in
  let cache_path := path_join cache_dir (safe_name +:+ "_parking.json") in
  do cached <- path_exists cache_path ;;
  if (cached : bool) then
    do raw <- json_load cache_path ;;
    lift (spatial_filter raw borough_geom)
  else
    let '(minx, miny, maxx, maxy) := bounds borough_geom in
    let query := _build_query miny minx maxy maxx in
    do raw <- _query_overpass query session ;;
    if is_None raw then ret 0
    else
      run json_dump cache_path raw ;;
      lift (spatial_filter raw borough_geom).

(** [fetch_all_boroughs_parking] over the rows [(name, geometry)] of the
    frame; [results] is the dict it builds. *)
Fixpoint fetch_rows (rows : list (string * G)) (cache_dir : string)
    (session : Session) (results : gmap string Z) : M (gmap string Z) :=
  match rows with
  | [] => ret results
  | (name, geom) :: rest =>
      do count <- fetch_borough_parking name geom cache_dir session ;;
      fetch_rows rest cache_dir session (<[name := count]> results)
  end.

Definition fetch_all_boroughs_parking (boroughs_gdf : list (string * G))
    (cache_dir : string) (session : Session) : M (gmap string Z) :=
  fetch_rows boroughs_gdf cache_dir session ∅.

End Osm.
End Osm.

(** ** build_dataset.py: the months and the exposure map

    A row of the boroughs frame is its [gss_code], its [name] and its
    [geometry]. The aggregation of the records and the panel, which are
    computed by pandas, are not modelled. *)
Module Dataset.
Section Dataset.
Context {G Pt : Type} `{Shapely G Pt}.

Record row : Type := Row {
  gss_code : string;
  name : string;
  geometry : G
}.

(** A computation that can raise any [error]. *)
Definition MX (A : Type) : Type := world -> world * outcome A.

(** The fallback list of [resolve_months] is computed from the clock: it is
    the parameter [fallback], a function of [n_months]. *)
Definition resolve_months (sorted_mixed : list json -> outcome (list json))
    (fallback : Z -> outcome (list json)) (n_months : Z) (session : Session)
    : MX (list json) :=
  fun w =>
    match Police.get_available_months sorted_mixed session w with
    | (w', Raise e) => (w', Throws (Core e))
    | (w', Ok available) =>
        if negb (truthy (JList available)) then (w', fallback n_months)
        else
          let selected := py_slice_from (- n_months) available in
          match selected with
          | [] => (w', Throws IndexError)   (* [selected[0]], an argument of the log *)
          | _ :: _ => (w', Returns selected)
          end
    end.

Definition _elem_to_point (elem : json) : result (option Pt) :=
  let? t := py_get elem "type" JNull in
  let? latlon :=
    if Osm.eq_str t "node" then
      let? lat := py_get elem "lat" JNull in
      let? lon := py_get elem "lon" JNull in
      Ok (Some (lat, lon))
    else if Osm.eq_str t "way" then
      let? c := py_get elem "center" (JDict []) in
      let? lat := py_get c "lat" JNull in
      let? lon := py_get c "lon" JNull in
      Ok (Some (lat, lon))
    else Ok None in
  match latlon with
  | None => Ok None
  | Some (lat, lon) =>
      if is_None lat || is_None lon then Ok None
      else let? pt := Point lon lat in Ok (Some pt)
  end.

(** [sum(1 for e in elements if _elem_to_point(e) is not None and
    geometry.contains(_elem_to_point(e)))], [total] being the sum so far.
    The condition calls [_elem_to_point] twice on the same element; the
    function reads nothing but its argument, so the second call gives the
    point of the first. *)
Fixpoint sum_inside (elements : list json) (geometry : G) (total : Z) : result Z :=
  match elements with
  | [] => Ok total
  | e :: rest =>
      let? pt := _elem_to_point e in
      match pt with
      | Some p =>
          if contains geometry p then sum_inside rest geometry (total + 1)
          else sum_inside rest geometry total
      | None => sum_inside rest geometry total
      end
  end.

(** The loop of the [skip_osm] branch of [fetch_exposure]. *)
Fixpoint cached_rows (gdf : list row) (osm_cache : string)
    (result : gmap string Z) : M (gmap string Z) :=
  match gdf with
  | [] => ret result
  | r :: rest =>
      let safe := replace_spaces (name r) in
      let cp := path_join osm_cache (safe +:+ "_parking.json") in
      do cached <- path_exists cp ;;
      if (cached : bool) then
        do raw <- json_load cp ;;
        do elements <- lift (py_get raw "elements" (JList [])) ;;
        do items <- lift (py_iter elements) ;;
        do count <- lift (sum_inside items (geometry r) 0) ;;
        cached_rows rest osm_cache (<[gss_code r := count]> result)
      else cached_rows rest osm_cache (<[gss_code r := 0]> result)
  end.

(** [dict(zip(gdf["name"], gdf["gss_code"]))]: of two rows with one name
    the later one stays. *)
Definition name_to_gss (gdf : list row) : gmap string string :=
  fold_left (fun m r => <[name r := gss_code r]> m) gdf ∅.

(** The keys of the dict that a loop fills with [results[name] = count],
    in the order in which [items()] gives them: each name where it comes
    first. *)
Fixpoint insertion_order (names seen : list string) : list string :=
  match names with
  | [] => []
  | n :: rest =>
      if bool_decide (n ∈ seen) then insertion_order rest seen
      else n :: insertion_order rest (n :: seen)
  end.

(** [{name_to_gss[n]: c for n, c in name_to_count.items()}], [items] being
    the keys left to visit and [result] the dict so far. *)
Fixpoint rekey (items : list string) (name_to_count : gmap string Z)
    (gss_of : gmap string string) (result : gmap string Z)
    : outcome (gmap string Z) :=
  match items with
  | [] => Returns result
  | n :: rest =>
      match name_to_count !! n with
      | None => rekey rest name_to_count gss_of result   (* not a key of the dict *)
      | Some c =>
          match gss_of !! n with
          | None => Throws KeyError
          | Some g => rekey rest name_to_count gss_of (<[g := c]> result)
          end
      end
  end.

Definition fetch_exposure (gdf : list row) (cache_dir : string) (skip_osm : bool)
    (session : Session) : MX (gmap string Z) :=
  fun w =>
    let osm_cache := path_join cache_dir "osm" in
    if skip_osm then
      let '(w', r) := cached_rows gdf osm_cache ∅ w in (w', widen r)
    else
      match Osm.fetch_all_boroughs_parking
              (map (fun r => (name r, geometry r)) gdf) osm_cache session w with
      | (w', Raise e) => (w', Throws (Core e))
      | (w', Ok name_to_count) =>
          (w', rekey (insertion_order (map name gdf) []) name_to_count
                 (name_to_gss gdf) ∅)
      end.

End Dataset.
End Dataset.

(** ** A small geometry: axis-aligned boxes

    An instance of the interface on which the code can be run: a geometry is
    empty, a box with positive width and height, or a degenerate piece (a
    segment or a point, which has no exterior ring). It is not shapely: no
    simplification removes a vertex, the ring of an intersection need not
    start at the vertex where shapely's starts, and coordinates given as
    strings are refused. It serves the examples; the theorems are stated
    over the interface. *)
Module Boxes.

Inductive geom : Type :=
| Empty
| Box (minx miny maxx maxy : float)
| Degenerate (minx miny maxx maxy : float).

Definition fmax (a b : float) : float := if PrimFloat.ltb a b then b else a.
Definition fmin (a b : float) : float := if PrimFloat.ltb a b then a else b.

Definition make (minx miny maxx maxy : float) : geom :=
  if PrimFloat.ltb minx maxx && PrimFloat.ltb miny maxy
  then Box minx miny maxx maxy
  else if PrimFloat.leb minx maxx && PrimFloat.leb miny maxy
  then Degenerate minx miny maxx maxy
  else Empty.

Definition coords_of (g : geom) : option (list (float * float)) :=
  match g with
  | Empty => Some []
  | Box minx miny maxx maxy =>
      Some [(maxx, miny); (maxx, maxy); (minx, maxy); (minx, miny); (maxx, miny)]
  | Degenerate _ _ _ _ => None
  end.

Definition bounds_of (g : geom) : float * float * float * float :=
  match g with
  | Empty => (nan, nan, nan, nan)
  | Box minx miny maxx maxy | Degenerate minx miny maxx maxy =>
      (minx, miny, maxx, maxy)
  end.

Definition inter (a b : geom) : geom :=
  match a, b with
  | Empty, _ | _, Empty => Empty
  | (Box ax ay aX aY | Degenerate ax ay aX aY),
    (Box bx by' bX bY | Degenerate bx by' bX bY) =>
      make (fmax ax bx) (fmax ay by') (fmin aX bX) (fmin aY bY)
  end.

Definition empty (g : geom) : bool :=
  match g with Empty => true | _ => false end.

Definition to_float (x : json) : result float :=
  match x with
  | JFloat f => Ok f
  | JInt n => Ok (SF2Prim (binary_normalize prec emax n 0 false))
  | _ => Raise TypeError
  end.

Definition point (lon lat : json) : result (float * float) :=
  let? x := to_float lon in
  let? y := to_float lat in
  Ok (x, y).

Definition inside (g : geom) (p : float * float) : bool :=
  match g with
  | Box minx miny maxx maxy =>
      PrimFloat.ltb minx (fst p) && PrimFloat.ltb (fst p) maxx
      && PrimFloat.ltb miny (snd p) && PrimFloat.ltb (snd p) maxy
  | _ => false
  end.

#[global] Instance shapely : Shapely geom (float * float) := {
  exterior_coords := coords_of;
  simplify := fun g _ => g;
  bounds := bounds_of;
  box := make;
  intersection := inter;
  is_empty := empty;
  Point := point;
  contains := inside
}.

Definition world0 : world := World ∅ [] [] [].

End Boxes.

(** ** Derived notions used in the statements *)

(** The world after one more network call. *)
Definition sent (r : request) (w : world) : world :=
  World (fs w) (r :: requests w) (frames w) (writes w).

(** The world after a cache file was written. *)
Definition dumped (path : string) (v : json) (w : world) : world :=
  World (<[path := v]> (fs w)) (requests w) (frames w)
    (CacheWrite path (fs w !! path) v :: writes w).

(** The world after a frame was recorded. *)
Definition framed (f : frame) (w : world) : world :=
  World (fs w) (requests w) (f :: frames w) (writes w).

(** The request that [_fetch_single_poly] sends. *)
Definition crime_request (poly_str month : string) : request :=
  HttpGet (Police.POLICE_API_BASE +:+ "/crimes-street/bicycle-theft")
          [("poly", poly_str); ("date", month)].

(** [s.split(sep)] for a one-character separator. *)
Fixpoint split_on (sep : ascii) (s : string) : list string :=
  match s with
  | EmptyString => [""]
  | String a s' =>
      if Ascii.eqb a sep then "" :: split_on sep s'
      else match split_on sep s' with
           | [] => [String a ""]
           | x :: xs => String a x :: xs
           end
  end.

(** [sep not in s] *)
Fixpoint free_of (sep : ascii) (s : string) : bool :=
  match s with
  | EmptyString => true
  | String a s' => negb (Ascii.eqb a sep) && free_of sep s'
  end.

(** The tolerance that the [k]-th round of the simplification loop uses
    (rounds counted from 0): [0.0001] doubled [k] times. *)
Fixpoint tolerance_at (k : nat) : float :=
  match k with
  | O => 0.0001%float
  | S k' => (tolerance_at k' * 2)%float
  end.

(** The results of [f] over a list, up to the first exception. *)
Fixpoint map_result {A B : Type} (f : A -> result B) (l : list A)
    : result (list B) :=
  match l with
  | [] => Ok []
  | x :: l' =>
      let? y := f x in
      let? ys := map_result f l' in
      Ok (y :: ys)
  end.

Section Containment.
Context {G Pt : Type} `{Shapely G Pt}.

(** The point built from a latitude and a longitude entry, when both are
    present and not null. *)
Definition point_of_entries (lat lon : option json) : result (option Pt) :=
  match lat, lon with
  | Some lat, Some lon =>
      if is_None lat || is_None lon then Ok None
      else let? pt := Point lon lat in Ok (Some pt)
  | _, _ => Ok None
  end.

(** The representative point of a candidate, in the spec's words: a node's
    own coordinates, a way's center point, and none for anything else. *)
Definition representative_point (elem : json) : result (option Pt) :=
  match elem with
  | JDict d =>
      match dict_get d "type" with
      | Some (JStr "node") => point_of_entries (dict_get d "lat") (dict_get d "lon")
      | Some (JStr "way") =>
          match dict_get d "center" with
          | None => Ok None
          | Some (JDict c) => point_of_entries (dict_get c "lat") (dict_get c "lon")
          | Some _ => Raise AttributeError
          end
      | _ => Ok None
      end
  | _ => Raise AttributeError
  end.

(** A candidate's point lies in the interior of the region. *)
Definition strictly_inside (region : G) (pt : option Pt) : bool :=
  match pt with
  | Some p => contains region p
  | None => false
  end.

End Containment.

(** A sample Overpass payload: a node inside the box [0,2]x[0,2], a node
    outside it, a way whose center is inside, a way without center, a
    relation, and a node on the boundary. *)
Definition sample_elements : list json :=
  [ JDict [("type", JStr "node"); ("id", JInt 1); ("lat", JFloat 1.5); ("lon", JFloat 0.5)];
    JDict [("type", JStr "node"); ("id", JInt 2); ("lat", JFloat 3); ("lon", JFloat 3)];
    JDict [("type", JStr "way"); ("id", JInt 3);
           ("center", JDict [("lat", JFloat 1); ("lon", JInt 1)])];
    JDict [("type", JStr "way"); ("id", JInt 4)];
    JDict [("type", JStr "relation"); ("id", JInt 5)];
    JDict [("type", JStr "node"); ("id", JInt 6); ("lat", JFloat 1); ("lon", JFloat 0)] ].

(** The merge that the subdivision loop performs on the results of the
    children, taken in child order: each result is iterated and passed
    through the dedup loop with the accumulators of the loop so far. *)
Fixpoint merge_from (results : list json) (acc : list json * list key)
    : result (list json * list key) :=
  match results with
  | [] => Ok acc
  | r :: rest =>
      let? items := py_iter r in
      let? acc' := Police.dedup_into items acc in
      merge_from rest acc'
  end.

Definition merge_results (results : list json) : result (list json) :=
  let? acc := merge_from results ([], []) in Ok (fst acc).

(** The union by identity key in the spec's words: a record is kept when no
    record before it (kept or not) has an equal key. [earlier] holds the
    keys of the records already passed. *)
Fixpoint first_seen (earlier : list key) (items : list (json * key)) : list json :=
  match items with
  | [] => []
  | (x, k) :: rest =>
      if key_in k earlier then first_seen (k :: earlier) rest
      else x :: first_seen (k :: earlier) rest
  end.

(** No two keys of the list are equal. *)
Fixpoint distinct_keys (ks : list key) : bool :=
  match ks with
  | [] => true
  | k :: rest => negb (key_in k rest) && distinct_keys rest
  end.

(** The scenario of the spec: four children that return 3, 0, 5 and 2
    incidents with ten different ids. *)
Definition incident (id : Z) : json :=
  JDict [("category", JStr "bicycle-theft"); ("id", JInt id);
         ("month", JStr "2024-01")].

Definition sample_children : list (list json) :=
  [ [incident 1; incident 2; incident 3];
    [];
    [incident 4; incident 5; incident 6; incident 7; incident 8];
    [incident 9; incident 10] ].

Definition sample_keys : list key :=
  map (fun id => (pyval_of_Z id, VStr "2024-01")) [1; 2; 3; 4; 5; 6; 7; 8; 9; 10].

(** A payload in which one incident occurs twice. *)
Definition duplicated_payload : json := JList [incident 1; incident 1; incident 2].

(** A session that answers every request with the status 200 and the
    payload with the duplicate. *)
Definition duplicating_session : Session :=
  fun _ _ => Response 200 (Some duplicated_payload).

(** A session that answers every request with the status 500. *)
Definition failing_session : Session := fun _ _ => Response 500 None.

(** A session that answers every request with the status 503. *)
Definition overloaded_session : Session := fun _ _ => Response 503 None.

(** The region of the scenarios: the box [0,2]x[0,2], and its ring as the
    API gets it. *)
Definition region : Boxes.geom := Boxes.Box 0 0 2 2.

Definition region_ring : list (float * float) :=
  [(2, 0); (2, 2); (0, 2); (0, 0)]%float.

(** Its north-west quadrant. *)
Definition region_NW : Boxes.geom := Boxes.Box 0 1 1 2.

Definition region_NW_ring : list (float * float) :=
  [(1, 1); (1, 2); (0, 2); (0, 1)]%float.

(** The [poly] parameter of a request. *)
Definition poly_of (r : request) : string :=
  match r with
  | HttpGet _ ((_, poly) :: _) => poly
  | _ => ""
  end.

(** The [poly] string that a fetch of a box sends. *)
Definition ring_string (g : Boxes.geom) : string :=
  match Police._simplify_to_n_points g Police.MAX_POLY_POINTS with
  | Ok coords => Police._coords_to_api_string coords
  | Raise _ => ""
  end.

(** The endpoint of the spec's scenario: the region is too large, and its
    four quadrants succeed with 3, 0, 5 and 2 incidents. *)
Definition scenario_session : Session :=
  fun _ r =>
    let poly := poly_of r in
    if String.eqb poly (ring_string region) then Response 503 None
    else if String.eqb poly (ring_string (Boxes.Box 0 1 1 2))
    then Response 200 (Some (JList [incident 1; incident 2; incident 3]))
    else if String.eqb poly (ring_string (Boxes.Box 1 1 2 2))
    then Response 200 (Some (JList []))
    else if String.eqb poly (ring_string (Boxes.Box 0 0 1 1))
    then Response 200 (Some (JList [incident 4; incident 5; incident 6;
                                    incident 7; incident 8]))
    else if String.eqb poly (ring_string (Boxes.Box 1 0 2 1))
    then Response 200 (Some (JList [incident 9; incident 10]))
    else Response 500 None.

(** The same endpoint, except that the north-west quadrant fails with the
    status 500. *)
Definition partial_session : Session :=
  fun history r =>
    if String.eqb (poly_of r) (ring_string (Boxes.Box 0 1 1 2))
    then Response 500 None
    else scenario_session history r.

Definition scenario_run : world * result json :=
  Police._fetch_with_subdivision region "2024-01" "cache" scenario_session 0 ""
    Boxes.world0.

(** A first fetch that the endpoint fails. *)
Definition failed_run : world * result json :=
  Police._fetch_with_subdivision region "2024-01" "cache" failing_session 0 ""
    Boxes.world0.

(** A fetch on an endpoint that finds every region too large. *)
Definition overloaded_run : world * result json :=
  Police._fetch_with_subdivision region "2024-01" "cache" overloaded_session 0 ""
    Boxes.world0.

Section Subdivision.
Context {G Pt : Type} `{Shapely G Pt}.

(** The pieces of a region that a subdivision recurses into, in the spec's
    words: the bounding box is cut at the midpoints of both axes into the
    quadrant boxes NW, NE, SW and SE, each is intersected with the region,
    and the empty intersections are dropped. *)
Definition surviving_pieces (geom : G) : list (G * string) :=
  let '(minx, miny, maxx, maxy) := bounds geom in
  let midx := ((minx + maxx) / 2)%float in
  let midy := ((miny + maxy) / 2)%float in
  List.filter (fun piece => negb (is_empty (fst piece)))
    [ (intersection geom (box minx midy midx maxy), "NW");
      (intersection geom (box midx midy maxx maxy), "NE");
      (intersection geom (box minx miny midx midy), "SW");
      (intersection geom (box midx miny maxx midy), "SE") ].


End Subdivision.

(** The label of a child in the spec's words: the label of its parent
    extended by the suffix of its quadrant. The root, whose id is empty and
    whose cache label is "full", gives its children the bare suffix. *)
Definition extended_label (cell_id suffix : string) : string :=
  if String.eqb cell_id "" then suffix else cell_id +:+ "_" +:+ suffix.

Section SubdivisionOutcome.
Context {G Pt : Type} `{Shapely G Pt}.

(** What the subdivision of the frame [(depth, cell_id)] does with the
    surviving pieces, whatever their fetches do. The pieces are taken in
    order; each is fetched at [depth + 1] under the extended label, from
    the world that the piece before it left, and what it returns is merged
    into the results so far before the next piece is fetched. The run ends
    with the merged results of all the pieces, or with the exception of the
    first fetch or merge that raises, in the world that this piece left:
    the pieces after it are not fetched. *)
Inductive pieces_run (month cache_dir : string) (session : Session)
    (depth : Z) (cell_id : string)
    : list (G * string) -> list json * list key -> world -> world ->
      result (list json * list key) -> Prop :=
| pieces_done (acc : list json * list key) (w : world) :
    pieces_run month cache_dir session depth cell_id [] acc w w (Ok acc)
| pieces_merged (piece : G) (suffix : string) (rest : list (G * string))
    (acc acc1 : list json * list key) (w w1 w2 : world) (r : json)
    (out : result (list json * list key)) :
    Police._fetch_with_subdivision piece month cache_dir session (depth + 1)
      (extended_label cell_id suffix) w = (w1, Ok r) ->
    merge_from [r] acc = Ok acc1 ->
    pieces_run month cache_dir session depth cell_id rest acc1 w1 w2 out ->
    pieces_run month cache_dir session depth cell_id
      ((piece, suffix) :: rest) acc w w2 out
| pieces_fetch_raised (piece : G) (suffix : string) (rest : list (G * string))
    (acc : list json * list key) (w w1 : world) (e : exn) :
    Police._fetch_with_subdivision piece month cache_dir session (depth + 1)
      (extended_label cell_id suffix) w = (w1, Raise e) ->
    pieces_run month cache_dir session depth cell_id
      ((piece, suffix) :: rest) acc w w1 (Raise e)
| pieces_merge_raised (piece : G) (suffix : string) (rest : list (G * string))
    (acc : list json * list key) (w w1 : world) (r : json) (e : exn) :
    Police._fetch_with_subdivision piece month cache_dir session (depth + 1)
      (extended_label cell_id suffix) w = (w1, Ok r) ->
    merge_from [r] acc = Raise e ->
    pieces_run month cache_dir session depth cell_id
      ((piece, suffix) :: rest) acc w w1 (Raise e).

End SubdivisionOutcome.

(** An endpoint that finds the first region it is asked for too large, and
    answers every later query with one incident, numbered by the rank of
    the query. *)
Definition nested_session : Session :=
  fun history _ =>
    match history with
    | [] => Response 503 None
    | _ :: _ => Response 200 (Some (JList [incident (Z.of_nat (length history))]))
    end.

(** A fetch of the north-west quadrant, at depth 1, on that endpoint. *)
Definition nested_run : world * result json :=
  Police._fetch_with_subdivision region_NW "2024-01" "cache" nested_session 1 "NW"
    Boxes.world0.

(** An endpoint that finds the first region it is asked for too large, and
    answers every later query with the status 200 and a body that is not
    JSON. *)
Definition aborting_session : Session :=
  fun history _ =>
    match history with
    | [] => Response 503 None
    | _ :: _ => Response 200 None
    end.

(** A fetch of the region on that endpoint. *)
Definition aborted_run : world * result json :=
  Police._fetch_with_subdivision region "2024-01" "cache" aborting_session 0 ""
    Boxes.world0.

(** An endpoint that answers every query with the status 200 and a body
    that is not JSON. *)
Definition undecodable_session : Session := fun _ _ => Response 200 None.

(** The frames that returned without recursing, and those among them whose
    own query went to the network: the leaf queries. *)
Definition is_leaf (f : frame) : bool :=
  match f_kind f with Leaf => true | Split => false end.

Definition count_leaves (fr : list frame) : nat :=
  length (List.filter is_leaf fr).

Definition leaf_queries (fr : list frame) : nat :=
  length (List.filter (fun f => is_leaf f && f_queried f) fr).

(** The number of nodes of a full tree with four children per node and
    [levels] levels below its root: [(4^(levels+1) - 1) / 3]. *)
Fixpoint max_requests (levels : nat) : nat :=
  match levels with
  | O => 1
  | S k => 1 + 4 * max_requests k
  end.

(** From [w] to [w'] the frames and the requests only grew: by frames at
    depths from [lo] to [hi] with at most [nleaf] leaves, and by at most
    [nreq] requests. *)
Definition grows (lo hi : Z) (nleaf nreq : nat) (w w' : world) : Prop :=
  exists (fr : list frame) (rq : list request),
    frames w' = (fr ++ frames w)%list /\
    requests w' = (rq ++ requests w)%list /\
    Forall (fun f => lo <= f_depth f <= hi /\
                     (f_kind f = Split -> f_depth f < Police.MAX_GRID_DEPTH)) fr /\
    (count_leaves fr <= nleaf)%nat /\
    (length rq <= nreq)%nat.

(** A write that replaced no payload: there was no file, or the file held
    null. *)
Definition fresh_write (c : cache_write) : Prop :=
  cw_old c = None \/ cw_old c = Some JNull.

(** The labels of the frames below and at a cell: the label of the cell
    itself, and the labels that extend the id of one of its children. *)
Definition under (cell_id label : string) : Prop :=
  label = Police.label_of cell_id \/
  exists suffix t, In suffix Police.suffixes /\
                   label = Police.sub_id_of cell_id suffix +:+ t.

(** The cache files of the frames below and at a cell. *)
Definition subtree_key (cache_dir month cell_id path : string) : Prop :=
  exists label, path = Police.cache_file cache_dir label month /\ under cell_id label.

(** From [w] to [w'] the cache was written with care: every write went to a
    path of [P] that held no payload, the files outside [P] are as they
    were, and so is every payload that was there. *)
Definition careful (P : string -> Prop) (w w' : world) : Prop :=
  (exists ws, writes w' = (ws ++ writes w)%list /\
              Forall (fun c => fresh_write c /\ P (cw_path c)) ws) /\
  (forall path, ~ P path -> fs w' !! path = fs w !! path) /\
  (forall path v, fs w !! path = Some v -> v <> JNull -> fs w' !! path = Some v).

(** An answer of an endpoint that is a failure: a network error or a status
    other than 200. *)
Definition endpoint_fails (out : net_outcome) : Prop :=
  match out with
  | RequestException => True
  | Response status_code _ => status_code <> 200
  end.

(** The request that [_query_overpass] posts to an endpoint. *)
Definition overpass_request (endpoint query : string) : request :=
  HttpPost endpoint [("data", query)].

(** ** Derived notions for the further properties *)

(** The cache file of a borough's Overpass payload. *)
Definition parking_file (cache_dir borough_name : string) : string :=
  path_join cache_dir (replace_spaces borough_name +:+ "_parking.json").

(** The query that [fetch_borough_parking] sends for a geometry: its
    bounding box, as south, west, north, east. *)
Definition parking_query {G Pt : Type} `{Shapely G Pt} (borough_geom : G) : string :=
  let '(minx, miny, maxx, maxy) := bounds borough_geom in
  Osm._build_query miny minx maxy maxx.

Definition primary_endpoint : string := "https://overpass-api.de/api/interpreter".
Definition mirror_endpoint : string := "https://overpass.kumi.systems/api/interpreter".

(** An Overpass session whose primary endpoint times out and whose mirror
    answers with the sample payload. *)
Definition mirror_only_session : Session :=
  fun _ r =>
    match r with
    | HttpPost url _ =>
        if String.eqb url mirror_endpoint
        then Response 200 (Some (JDict [("elements", JList sample_elements)]))
        else RequestException
    | HttpGet _ _ => RequestException
    end.

(** An Overpass session that answers every request with the sample payload. *)
Definition healthy_session : Session :=
  fun _ _ => Response 200 (Some (JDict [("elements", JList sample_elements)])).

(** A payload that is not an object: the filter cannot read it. *)
Definition malformed_session : Session :=
  fun _ _ => Response 200 (Some (JList [JInt 1])).

(** Two boroughs that are boxes. *)
Definition sample_boroughs : list (string * Boxes.geom) :=
  [("City of London", Boxes.Box 0 0 2 2); ("Camden", Boxes.Box 0 0 1 1)].

(** A box drawn with surplus vertices on its outline: the first vertex is
    repeated [surplus] times, and a simplification with a tolerance above
    0.00015 removes the repetitions. *)
Module Sketch.

Record geom : Type := Geom {
  surplus : nat;
  shape : Boxes.geom
}.

Definition coords_of (g : geom) : option (list (float * float)) :=
  match Boxes.coords_of (shape g) with
  | Some (p :: rest) => Some (p :: repeat p (surplus g) ++ rest)%list
  | other => other
  end.

Definition simplified (g : geom) (tolerance : float) : geom :=
  if PrimFloat.ltb 0.00015 tolerance then Geom 0 (shape g) else g.

#[global] Instance shapely : Shapely geom (float * float) := {
  exterior_coords := coords_of;
  simplify := simplified;
  bounds := fun g => Boxes.bounds_of (shape g);
  box := fun minx miny maxx maxy => Geom 0 (Boxes.make minx miny maxx maxy);
  intersection := fun a b => Geom 0 (Boxes.inter (shape a) (shape b));
  is_empty := fun g => Boxes.empty (shape g);
  Point := Boxes.point;
  contains := fun g p => Boxes.inside (shape g) p
}.

End Sketch.

(** The request of [get_available_months]. *)
Definition months_request : request :=
  HttpGet (Police.POLICE_API_BASE +:+ "/crimes-street-dates") [].

(** An item of the answer that is an object with the entry [date]. *)
Definition dated (d v : json) : Prop :=
  exists kv, d = JDict kv /\ dict_get kv "date" = Some v.

(** No list that is not all strings is sorted here: a stand-in for the
    parameter of [py_sorted]. *)
Definition unsorted : list json -> outcome (list json) :=
  fun _ => Throws (Core TypeError).

(** A session that lists three months, not in order. *)
Definition months_session : Session :=
  fun _ _ =>
    Response 200
      (Some (JList
         [ JDict [("date", JStr "2024-02"); ("stop-and-search", JList [])];
           JDict [("date", JStr "2023-12"); ("stop-and-search", JList [])];
           JDict [("date", JStr "2024-01"); ("stop-and-search", JList [])] ])).

(** No fallback list: a stand-in for the clock-dependent parameter of
    [resolve_months]. *)
Definition no_fallback : Z -> outcome (list json) :=
  fun _ => Returns [].

(** A coordinate that [float] converts or refuses without an overflow:
    any value but an integer beyond the range of the floats. *)
Definition in_float_range (x : json) : bool :=
  match x with
  | JInt n => bool_decide (is_Some (float_of_int n))
  | _ => true
  end.

Definition entry_in_range (l : list (string * json)) (k : string) : bool :=
  match dict_get l k with
  | Some x => in_float_range x
  | None => true
  end.

(** A crime that [parse_crimes_to_records] can read: an object whose
    [location] is absent, falsy, or an object with coordinates in range. *)
Definition parseable (c : json) : bool :=
  match c with
  | JDict d =>
      match dict_get d "location" with
      | None => true
      | Some loc =>
          if truthy loc then
            match loc with
            | JDict l => entry_in_range l "latitude" && entry_in_range l "longitude"
            | _ => false
            end
          else true
      end
  | _ => false
  end.

(** What [float] makes of two strings, and refuses every other: a stand-in
    for the parameter of [py_float]. *)
Definition sample_float_of_str : string -> option float :=
  fun s =>
    if String.eqb s "51.5" then Some 51.5%float
    else if String.eqb s "-0.12" then Some (-0.12)%float
    else None.

(** Three crimes: one with coordinates, one without location, one whose
    latitude is not a number. *)
Definition sample_crimes : list json :=
  [ JDict [("id", JInt 101);
           ("location", JDict [("latitude", JStr "51.5"); ("longitude", JStr "-0.12")])];
    JDict [("id", JInt 102); ("location", JNull)];
    JDict [("persistent_id", JStr "");
           ("location", JDict [("latitude", JStr "north"); ("longitude", JStr "-0.12")])] ].

(** What the [skip_osm] branch counts for a row in a world: the filter on
    the cached payload of the borough, and 0 without a cache file. *)
Definition cached_count {G Pt : Type} `{Shapely G Pt} (w : world)
    (osm_cache : string) (r : Dataset.row) : result Z :=
  match fs w !! parking_file osm_cache (Dataset.name r) with
  | Some raw => Osm.spatial_filter raw (Dataset.geometry r)
  | None => Ok 0
  end.

Definition count_of {G Pt : Type} `{Shapely G Pt} (w : world)
    (osm_cache : string) (r : Dataset.row) : Z :=
  match cached_count w osm_cache r with
  | Ok count => count
  | Raise _ => 0
  end.

(** Two rows of the boroughs frame, and a cache that holds the sample
    payload for both. *)
Definition sample_rows : list (@Dataset.row Boxes.geom) :=
  [ Dataset.Row "E09000001" "City of London" (Boxes.Box 0 0 2 2);
    Dataset.Row "E09000007" "Camden" (Boxes.Box 0 1 1 2) ].

Definition cached_world : world :=
  dumped (parking_file "cache/osm" "Camden")
    (JDict [("elements", JList sample_elements)])
    (dumped (parking_file "cache/osm" "City of London")
       (JDict [("elements", JList sample_elements)]) Boxes.world0).



(** * Properties *)

(** ** Computations on the world *)

Lemma bind_ok {A B} (m : M A) (k : A -> M B) w w' a :
  m w = (w', Ok a) -> bind m k w = k a w'.
Proof. intros E. unfold bind. now rewrite E. Qed.

Lemma bind_raise {A B} (m : M A) (k : A -> M B) w w' e :
  m w = (w', Raise e) -> bind m k w = (w', Raise e).
Proof. intros E. unfold bind. now rewrite E. Qed.

Lemma bind_inv_ok {A B} (m : M A) (k : A -> M B) w w' b :
  bind m k w = (w', Ok b) ->
  exists w1 a, m w = (w1, Ok a) /\ k a w1 = (w', Ok b).
Proof.
  unfold bind. destruct (m w) as [w1 [a|e]]; intros E.
  - eauto.
  - discriminate.
Qed.

Lemma path_exists_true path w v :
  fs w !! path = Some v -> path_exists path w = (w, Ok true).
Proof.
  intros E. unfold path_exists. rewrite E.
  rewrite bool_decide_eq_true_2; [reflexivity | eauto].
Qed.

Lemma path_exists_false path w :
  fs w !! path = None -> path_exists path w = (w, Ok false).
Proof.
  intros E. unfold path_exists. rewrite E.
  rewrite bool_decide_eq_false_2; [reflexivity | ].
  intros [v Hv]. discriminate.
Qed.

Section SinglePoly.
Variables (poly_str month cache_path : string) (session : Session).

(** A cache hit: the decoded file is returned and nothing else happens. *)
Lemma fetch_single_poly_hit w v :
  fs w !! cache_path = Some v ->
  Police._fetch_single_poly poly_str month cache_path session w = (w, Ok v).
Proof.
  intros E. unfold Police._fetch_single_poly.
  rewrite (bind_ok _ _ _ _ _ (path_exists_true _ _ _ E)).
  unfold json_load. now rewrite E.
Qed.

(** A cache miss: one network call, and what each answer leads to. *)
Lemma fetch_single_poly_miss w :
  fs w !! cache_path = None ->
  Police._fetch_single_poly poly_str month cache_path session w =
  let w1 := sent (crime_request poly_str month) w in
  match session (requests w) (crime_request poly_str month) with
  | RequestException => (w1, Ok (JList []))
  | Response status_code body =>
      if status_code =? 503 then (w1, Ok JNull)
      else if negb (status_code =? 200) then (w1, Ok (JList []))
      else match body with
           | None => (w1, Raise JSONDecodeError)
           | Some crimes =>
               match py_len crimes with
               | Ok _ => (dumped cache_path crimes w1, Ok crimes)
               | Raise e => (dumped cache_path crimes w1, Raise e)
               end
           end
  end.
Proof.
  intros E. unfold Police._fetch_single_poly.
  rewrite (bind_ok _ _ _ _ _ (path_exists_false _ _ E)).
  unfold bind at 1. unfold send at 1. fold (crime_request poly_str month).
  cbn [requests]. fold (sent (crime_request poly_str month) w).
  destruct (session (requests w) (crime_request poly_str month))
    as [|status_code body]; [reflexivity|].
  destruct (status_code =? 503); [reflexivity|].
  destruct (status_code =? 200); cbn [negb]; [|reflexivity].
  destruct body as [crimes|]; cbn; [|reflexivity].
  unfold bind, lift, json_dump, dumped. cbn.
  destruct (py_len crimes); reflexivity.
Qed.

End SinglePoly.

(** ** The query encoder *)

Lemma free_of_app sep s t :
  free_of sep (s +:+ t) = free_of sep s && free_of sep t.
Proof.
  induction s as [|a s IH]; simpl; [reflexivity|].
  rewrite IH. now rewrite andb_assoc.
Qed.

Lemma split_on_free sep s : free_of sep s = true -> split_on sep s = [s].
Proof.
  induction s as [|a s IH]; simpl; [reflexivity|].
  intros [Ha Hs]%andb_true_iff.
  apply negb_true_iff in Ha. rewrite Ha, (IH Hs). reflexivity.
Qed.

Lemma split_on_sep sep s t :
  free_of sep s = true ->
  split_on sep (s +:+ String sep t) = s :: split_on sep t.
Proof.
  induction s as [|a s IH]; simpl.
  - intros _. now rewrite Ascii.eqb_refl.
  - intros [Ha Hs]%andb_true_iff.
    apply negb_true_iff in Ha. rewrite Ha, (IH Hs). reflexivity.
Qed.

Lemma pretty_N_char_free sep d :
  sep = ":"%char \/ sep = ","%char ->
  Ascii.eqb (pretty_N_char d) sep = false.
Proof.
  intros [-> | ->]; unfold pretty_N_char; repeat case_match; reflexivity.
Qed.

Lemma pretty_N_go_free sep x s :
  sep = ":"%char \/ sep = ","%char ->
  free_of sep s = true -> free_of sep (pretty_N_go x s) = true.
Proof.
  intros Hsep. revert s.
  induction (N.lt_wf_0 x) as [x _ IH]; intros s Hs.
  destruct (decide (x = 0)%N) as [->|Hx].
  - now rewrite pretty_N_go_0.
  - rewrite pretty_N_go_step by lia.
    apply IH; [apply N.div_lt; lia|].
    cbn. now rewrite pretty_N_char_free, Hs.
Qed.

Lemma digits_free sep n :
  sep = ":"%char \/ sep = ","%char -> free_of sep (digits n) = true.
Proof.
  intros Hsep. unfold digits, pretty, pretty_N.
  destruct (decide (Z.to_N n = 0%N)).
  - destruct Hsep as [-> | ->]; reflexivity.
  - now apply pretty_N_go_free.
Qed.

Lemma zeros_free sep k :
  sep = ":"%char \/ sep = ","%char ->
  free_of sep (string_of_list_ascii (repeat "0"%char k)) = true.
Proof.
  intros Hsep. induction k as [|k IH]; cbn; [reflexivity|].
  rewrite IH. destruct Hsep as [-> | ->]; reflexivity.
Qed.

Lemma format_6f_free sep x :
  sep = ":"%char \/ sep = ","%char -> free_of sep (format_6f x) = true.
Proof.
  intros Hsep. unfold format_6f.
  destruct (Prim2SF x) as [s|s| |s m e].
  - destruct s, Hsep as [-> | ->]; reflexivity.
  - destruct s, Hsep as [-> | ->]; reflexivity.
  - destruct Hsep as [-> | ->]; reflexivity.
  - rewrite !free_of_app. unfold pad6. rewrite free_of_app.
    rewrite !digits_free, zeros_free by assumption.
    destruct s, Hsep as [-> | ->]; reflexivity.
Qed.

Lemma split_on_join sep x xs :
  Forall (fun s => free_of sep s = true) (x :: xs) ->
  split_on sep (Police.join (String sep "") (x :: xs)) = x :: xs.
Proof.
  revert x. induction xs as [|y ys IH]; intros x Hall.
  - cbn. apply split_on_free. now inversion Hall.
  - inversion Hall as [|? ? Hx Hrest]; subst.
    change (Police.join (String sep "") (x :: y :: ys))
      with (x +:+ String sep (Police.join (String sep "") (y :: ys))).
    rewrite split_on_sep by assumption.
    now rewrite IH.
Qed.

(** C9 (as the code has it): the encoder never fails. The empty ring gives
    the empty string; for a ring with at least one vertex, cutting the wire
    string at the colons and each field at its comma gives back, vertex by
    vertex and in ring order, the six-decimal latitude followed by the
    six-decimal longitude of the stored (lng, lat) pair. *)
Theorem coords_to_api_string_wire_format (c : float * float) (rest : list (float * float)) :
  Police._coords_to_api_string [] = "" /\
  map (split_on ","%char)
      (split_on ":"%char (Police._coords_to_api_string (c :: rest)))
  = map (fun p => [format_6f (snd p); format_6f (fst p)]) (c :: rest).
Proof.
  split; [reflexivity|].
  unfold Police._coords_to_api_string.
  set (field := fun '(lng, lat) => format_6f lat +:+ "," +:+ format_6f lng).
  change (map field (c :: rest)) with (field c :: map field rest).
  rewrite (split_on_join ":"%char).
  - change (field c :: map field rest) with (map field (c :: rest)).
    rewrite map_map. apply map_ext. intros [lng lat]. cbn [fst snd field].
    change (format_6f lat +:+ "," +:+ format_6f lng)
      with (format_6f lat +:+ String ","%char (format_6f lng)).
    rewrite split_on_sep by (apply format_6f_free; now right).
    now rewrite split_on_free by (apply format_6f_free; now right).
  - change (field c :: map field rest) with (map field (c :: rest)).
    apply Forall_forall. intros s Hs.
    apply list_elem_of_In, in_map_iff in Hs as [[lng lat] [<- _]].
    cbn [field]. rewrite !free_of_app.
    rewrite !format_6f_free by now left. reflexivity.
Qed.

(** C9 (as stated) fails: encoding the empty ring is not an error, it gives
    the empty string, which [_fetch_with_subdivision] then sends as the
    [poly] parameter. *)
Lemma coords_to_api_string_empty_ring_no_error :
  Police._coords_to_api_string [] = "" /\
  fst (Police._fetch_with_subdivision Boxes.Empty "2024-01" "cache"
         (fun _ _ => Response 500 None) 0 "" Boxes.world0)
  = World ∅ [crime_request "" "2024-01"]
      [Frame Leaf 0 "full" true] [].
Proof. split; reflexivity. Qed.

(** ** The region simplifier *)

Section Simplifier.
Context {G Pt : Type} `{Shapely G Pt}.

Lemma length_removelast {A} (l : list A) :
  length (removelast l) = Nat.pred (length l).
Proof.
  induction l as [|a [|b l] IH]; [reflexivity..|].
  change (removelast (a :: b :: l)) with (a :: removelast (b :: l)).
  cbn [length] in *. now rewrite IH.
Qed.

(** The loop, started at round [j] with [k] rounds left: either a round
    meets the budget and its geometry is the result, or every round
    exceeds it and the result is the geometry of the last round. *)
Lemma simplify_loop_spec (geom : G) (max_points : Z) (k : nat) :
  forall (j : nat) (simplified : G),
  (forall i, (j <= i < j + k)%nat ->
     is_Some (exterior_coords (simplify geom (tolerance_at i)))) ->
  exists s, Police.simplify_loop k geom simplified (tolerance_at j) max_points = Ok s /\
    ((exists i cs, (j <= i < j + k)%nat /\ s = simplify geom (tolerance_at i) /\
        exterior_coords s = Some cs /\ Z.of_nat (length cs) <= max_points)
     \/ ((forall i cs, (j <= i < j + k)%nat ->
            exterior_coords (simplify geom (tolerance_at i)) = Some cs ->
            max_points < Z.of_nat (length cs))
         /\ s = match k with
                | O => simplified
                | S k' => simplify geom (tolerance_at (j + k'))
                end)).
Proof.
  induction k as [|k IH]; intros j simplified Hext.
  - exists simplified. split; [reflexivity|]. right. split; [|reflexivity].
    intros i cs Hi. lia.
  - cbn [Police.simplify_loop].
    destruct (Hext j ltac:(lia)) as [cs Hcs]. rewrite Hcs.
    destruct (Z.of_nat (length cs) <=? max_points) eqn:Hle.
    + exists (simplify geom (tolerance_at j)). split; [reflexivity|]. left.
      exists j, cs. split; [lia|]. split; [reflexivity|]. split; [assumption|].
      now apply Z.leb_le.
    + apply Z.leb_gt in Hle.
      destruct (IH (S j) (simplify geom (tolerance_at j))) as (s & Hs & Hcase).
      { intros i Hi. apply Hext. lia. }
      exists s. split; [exact Hs|].
      destruct Hcase as [(i & cs' & Hi & Hsi & Hcs' & Hlen) | [Hall Hlast]].
      * left. exists i, cs'. split; [lia|]. now repeat split.
      * right. split.
        -- intros i cs' Hi Hcs'.
           destruct (decide (i = j)) as [->|Hne].
           ++ rewrite Hcs in Hcs'. now inversion Hcs'; subst.
           ++ apply (Hall i cs'); [lia | assumption].
        -- rewrite Hlast. destruct k as [|k'].
           ++ now rewrite Nat.add_0_r.
           ++ f_equal. f_equal. lia.
Qed.

(** The loop stops at the first round whose ring meets the budget. *)
Lemma simplify_loop_first (geom : G) (max_points : Z) (cs : list (float * float))
    (i : nat) :
  forall (k j : nat) (simplified : G),
  (i < k)%nat ->
  (forall t, (t < i)%nat ->
     exists cs', exterior_coords (simplify geom (tolerance_at (j + t))) = Some cs' /\
                 max_points < Z.of_nat (length cs')) ->
  exterior_coords (simplify geom (tolerance_at (j + i))) = Some cs ->
  Z.of_nat (length cs) <= max_points ->
  Police.simplify_loop k geom simplified (tolerance_at j) max_points
  = Ok (simplify geom (tolerance_at (j + i))).
Proof.
  induction i as [|i IH]; intros k j simplified Hk Hbefore Hcs Hlen;
    (destruct k as [|k]; [lia|]); cbn [Police.simplify_loop].
  - rewrite Nat.add_0_r in Hcs |- *. rewrite Hcs.
    apply Z.leb_le in Hlen. now rewrite Hlen.
  - destruct (Hbefore 0%nat ltac:(lia)) as (cs0 & Hcs0 & Hlen0).
    rewrite Nat.add_0_r in Hcs0. rewrite Hcs0.
    apply Z.leb_gt in Hlen0. rewrite Hlen0.
    change (tolerance_at j * 2)%float with (tolerance_at (S j)).
    replace (j + S i)%nat with (S j + i)%nat in Hcs |- * by lia.
    apply IH; [lia| |assumption..].
    intros t Ht. replace (S j + t)%nat with (j + S t)%nat by lia.
    apply Hbefore. lia.
Qed.

(** C8 (what the code does): on a polygon whose simplifications are
    polygons, [_simplify_to_n_points] returns a ring, and which ring is
    settled by three cases. An input whose coordinate list, closing vertex
    included, has at most [max_points] entries is returned as it is without
    the closing vertex, within the budget. Otherwise, when one of the 30
    rounds gives a ring of at most [max_points] coordinates, the result is
    the ring of the first such round without its closing vertex, within the
    budget. Otherwise the result is the ring of the last round, at the
    tolerance [0.0001 * 2^29], without its closing vertex, and it has
    [max_points] vertices or more. Since a ring has at least four
    coordinates, a budget below three is exceeded. *)
Theorem simplify_to_n_points_budget (geom : G) (max_points : Z)
    (coords : list (float * float)) :
  exterior_coords geom = Some coords ->
  (forall i, (i < 30)%nat ->
     is_Some (exterior_coords (simplify geom (tolerance_at i)))) ->
  (Z.of_nat (length coords) <= max_points ->
   Police._simplify_to_n_points geom max_points = Ok (removelast coords) /\
   Z.of_nat (length (removelast coords)) <= max_points) /\
  (max_points < Z.of_nat (length coords) ->
   forall (i : nat) (cs : list (float * float)),
     (i < 30)%nat ->
     exterior_coords (simplify geom (tolerance_at i)) = Some cs ->
     Z.of_nat (length cs) <= max_points ->
     (forall t cs', (t < i)%nat ->
        exterior_coords (simplify geom (tolerance_at t)) = Some cs' ->
        max_points < Z.of_nat (length cs')) ->
     Police._simplify_to_n_points geom max_points = Ok (removelast cs) /\
     Z.of_nat (length (removelast cs)) <= max_points) /\
  (max_points < Z.of_nat (length coords) ->
   (forall i cs, (i < 30)%nat ->
      exterior_coords (simplify geom (tolerance_at i)) = Some cs ->
      max_points < Z.of_nat (length cs)) ->
   exists cs,
     exterior_coords (simplify geom (tolerance_at 29)) = Some cs /\
     Police._simplify_to_n_points geom max_points = Ok (removelast cs) /\
     max_points <= Z.of_nat (length (removelast cs))) /\
  (max_points < 3 ->
   4 <= Z.of_nat (length coords) ->
   (forall i cs, (i < 30)%nat ->
      exterior_coords (simplify geom (tolerance_at i)) = Some cs ->
      4 <= Z.of_nat (length cs)) ->
   exists ring,
     Police._simplify_to_n_points geom max_points = Ok ring /\
     max_points < Z.of_nat (length ring)).
Proof.
  intros Hcoords Hext.
  assert (Hlast : max_points < Z.of_nat (length coords) ->
            (forall i cs, (i < 30)%nat ->
               exterior_coords (simplify geom (tolerance_at i)) = Some cs ->
               max_points < Z.of_nat (length cs)) ->
            exists cs,
              exterior_coords (simplify geom (tolerance_at 29)) = Some cs /\
              Police._simplify_to_n_points geom max_points = Ok (removelast cs) /\
              max_points < Z.of_nat (length cs)).
  { intros Hover Hnone. unfold Police._simplify_to_n_points. rewrite Hcoords.
    apply Z.leb_gt in Hover. rewrite Hover.
    destruct (simplify_loop_spec geom max_points 30 0 geom) as (s & Hs & Hcase).
    { intros i Hi. apply Hext. lia. }
    change (tolerance_at 0) with 0.0001%float in Hs. rewrite Hs. cbn [bindR].
    destruct (Hext 29%nat ltac:(lia)) as [cs Hcs].
    destruct Hcase as [(i & cs' & Hi & Hsi & Hcs' & Hlen) | [_ Hround]].
    - subst s. specialize (Hnone i cs' ltac:(lia) Hcs'). lia.
    - cbn [Nat.add] in Hround. subst s. rewrite Hcs. exists cs.
      split; [reflexivity|]. split; [reflexivity|].
      apply (Hnone 29%nat cs); [lia | exact Hcs]. }
  split; [|split; [|split]].
  - intros Hle. unfold Police._simplify_to_n_points. rewrite Hcoords.
    pose proof Hle as Hleb. apply Z.leb_le in Hleb. rewrite Hleb.
    split; [reflexivity|]. rewrite length_removelast. lia.
  - intros Hover i cs Hi Hcs Hlen Hbefore.
    unfold Police._simplify_to_n_points. rewrite Hcoords.
    apply Z.leb_gt in Hover. rewrite Hover.
    change 0.0001%float with (tolerance_at 0).
    rewrite (simplify_loop_first geom max_points cs i 30 0 geom Hi); cbn [Nat.add];
      [|intros t Ht; destruct (Hext t ltac:(lia)) as [cs' Hcs']; exists cs';
        split; [exact Hcs' | now apply (Hbefore t cs')]
       |exact Hcs|exact Hlen].
    cbn [bindR]. rewrite Hcs. split; [reflexivity|].
    rewrite length_removelast. lia.
  - intros Hover Hnone. destruct (Hlast Hover Hnone) as (cs & Hcs & Hrun & Hlen).
    exists cs. split; [exact Hcs|]. split; [exact Hrun|].
    rewrite length_removelast. lia.
  - intros Hbudget Hfour Hrings.
    destruct (Hlast ltac:(lia)) as (cs & Hcs & Hrun & Hlen).
    { intros i cs Hi Hcs. specialize (Hrings i cs Hi Hcs). lia. }
    exists (removelast cs). split; [exact Hrun|].
    specialize (Hrings 29%nat cs ltac:(lia) Hcs).
    rewrite length_removelast. lia.
Qed.

End Simplifier.

(** The square within the budget of 25, and over a budget of 2. On the
    boxes no simplification removes a vertex, so the last round has the four
    vertices of the square; a simplification that removes one leaves three,
    which is over that budget too. *)
Lemma simplify_to_n_points_budget_witness :
  Police._simplify_to_n_points (Boxes.Box 0 0 2 2) 25
  = Ok [(2, 0); (2, 2); (0, 2); (0, 0)]%float /\
  exists ring,
    Police._simplify_to_n_points (Boxes.Box 0 0 2 2) 2 = Ok ring /\
    2 < Z.of_nat (length ring).
Proof.
  split.
  - destruct (simplify_to_n_points_budget (Boxes.Box 0 0 2 2) 25
                [(2, 0); (2, 2); (0, 2); (0, 0); (2, 0)]%float) as [Hwithin _];
      [reflexivity | intros i _; cbn; eauto |].
    apply Hwithin. cbn. lia.
  - destruct (simplify_to_n_points_budget (Boxes.Box 0 0 2 2) 2
                [(2, 0); (2, 2); (0, 2); (0, 0); (2, 0)]%float)
      as (_ & _ & _ & Hbelow);
      [reflexivity | intros i _; cbn; eauto |].
    apply Hbelow; [lia | cbn; lia |].
    intros i cs _ Hcs. cbn in Hcs. injection Hcs as <-. cbn. lia.
Defined.

(** ** The containment filter *)

Section ContainmentFilter.
Context {G Pt : Type} `{Shapely G Pt}.

Lemma eq_str_spec (x : json) (s : string) :
  Osm.eq_str x s = true <-> x = JStr s.
Proof.
  destruct x; cbn; try (split; [discriminate | intros; discriminate]).
  rewrite String.eqb_eq. split; [now intros -> | now intros [= ->]].
Qed.

(** [_element_to_point] computes the representative point. *)
Lemma element_to_point_representative (elem : json) :
  Osm._element_to_point elem = representative_point elem.
Proof.
  destruct elem as [| | | | |l|d]; try reflexivity.
  unfold Osm._element_to_point, representative_point, py_get. cbn [bindR].
  destruct (dict_get d "type") as [etype|] eqn:Etype; [|reflexivity].
  destruct (Osm.eq_str etype "node") eqn:Enode.
  { apply eq_str_spec in Enode. subst etype. cbn [bindR].
    unfold point_of_entries.
    destruct (dict_get d "lat") as [lat|], (dict_get d "lon") as [lon|];
      try reflexivity.
    cbn. now rewrite orb_true_r. }
  destruct (Osm.eq_str etype "way") eqn:Eway.
  { apply eq_str_spec in Eway. subst etype.
    destruct (dict_get d "center") as [center|]; [|reflexivity].
    destruct center as [| | | | |l|c]; try reflexivity.
    cbn [bindR]. unfold point_of_entries.
    destruct (dict_get c "lat") as [lat|], (dict_get c "lon") as [lon|];
      try reflexivity.
    cbn. now rewrite orb_true_r. }
  cbn [bindR].
  destruct etype as [| | | |s| |]; try reflexivity.
  destruct (String.eqb_spec s "node") as [->|Hn]; [discriminate|].
  destruct (String.eqb_spec s "way") as [->|Hw]; [discriminate|].
  cbn in Enode, Eway.
  repeat (destruct s as [|[[] [] [] [] [] [] [] []] s]; try reflexivity;
          try discriminate; try congruence).
Qed.

Lemma count_inside_spec (region : G) (items : list json) (count : Z) :
  Osm.count_inside items region count =
  let? pts := map_result representative_point items in
  Ok (count + Z.of_nat (length (List.filter (strictly_inside region) pts))).
Proof.
  revert count. induction items as [|elem rest IH]; intros count.
  - cbn. f_equal. lia.
  - cbn [Osm.count_inside map_result].
    rewrite element_to_point_representative.
    destruct (representative_point elem) as [[p|]|e]; cbn [bindR]; [| |reflexivity].
    + destruct (contains region p) eqn:Hin; rewrite IH;
        destruct (map_result representative_point rest) as [pts|e];
        cbn [bindR List.filter strictly_inside]; try reflexivity;
        rewrite Hin; cbn [length]; f_equal; lia.
    + rewrite IH.
      destruct (map_result representative_point rest) as [pts|e];
        cbn [bindR List.filter strictly_inside]; reflexivity.
Qed.

(** C7: on a payload whose [elements] entry is the candidate list, the count
    that the filter returns is the number of candidates whose representative
    point (a node's own coordinates, a way's center) lies in the interior of
    the region; a candidate without a representative point is not counted. *)
Theorem spatial_filter_counts_strictly_inside
    (region : G) (d : list (string * json)) (candidates : list json) :
  dict_get d "elements" = Some (JList candidates) ->
  Osm.spatial_filter (JDict d) region =
  let? pts := map_result representative_point candidates in
  Ok (Z.of_nat (length (List.filter (strictly_inside region) pts))).
Proof.
  intros Helems. unfold Osm.spatial_filter, py_get. rewrite Helems.
  cbn [bindR py_iter]. rewrite count_inside_spec.
  destruct (map_result representative_point candidates); reflexivity.
Qed.

End ContainmentFilter.

Lemma spatial_filter_counts_strictly_inside_witness :
  Osm.spatial_filter (JDict [("elements", JList sample_elements)])
    (Boxes.Box 0 0 2 2) = Ok 2.
Proof.
  rewrite (spatial_filter_counts_strictly_inside (Boxes.Box 0 0 2 2)
             [("elements", JList sample_elements)] sample_elements eq_refl).
  reflexivity.
Defined.

(** The filter is what [fetch_borough_parking] applies to a cached payload. *)
Lemma fetch_borough_parking_cached {G Pt : Type} `{Shapely G Pt}
    (borough_name : string) (borough_geom : G) (cache_dir : string)
    (session : Session) (w : world) (raw : json) :
  fs w !! path_join cache_dir (replace_spaces borough_name +:+ "_parking.json")
    = Some raw ->
  Osm.fetch_borough_parking borough_name borough_geom cache_dir session w
  = (w, Osm.spatial_filter raw borough_geom).
Proof.
  intros Hraw. unfold Osm.fetch_borough_parking.
  rewrite (bind_ok _ _ _ _ _ (path_exists_true _ _ _ Hraw)).
  unfold bind, json_load. rewrite Hraw. reflexivity.
Qed.

(** ** The deduplicating merge *)

Lemma pyval_eqb_true (a b : pyval) : pyval_eqb a b = true <-> a = b.
Proof. unfold pyval_eqb. apply bool_decide_eq_true. Qed.

Lemma key_eqb_true (a b : key) : key_eqb a b = true <-> a = b.
Proof.
  unfold key_eqb. rewrite andb_true_iff, !pyval_eqb_true.
  destruct a as [a1 a2], b as [b1 b2]; cbn. split.
  - now intros [-> ->].
  - now intros [= -> ->].
Qed.

Lemma key_eqb_sym (a b : key) : key_eqb a b = key_eqb b a.
Proof.
  destruct (key_eqb a b) eqn:E1, (key_eqb b a) eqn:E2; try reflexivity.
  - apply key_eqb_true in E1 as ->.
    assert (key_eqb b b = true) by now apply key_eqb_true. congruence.
  - apply key_eqb_true in E2 as ->.
    assert (key_eqb a a = true) by now apply key_eqb_true. congruence.
Qed.

Lemma key_eqb_trans (a b c : key) :
  key_eqb a b = true -> key_eqb b c = true -> key_eqb a c = true.
Proof. intros ->%key_eqb_true Hbc. exact Hbc. Qed.

Lemma key_in_true (k : key) (l : list key) :
  key_in k l = true <-> exists k', In k' l /\ key_eqb k k' = true.
Proof. unfold key_in. apply existsb_exists. Qed.

Lemma key_in_app (k : key) (l1 l2 : list key) :
  key_in k (l1 ++ l2) = key_in k l1 || key_in k l2.
Proof. unfold key_in. apply existsb_app. Qed.

(** Looking a key up among the kept keys or among all the keys passed so
    far gives the same answer, once the two agree on every key. *)
Lemma seen_agrees_step (seen earlier : list key) (k0 : key) :
  (forall k, key_in k seen = key_in k earlier) ->
  key_in k0 seen = true ->
  forall k, key_in k seen = key_in k (k0 :: earlier).
Proof.
  intros Hagree Hk0 k.
  change (key_in k (k0 :: earlier)) with (key_eqb k k0 || key_in k earlier).
  rewrite <- Hagree.
  destruct (key_eqb k k0) eqn:Ek; [|reflexivity].
  cbn [orb]. apply key_in_true in Hk0 as (s & Hs & Hks).
  apply key_in_true. exists s. split; [exact Hs|].
  eapply key_eqb_trans; eassumption.
Qed.

Lemma dedup_into_app (a b : list json) (acc : list json * list key) :
  Police.dedup_into (a ++ b) acc =
  let? acc' := Police.dedup_into a acc in Police.dedup_into b acc'.
Proof.
  revert acc. induction a as [|c a IH]; intros acc; [reflexivity|].
  cbn [Police.dedup_into app].
  destruct (Police.crime_key c) as [k|e]; cbn [bindR]; [|reflexivity].
  destruct (negb (key_in k (snd acc))); apply IH.
Qed.

Lemma merge_from_lists (children : list (list json)) (acc : list json * list key) :
  merge_from (map JList children) acc = Police.dedup_into (concat children) acc.
Proof.
  revert acc. induction children as [|c cs IH]; intros acc; [reflexivity|].
  cbn [map merge_from py_iter bindR concat]. rewrite dedup_into_app.
  destruct (Police.dedup_into c acc) as [acc'|e]; cbn [bindR]; [apply IH|reflexivity].
Qed.

Lemma map_result_length {A B} (f : A -> result B) (l : list A) (ys : list B) :
  map_result f l = Ok ys -> length ys = length l.
Proof.
  revert ys. induction l as [|x l IH]; intros ys; cbn.
  - now intros [= <-].
  - destruct (f x); cbn; [|discriminate].
    destruct (map_result f l); cbn; [|discriminate].
    intros [= <-]. cbn. f_equal. now apply IH.
Qed.

Lemma map_result_lookup {A B} (f : A -> result B) (l : list A) (ys : list B) :
  map_result f l = Ok ys ->
  forall x y, In (x, y) (combine l ys) -> f x = Ok y.
Proof.
  revert ys. induction l as [|a l IH]; intros ys; cbn.
  - intros _ x y [].
  - destruct (f a) as [b|] eqn:Ea; cbn; [|discriminate].
    destruct (map_result f l) as [bs|]; cbn; [|discriminate].
    intros [= <-] x y [[= <- <-] | Hin]; [exact Ea|].
    eapply IH; [reflexivity | exact Hin].
Qed.

(** The dedup loop computes the first-seen union. *)
Lemma dedup_into_first_seen (items : list json) :
  forall (keys seen earlier : list key) (all_crimes : list json),
  map_result Police.crime_key items = Ok keys ->
  (forall k, key_in k seen = key_in k earlier) ->
  exists seen',
    Police.dedup_into items (all_crimes, seen) =
      Ok ((all_crimes ++ first_seen earlier (combine items keys))%list, seen').
Proof.
  induction items as [|c rest IH]; intros keys seen earlier all_crimes Hkeys Hagree.
  - cbn in Hkeys. injection Hkeys as <-. exists seen. cbn. now rewrite app_nil_r.
  - cbn in Hkeys.
    destruct (Police.crime_key c) as [k|] eqn:Ek; cbn in Hkeys; [|discriminate].
    destruct (map_result Police.crime_key rest) as [ks|] eqn:Eks; cbn in Hkeys;
      [|discriminate].
    injection Hkeys as <-.
    cbn [Police.dedup_into combine first_seen fst snd]. rewrite Ek. cbn [bindR].
    rewrite <- Hagree.
    destruct (key_in k seen) eqn:Hin; cbn [negb].
    + apply (IH ks seen (k :: earlier) all_crimes eq_refl).
      now apply seen_agrees_step.
    + destruct (IH ks (k :: seen) (k :: earlier) (all_crimes ++ [c])%list eq_refl)
        as [seen' Hseen'].
      { intros k'.
        change (key_in k' (k :: seen)) with (key_eqb k' k || key_in k' seen).
        change (key_in k' (k :: earlier)) with (key_eqb k' k || key_in k' earlier).
        now rewrite Hagree. }
      exists seen'. rewrite Hseen'. now rewrite <- app_assoc.
Qed.

Lemma first_seen_not_earlier :
  forall (sub : list (json * key)) (earlier : list key),
  (forall x k, In (x, k) sub -> Police.crime_key x = Ok k) ->
  forall x kx, In x (first_seen earlier sub) -> Police.crime_key x = Ok kx ->
  key_in kx earlier = false.
Proof.
  induction sub as [|[x0 k0] rest IH]; intros earlier Hvalid x kx Hin Hkx.
  - destruct Hin.
  - assert (Hrest : forall x k, In (x, k) rest -> Police.crime_key x = Ok k)
      by (intros; apply Hvalid; now right).
    assert (Hstep : In x (first_seen (k0 :: earlier) rest) -> key_in kx earlier = false).
    { intros Hin'. specialize (IH (k0 :: earlier) Hrest x kx Hin' Hkx).
      change (key_in kx (k0 :: earlier)) with (key_eqb kx k0 || key_in kx earlier) in IH.
      now apply orb_false_iff in IH. }
    cbn [first_seen] in Hin. destruct (key_in k0 earlier) eqn:Hk0; [now apply Hstep|].
    destruct Hin as [<- | Hin]; [|now apply Hstep].
    rewrite (Hvalid x0 k0 (or_introl eq_refl)) in Hkx. now injection Hkx as <-.
Qed.

Lemma first_seen_distinct :
  forall (sub : list (json * key)) (earlier : list key),
  (forall x k, In (x, k) sub -> Police.crime_key x = Ok k) ->
  forall (i j : nat) x y kx ky,
  first_seen earlier sub !! i = Some x ->
  first_seen earlier sub !! j = Some y ->
  Police.crime_key x = Ok kx -> Police.crime_key y = Ok ky ->
  key_eqb kx ky = true -> i = j.
Proof.
  induction sub as [|[x0 k0] rest IH]; intros earlier Hvalid i j x y kx ky Hi Hj Hkx Hky Heq.
  - destruct i; discriminate.
  - assert (Hrest : forall x k, In (x, k) rest -> Police.crime_key x = Ok k)
      by (intros; apply Hvalid; now right).
    cbn [first_seen] in Hi, Hj. destruct (key_in k0 earlier) eqn:Hk0.
    { eapply (IH (k0 :: earlier)); eassumption. }
    assert (Hhead : forall z kz, In z (first_seen (k0 :: earlier) rest) ->
              Police.crime_key z = Ok kz -> key_eqb kz k0 = false).
    { intros z kz Hz Hkz.
      pose proof (first_seen_not_earlier rest (k0 :: earlier) Hrest z kz Hz Hkz) as Hn.
      change (key_in kz (k0 :: earlier)) with (key_eqb kz k0 || key_in kz earlier) in Hn.
      now apply orb_false_iff in Hn. }
    pose proof (Hvalid x0 k0 (or_introl eq_refl)) as Hx0.
    destruct i as [|i], j as [|j]; cbn in Hi, Hj.
    + reflexivity.
    + injection Hi as <-. rewrite Hx0 in Hkx. injection Hkx as <-.
      apply list_elem_of_lookup_2, list_elem_of_In in Hj.
      rewrite key_eqb_sym, (Hhead y ky Hj Hky) in Heq. discriminate.
    + injection Hj as <-. rewrite Hx0 in Hky. injection Hky as <-.
      apply list_elem_of_lookup_2, list_elem_of_In in Hi.
      rewrite (Hhead x kx Hi Hkx) in Heq. discriminate.
    + f_equal. eapply (IH (k0 :: earlier)); eassumption.
Qed.

Lemma first_seen_all_distinct (xs : list json) :
  forall (keys earlier : list key),
  length keys = length xs ->
  (forall k, In k keys -> key_in k earlier = false) ->
  distinct_keys keys = true ->
  first_seen earlier (combine xs keys) = xs.
Proof.
  induction xs as [|x xs IH]; intros keys earlier Hlen Hfresh Hdist.
  - reflexivity.
  - destruct keys as [|k keys]; [discriminate|].
    cbn [combine first_seen]. rewrite (Hfresh k (or_introl eq_refl)).
    cbn [distinct_keys] in Hdist. apply andb_true_iff in Hdist as [Hk Hdist].
    apply negb_true_iff in Hk.
    f_equal. apply IH; [now injection Hlen | | exact Hdist].
    intros k' Hk'.
    change (key_in k' (k :: earlier)) with (key_eqb k' k || key_in k' earlier).
    rewrite (Hfresh k' (or_intror Hk')), orb_false_r.
    destruct (key_eqb k' k) eqn:E; [|reflexivity].
    assert (key_in k keys = true); [|congruence].
    apply key_in_true. exists k'. split; [exact Hk'|]. now rewrite key_eqb_sym.
Qed.

(** C4: when every record has a key, merging the feature lists of the
    children, in child order, returns the first-seen union: a record is kept
    exactly when no earlier record has an equal identity key; so no two
    records of the merged list have equal keys, and when no two records of
    the children have equal keys the merged list is all of them, as many as
    the children returned together. *)
Theorem merge_results_first_seen (children : list (list json)) (keys : list key) :
  map_result Police.crime_key (concat children) = Ok keys ->
  exists merged,
    merge_results (map JList children) = Ok merged /\
    merged = first_seen [] (combine (concat children) keys) /\
    (forall (i j : nat) x y kx ky,
       merged !! i = Some x -> merged !! j = Some y ->
       Police.crime_key x = Ok kx -> Police.crime_key y = Ok ky ->
       key_eqb kx ky = true -> i = j) /\
    (distinct_keys keys = true ->
       merged = concat children /\
       length merged = list_sum (map (@length json) children)).
Proof.
  intros Hkeys.
  destruct (dedup_into_first_seen (concat children) keys [] [] [] Hkeys)
    as [seen' Hdedup]; [reflexivity|].
  exists (first_seen [] (combine (concat children) keys)).
  split; [|split; [reflexivity|split]].
  - unfold merge_results. rewrite merge_from_lists, Hdedup. reflexivity.
  - apply first_seen_distinct. apply (map_result_lookup _ _ _ Hkeys).
  - intros Hdist.
    rewrite first_seen_all_distinct;
      [ | now apply map_result_length in Hkeys | reflexivity | exact Hdist ].
    split; [reflexivity|]. apply length_concat.
Qed.

Lemma merge_results_first_seen_witness :
  exists merged,
    merge_results (map JList sample_children) = Ok merged /\
    merged = first_seen [] (combine (concat sample_children) sample_keys) /\
    (forall (i j : nat) x y kx ky,
       merged !! i = Some x -> merged !! j = Some y ->
       Police.crime_key x = Ok kx -> Police.crime_key y = Ok ky ->
       key_eqb kx ky = true -> i = j) /\
    (distinct_keys sample_keys = true ->
       merged = concat sample_children /\
       length merged = list_sum (map (@length json) sample_children)).
Proof. apply (merge_results_first_seen sample_children sample_keys). reflexivity. Defined.

(** The scenario itself: 3 + 0 + 5 + 2 incidents with different ids merge
    into ten. *)
Example merge_results_scenario :
  exists merged, merge_results (map JList sample_children) = Ok merged /\
                 length merged = 10%nat.
Proof. eexists. split; reflexivity. Qed.

(** A record returned by two children is kept once, from the first. *)
Example merge_results_overlap :
  merge_results [JList [incident 1; incident 2]; JList [incident 2; incident 3]]
  = Ok [incident 1; incident 2; incident 3].
Proof. reflexivity. Qed.

(** ** The adaptive fetcher, one frame at a time *)

Section Fetcher.
Context {G Pt : Type} `{Shapely G Pt}.

Lemma for_each_ext {A S : Type} (xs : list A) (body1 body2 : A -> S -> M S) :
  (forall x s w, body1 x s w = body2 x s w) ->
  forall s w, Police.for_each xs body1 s w = Police.for_each xs body2 s w.
Proof.
  intros Hext. induction xs as [|x xs IH]; intros s w; [reflexivity|].
  cbn [Police.for_each]. unfold bind. rewrite Hext.
  destruct (body2 x s w) as [w' [s'|e]]; [apply IH|reflexivity].
Qed.

Lemma quadrant_step_ext
    (fetch1 fetch2 : G -> string -> string -> Session -> Z -> string -> M json)
    (geom : G) (month cache_dir : string) (session : Session) (depth : Z)
    (cell_id : string) :
  (forall g sub_id w, fetch1 g month cache_dir session (depth + 1) sub_id w
                      = fetch2 g month cache_dir session (depth + 1) sub_id w) ->
  forall qs acc w,
    Police.quadrant_step fetch1 geom month cache_dir session depth cell_id qs acc w
    = Police.quadrant_step fetch2 geom month cache_dir session depth cell_id qs acc w.
Proof.
  intros Hext qs acc w. unfold Police.quadrant_step.
  destruct (is_empty (intersection geom (fst qs))); [reflexivity|].
  unfold bind. now rewrite Hext.
Qed.

(** One frame of the recursion with [S fuel] units of fuel, when [fetch] is
    what the recursive calls at [depth + 1] compute. *)
Lemma fetch_fuel_step (fuel : nat)
    (fetch : G -> string -> string -> Session -> Z -> string -> M json)
    (geom : G) (month cache_dir : string) (session : Session)
    (depth : Z) (cell_id : string) (w : world) :
  (depth < Police.MAX_GRID_DEPTH ->
   forall g sub_id w',
     Police.fetch_fuel fuel g month cache_dir session (depth + 1) sub_id w'
     = fetch g month cache_dir session (depth + 1) sub_id w') ->
  Police.fetch_fuel (S fuel) geom month cache_dir session depth cell_id w =
  let label := Police.label_of cell_id in
  let cache_path := Police.cache_file cache_dir label month in
  match Police._simplify_to_n_points geom Police.MAX_POLY_POINTS with
  | Raise e => (w, Raise e)
  | Ok coords =>
      match Police._fetch_single_poly (Police._coords_to_api_string coords)
              month cache_path session w with
      | (w1, Raise e) => (w1, Raise e)
      | (w1, Ok result) =>
          let queried := negb (Nat.eqb (length (requests w)) (length (requests w1))) in
          if negb (is_None result) then
            (framed (Frame Leaf depth label queried) w1, Ok result)
          else if Police.MAX_GRID_DEPTH <=? depth then
            (framed (Frame Leaf depth label queried) w1, Ok (JList []))
          else
            match Police.for_each (combine (Police.quadrants_of geom) Police.suffixes)
                    (Police.quadrant_step fetch geom month cache_dir session depth
                       cell_id)
                    ([], []) (framed (Frame Split depth label queried) w1) with
            | (wk, Raise e) => (wk, Raise e)
            | (wk, Ok acc) =>
                (dumped cache_path (JList (fst acc)) wk, Ok (JList (fst acc)))
            end
      end
  end.
Proof.
  intros Hchild. cbn [Police.fetch_fuel].
  cbv zeta. unfold bind at 1, lift at 1.
  destruct (Police._simplify_to_n_points geom Police.MAX_POLY_POINTS)
    as [coords|e]; [|reflexivity].
  unfold bind at 1, request_count at 1. unfold bind at 1.
  destruct (Police._fetch_single_poly _ _ _ _ w) as [w1 [res|e]]; [|reflexivity].
  unfold bind at 1, request_count at 1.
  destruct (negb (is_None res)); [reflexivity|].
  destruct (Police.MAX_GRID_DEPTH <=? depth) eqn:Hdepth; [reflexivity|].
  apply Z.leb_gt in Hdepth.
  unfold bind at 1, log_frame at 1.
  fold (framed (Frame Split depth (Police.label_of cell_id)
          (negb (Nat.eqb (length (requests w)) (length (requests w1))))) w1).
  unfold bind at 1.
  rewrite (for_each_ext _ _
             (Police.quadrant_step fetch geom month cache_dir session depth cell_id)).
  - destruct (Police.for_each _ _ _ _) as [wk [acc|e]]; reflexivity.
  - apply quadrant_step_ext. now apply Hchild.
Qed.

(** One frame of [_fetch_with_subdivision]. The recursive calls of a frame
    at [depth] are frames at [depth + 1]. *)
Lemma fetch_unfold (geom : G) (month cache_dir : string) (session : Session)
    (depth : Z) (cell_id : string) (w : world) :
  Police._fetch_with_subdivision geom month cache_dir session depth cell_id w =
  let label := Police.label_of cell_id in
  let cache_path := Police.cache_file cache_dir label month in
  match Police._simplify_to_n_points geom Police.MAX_POLY_POINTS with
  | Raise e => (w, Raise e)
  | Ok coords =>
      match Police._fetch_single_poly (Police._coords_to_api_string coords)
              month cache_path session w with
      | (w1, Raise e) => (w1, Raise e)
      | (w1, Ok result) =>
          let queried := negb (Nat.eqb (length (requests w)) (length (requests w1))) in
          if negb (is_None result) then
            (framed (Frame Leaf depth label queried) w1, Ok result)
          else if Police.MAX_GRID_DEPTH <=? depth then
            (framed (Frame Leaf depth label queried) w1, Ok (JList []))
          else
            match Police.for_each (combine (Police.quadrants_of geom) Police.suffixes)
                    (Police.quadrant_step Police._fetch_with_subdivision geom month
                       cache_dir session depth cell_id)
                    ([], []) (framed (Frame Split depth label queried) w1) with
            | (wk, Raise e) => (wk, Raise e)
            | (wk, Ok acc) =>
                (dumped cache_path (JList (fst acc)) wk, Ok (JList (fst acc)))
            end
      end
  end.
Proof.
  unfold Police._fetch_with_subdivision at 1. apply fetch_fuel_step.
  intros Hdepth g sub_id w'. unfold Police._fetch_with_subdivision.
  replace (Z.to_nat (Police.MAX_GRID_DEPTH - depth))
    with (S (Z.to_nat (Police.MAX_GRID_DEPTH - (depth + 1)))) by lia.
  reflexivity.
Qed.

(** More fuel than the levels left below a frame changes nothing. *)
Lemma fetch_fuel_enough (fuel : nat) :
  forall (geom : G) (month cache_dir : string) (session : Session) (depth : Z)
         (cell_id : string) (w : world),
  (Z.to_nat (Police.MAX_GRID_DEPTH - depth) < fuel)%nat ->
  Police.fetch_fuel fuel geom month cache_dir session depth cell_id w
  = Police._fetch_with_subdivision geom month cache_dir session depth cell_id w.
Proof.
  induction fuel as [|fuel IH]; intros geom month cache_dir session depth cell_id w Hfuel;
    [lia|].
  rewrite fetch_unfold. apply fetch_fuel_step.
  intros Hdepth g sub_id w'. apply IH. lia.
Qed.

(** Induction on the levels left below a frame. *)
Lemma depth_induction (P : Z -> Prop) :
  (forall depth, (depth < Police.MAX_GRID_DEPTH -> P (depth + 1)) -> P depth) ->
  forall depth, P depth.
Proof.
  intros Hstep depth.
  remember (Z.to_nat (Police.MAX_GRID_DEPTH - depth)) as n eqn:Hn.
  revert depth Hn. induction n as [|n IH]; intros depth Hn.
  - apply Hstep. lia.
  - apply Hstep. intros Hlt. apply IH. lia.
Qed.

End Fetcher.

(** ** Frames that do not subdivide *)

Section Leaves.
Context {G Pt : Type} `{Shapely G Pt}.
Variables (geom : G) (month cache_dir : string) (depth : Z) (cell_id : string).
Variable coords : list (float * float).
Hypothesis Hcoords : Police._simplify_to_n_points geom Police.MAX_POLY_POINTS = Ok coords.

Let label := Police.label_of cell_id.
Let cache_path := Police.cache_file cache_dir label month.
Let req := crime_request (Police._coords_to_api_string coords) month.

Lemma eqb_length_cons {A} (x : A) (l : list A) :
  Nat.eqb (length l) (length (x :: l)) = false.
Proof. apply Nat.eqb_neq. cbn. lia. Qed.

(** A cache hit with a payload other than null is returned as it is. *)
Lemma fetch_cache_hit (session : Session) (w : world) (payload : json) :
  fs w !! cache_path = Some payload -> payload <> JNull ->
  Police._fetch_with_subdivision geom month cache_dir session depth cell_id w
  = (framed (Frame Leaf depth label false) w, Ok payload).
Proof.
  intros Hhit Hnn. rewrite fetch_unfold. cbv zeta. rewrite Hcoords.
  fold label. fold cache_path.
  rewrite (fetch_single_poly_hit _ _ _ _ _ _ Hhit).
  rewrite Nat.eqb_refl. destruct payload; try reflexivity. congruence.
Qed.

(** A status 200 with a payload that has a length: written and returned. *)
Lemma fetch_direct_success (session : Session) (w : world) (payload : json) (n : Z) :
  fs w !! cache_path = None ->
  session (requests w) req = Response 200 (Some payload) ->
  py_len payload = Ok n ->
  Police._fetch_with_subdivision geom month cache_dir session depth cell_id w
  = (framed (Frame Leaf depth label true) (dumped cache_path payload (sent req w)),
     Ok payload).
Proof.
  intros Hmiss Hresp Hlen. rewrite fetch_unfold. cbv zeta. rewrite Hcoords.
  fold label. fold cache_path.
  rewrite (fetch_single_poly_miss _ _ _ _ _ Hmiss). cbv zeta. fold req.
  rewrite Hresp. cbn [Z.eqb negb Pos.eqb]. rewrite Hlen.
  cbn [requests dumped sent]. rewrite eqb_length_cons.
  destruct payload; try reflexivity. discriminate.
Qed.

(** A failure that is not a capacity failure: an empty list, one request,
    no cache write. *)
Lemma fetch_other_failure (session : Session) (w : world) :
  fs w !! cache_path = None ->
  (session (requests w) req = RequestException \/
   exists status_code body,
     session (requests w) req = Response status_code body /\
     status_code <> 200 /\ status_code <> 503) ->
  Police._fetch_with_subdivision geom month cache_dir session depth cell_id w
  = (framed (Frame Leaf depth label true) (sent req w), Ok (JList [])).
Proof.
  intros Hmiss Hfail. rewrite fetch_unfold. cbv zeta. rewrite Hcoords.
  fold label. fold cache_path.
  rewrite (fetch_single_poly_miss _ _ _ _ _ Hmiss). cbv zeta. fold req.
  destruct Hfail as [-> | (status_code & body & -> & Hn200 & Hn503)].
  - cbn [requests sent negb is_None]. now rewrite eqb_length_cons.
  - apply Z.eqb_neq in Hn200, Hn503. rewrite Hn200, Hn503.
    cbn [requests sent negb is_None]. now rewrite eqb_length_cons.
Qed.

(** A capacity failure at the depth limit: an empty list, one request, no
    recursion. *)
Lemma fetch_capacity_at_limit (session : Session) (w : world) (body : option json) :
  fs w !! cache_path = None ->
  session (requests w) req = Response 503 body ->
  Police.MAX_GRID_DEPTH <= depth ->
  Police._fetch_with_subdivision geom month cache_dir session depth cell_id w
  = (framed (Frame Leaf depth label true) (sent req w), Ok (JList [])).
Proof.
  intros Hmiss Hresp Hdepth. rewrite fetch_unfold. cbv zeta. rewrite Hcoords.
  fold label. fold cache_path.
  rewrite (fetch_single_poly_miss _ _ _ _ _ Hmiss). cbv zeta. fold req.
  rewrite Hresp. cbn [Z.eqb Pos.eqb negb is_None requests sent].
  apply Z.leb_le in Hdepth. rewrite Hdepth. now rewrite eqb_length_cons.
Qed.

End Leaves.

(** C10: a fetch that ends without subdivision, on a cache hit or on a
    status 200, returns the decoded payload as it is (and, on a 200, writes
    it to the cache as it is): records of the payload with equal identity
    keys all stay in the result. *)
Theorem direct_fetch_returns_payload_verbatim {G Pt : Type} `{Shapely G Pt}
    (geom : G) (month cache_dir : string) (session : Session) (depth : Z)
    (cell_id : string) (coords : list (float * float)) (w w' : world)
    (payload : json) (queried : bool) :
  let cache_path := Police.cache_file cache_dir (Police.label_of cell_id) month in
  let req := crime_request (Police._coords_to_api_string coords) month in
  Police._simplify_to_n_points geom Police.MAX_POLY_POINTS = Ok coords ->
  payload <> JNull ->
  (fs w !! cache_path = Some payload /\ w' = w /\ queried = false) \/
  (fs w !! cache_path = None /\
   session (requests w) req = Response 200 (Some payload) /\
   (exists n, py_len payload = Ok n) /\
   w' = dumped cache_path payload (sent req w) /\ queried = true) ->
  Police._fetch_with_subdivision geom month cache_dir session depth cell_id w
  = (framed (Frame Leaf depth (Police.label_of cell_id) queried) w', Ok payload).
Proof.
  intros cache_path req Hcoords Hnn
    [(Hhit & -> & ->) | (Hmiss & Hresp & [n Hlen] & -> & ->)].
  - now apply fetch_cache_hit with (coords := coords).
  - now apply fetch_direct_success with (n := n).
Qed.

Lemma direct_fetch_returns_payload_verbatim_witness :
  Police._fetch_with_subdivision region "2024-01" "cache" duplicating_session 0 ""
    Boxes.world0
  = (framed (Frame Leaf 0 "full" true)
       (dumped "cache/full_2024-01.json" duplicated_payload
          (sent (crime_request (Police._coords_to_api_string region_ring) "2024-01")
             Boxes.world0)),
     Ok (JList [incident 1; incident 1; incident 2])).
Proof.
  apply (direct_fetch_returns_payload_verbatim region "2024-01" "cache"
           duplicating_session 0 "" region_ring Boxes.world0).
  - reflexivity.
  - discriminate.
  - right. repeat split. exists 3. reflexivity.
Defined.

(** The same payload read back from the cache keeps its duplicate, while the
    merge after a subdivision drops it. *)
Example cached_payload_keeps_duplicates :
  snd (Police._fetch_with_subdivision region "2024-01" "cache" failing_session 0 ""
         (dumped "cache/full_2024-01.json" duplicated_payload Boxes.world0))
  = Ok (JList [incident 1; incident 1; incident 2]).
Proof. reflexivity. Qed.

Example merged_payload_drops_duplicates :
  merge_results [duplicated_payload] = Ok [incident 1; incident 2].
Proof. reflexivity. Qed.

(** C6 (as the code has it): a sub-region whose query fails with a network
    error or with a status other than 200 and 503 yields the empty list,
    after exactly one request and without a cache write or an exception; and
    in the loop of the parent the step for that sub-region leaves the
    accumulated results of its siblings as they are, so the loop goes on
    with the next quadrant. *)
Theorem failed_query_yields_empty_result {G Pt : Type} `{Shapely G Pt}
    (geom : G) (month cache_dir : string) (session : Session)
    (cell_id : string) (coords : list (float * float)) (w : world) :
  let label := Police.label_of cell_id in
  let req := crime_request (Police._coords_to_api_string coords) month in
  Police._simplify_to_n_points geom Police.MAX_POLY_POINTS = Ok coords ->
  fs w !! Police.cache_file cache_dir label month = None ->
  (session (requests w) req = RequestException \/
   exists status_code body,
     session (requests w) req = Response status_code body /\
     status_code <> 200 /\ status_code <> 503) ->
  (forall depth,
     Police._fetch_with_subdivision geom month cache_dir session depth cell_id w
     = (framed (Frame Leaf depth label true) (sent req w), Ok (JList []))) /\
  (forall (parent : G) (parent_depth : Z) (parent_id : string) (quad : G)
          (suffix : string) (acc : list json * list key),
     intersection parent quad = geom -> is_empty geom = false ->
     Police.sub_id_of parent_id suffix = cell_id ->
     Police.quadrant_step Police._fetch_with_subdivision parent month cache_dir
       session parent_depth parent_id (quad, suffix) acc w
     = (framed (Frame Leaf (parent_depth + 1) label true) (sent req w), Ok acc)).
Proof.
  intros label req Hcoords Hmiss Hfail.
  assert (Hleaf : forall depth,
     Police._fetch_with_subdivision geom month cache_dir session depth cell_id w
     = (framed (Frame Leaf depth label true) (sent req w), Ok (JList []))).
  { intros depth. now apply fetch_other_failure. }
  split; [exact Hleaf|].
  intros parent parent_depth parent_id quad suffix acc Hclip Hne Hid.
  unfold Police.quadrant_step. cbn [fst snd]. rewrite Hclip, Hne, Hid.
  unfold bind. rewrite Hleaf. reflexivity.
Qed.

Lemma failed_query_yields_empty_result_witness :
  (forall depth,
     Police._fetch_with_subdivision region_NW "2024-01" "cache" failing_session depth
       "NW" Boxes.world0
     = (framed (Frame Leaf depth "NW" true)
          (sent (crime_request (Police._coords_to_api_string region_NW_ring) "2024-01")
             Boxes.world0),
        Ok (JList []))) /\
  (forall (parent : Boxes.geom) (parent_depth : Z) (parent_id : string)
          (quad : Boxes.geom) (suffix : string) (acc : list json * list key),
     intersection parent quad = region_NW -> is_empty region_NW = false ->
     Police.sub_id_of parent_id suffix = "NW" ->
     Police.quadrant_step Police._fetch_with_subdivision parent "2024-01" "cache"
       failing_session parent_depth parent_id (quad, suffix) acc Boxes.world0
     = (framed (Frame Leaf (parent_depth + 1) "NW" true)
          (sent (crime_request (Police._coords_to_api_string region_NW_ring) "2024-01")
             Boxes.world0),
        Ok acc)).
Proof.
  apply (failed_query_yields_empty_result region_NW "2024-01" "cache" failing_session
           "NW" region_NW_ring Boxes.world0).
  - reflexivity.
  - reflexivity.
  - right. exists 500, None. repeat split; discriminate.
Defined.

(** In the scenario with a failing north-west quadrant the fetch returns
    what the three other quadrants gave. *)
Example failing_quadrant_keeps_siblings :
  snd (Police._fetch_with_subdivision region "2024-01" "cache" partial_session 0 ""
         Boxes.world0)
  = Ok (JList [incident 4; incident 5; incident 6; incident 7; incident 8;
               incident 9; incident 10]).
Proof. vm_compute. reflexivity. Qed.

(** C6 (as stated) fails: not every requested cell yields a result. The
    only [try] of utils_police.py is around the request itself, and the
    callers of [fetch_borough_month] have no handler. When the endpoint
    answers a borough and month with the status 200 and a body that does not
    decode, [resp.json()] raises after that one request and nothing is
    cached; and for a borough whose geometry has no exterior ring, as a
    multi-part borough has none, the fetch raises before any request, on an
    endpoint that would have answered. *)
Lemma undecodable_answer_escapes_fetch :
  snd (Police.fetch_borough_month "Camden" region "2024-01" "cache"
         undecodable_session Boxes.world0)
  = Raise JSONDecodeError /\
  requests (fst (Police.fetch_borough_month "Camden" region "2024-01" "cache"
                   undecodable_session Boxes.world0))
  = [crime_request (Police._coords_to_api_string region_ring) "2024-01"] /\
  writes (fst (Police.fetch_borough_month "Camden" region "2024-01" "cache"
                 undecodable_session Boxes.world0))
  = [] /\
  Police.fetch_borough_month "Camden" (Boxes.Degenerate 0 0 0 2) "2024-01" "cache"
    duplicating_session Boxes.world0
  = (Boxes.world0, Raise AttributeError).
Proof. repeat split. Qed.

(** ** Fetching twice *)

Section Idempotence.
Context {G Pt : Type} `{Shapely G Pt}.
Variables (geom : G) (month cache_dir : string) (depth : Z) (cell_id : string).

Let cache_path := Police.cache_file cache_dir (Police.label_of cell_id) month.

Lemma lookup_framed f w path : fs (framed f w) !! path = fs w !! path.
Proof. reflexivity. Qed.

Lemma lookup_sent r w path : fs (sent r w) !! path = fs w !! path.
Proof. reflexivity. Qed.

Lemma lookup_dumped_eq path v w : fs (dumped path v w) !! path = Some v.
Proof. cbn. apply lookup_insert_eq. Qed.

Lemma lookup_dumped_ne path path' v w :
  path <> path' -> fs (dumped path v w) !! path' = fs w !! path'.
Proof. intros Hne. cbn. now apply lookup_insert_ne. Qed.

(** After a fetch that returned, a cache entry of the fetched key that is
    not null holds the value returned. *)
Lemma fetch_entry_is_result (session : Session) (w0 w1 : world) (r v : json) :
  Police._fetch_with_subdivision geom month cache_dir session depth cell_id w0
    = (w1, Ok r) ->
  fs w1 !! cache_path = Some v -> v <> JNull ->
  v = r /\ exists coords,
    Police._simplify_to_n_points geom Police.MAX_POLY_POINTS = Ok coords.
Proof.
  rewrite fetch_unfold. cbv zeta. fold cache_path.
  destruct (Police._simplify_to_n_points geom Police.MAX_POLY_POINTS)
    as [coords|e]; [|discriminate].
  intros Hrun Hentry Hnn. split; [|eauto].
  destruct (fs w0 !! cache_path) as [v0|] eqn:Hw0.
  - rewrite (fetch_single_poly_hit _ _ _ _ _ _ Hw0) in Hrun.
    destruct (negb (is_None v0)) eqn:Hv0.
    + injection Hrun as <- <-. rewrite lookup_framed, Hw0 in Hentry. congruence.
    + destruct v0; try discriminate.
      destruct (Police.MAX_GRID_DEPTH <=? depth).
      * injection Hrun as <- <-. rewrite lookup_framed, Hw0 in Hentry. congruence.
      * destruct (Police.for_each _ _ _ _) as [wk [acc|e]]; [|discriminate].
        injection Hrun as <- <-. rewrite lookup_dumped_eq in Hentry. congruence.
  - rewrite (fetch_single_poly_miss _ _ _ _ _ Hw0) in Hrun. cbv zeta in Hrun.
    destruct (session _ _) as [|status_code body].
    { cbn [negb is_None] in Hrun. injection Hrun as <- <-.
      rewrite lookup_framed, lookup_sent, Hw0 in Hentry. discriminate. }
    destruct (status_code =? 503).
    { cbn [negb is_None] in Hrun.
      destruct (Police.MAX_GRID_DEPTH <=? depth).
      - injection Hrun as <- <-.
        rewrite lookup_framed, lookup_sent, Hw0 in Hentry. discriminate.
      - destruct (Police.for_each _ _ _ _) as [wk [acc|e]]; [|discriminate].
        injection Hrun as <- <-. rewrite lookup_dumped_eq in Hentry. congruence. }
    destruct (negb (status_code =? 200)).
    { cbn [negb is_None] in Hrun. injection Hrun as <- <-.
      rewrite lookup_framed, lookup_sent, Hw0 in Hentry. discriminate. }
    destruct body as [crimes|]; [|discriminate].
    destruct (py_len crimes) eqn:Hlen; [|discriminate].
    destruct crimes; try discriminate; cbn [negb is_None] in Hrun;
      injection Hrun as <- <-;
      rewrite lookup_framed, lookup_dumped_eq in Hentry; congruence.
Qed.

End Idempotence.

(** C3 (as the code has it): when the first fetch returns and leaves a cache
    entry other than null for its (label, month) key, which a cache hit, a
    status 200 and a completed subdivision do, a second fetch of the same
    region and month from that state, whatever the network would answer,
    returns the same result, makes no network call and leaves the cache as
    it is: the cache hit ends the fetch. *)
Theorem second_fetch_served_from_cache {G Pt : Type} `{Shapely G Pt}
    (geom : G) (month cache_dir : string) (session session' : Session)
    (depth : Z) (cell_id : string) (w0 w1 : world) (r v : json) :
  Police._fetch_with_subdivision geom month cache_dir session depth cell_id w0
    = (w1, Ok r) ->
  fs w1 !! Police.cache_file cache_dir (Police.label_of cell_id) month = Some v ->
  v <> JNull ->
  Police._fetch_with_subdivision geom month cache_dir session' depth cell_id w1
  = (framed (Frame Leaf depth (Police.label_of cell_id) false) w1, Ok r).
Proof.
  intros Hfirst Hentry Hnn.
  destruct (fetch_entry_is_result _ _ _ _ _ _ _ _ _ _ Hfirst Hentry Hnn)
    as [-> [coords Hcoords]].
  now apply fetch_cache_hit with (coords := coords).
Qed.

Lemma second_fetch_served_from_cache_witness :
  Police._fetch_with_subdivision region "2024-01" "cache" failing_session 0 ""
    (fst scenario_run)
  = (framed (Frame Leaf 0 "full" false) (fst scenario_run),
     Ok (JList (concat sample_children))).
Proof.
  apply (second_fetch_served_from_cache region "2024-01" "cache" scenario_session
           failing_session 0 "" Boxes.world0 (fst scenario_run)
           (JList (concat sample_children)) (JList (concat sample_children))).
  - vm_compute. reflexivity.
  - vm_compute. reflexivity.
  - discriminate.
Defined.

(** C3 (as stated) fails: after a first fetch that the endpoint failed
    (status 500) nothing is cached, and the second fetch from the state the
    first one left goes to the network again. *)
Lemma second_fetch_after_failure_queries_again :
  snd failed_run = Ok (JList []) /\
  fs (fst failed_run) = ∅ /\
  length (requests (fst failed_run)) = 1%nat /\
  length (requests (fst (Police._fetch_with_subdivision region "2024-01" "cache"
                           failing_session 0 "" (fst failed_run)))) = 2%nat.
Proof. repeat split. Qed.

(** ** The subdivision step *)

Section SubdivisionStep.
Context {G Pt : Type} `{Shapely G Pt}.
Variables (month cache_dir : string) (session : Session) (depth : Z)
  (cell_id : string).


Lemma surviving_pieces_quadrants (geom : G) :
  surviving_pieces geom =
  List.filter (fun piece => negb (is_empty (fst piece)))
    (map (fun qs => (intersection geom (fst qs), snd qs))
       (combine (Police.quadrants_of geom) Police.suffixes)).
Proof.
  unfold surviving_pieces, Police.quadrants_of.
  destruct (bounds geom) as [[[minx miny] maxx] maxy]. reflexivity.
Qed.

End SubdivisionStep.

Lemma sub_id_of_extended (cell_id suffix : string) :
  Police.sub_id_of cell_id suffix = extended_label cell_id suffix.
Proof.
  unfold Police.sub_id_of, Police.label_of, extended_label.
  now destruct (String.eqb cell_id "").
Qed.

Section SubdivisionOutcomes.
Context {G Pt : Type} `{Shapely G Pt}.
Variables (month cache_dir : string) (session : Session) (depth : Z)
  (cell_id : string).

(** The loop over the quadrants is the run of the surviving pieces: it ends
    with the merged results, or where the first fetch or merge raises. *)
Lemma for_each_quadrants_pieces (geom : G) (quads : list (G * string)) :
  forall (acc : list json * list key) (w : world),
  exists (wk : world) (out : result (list json * list key)),
    pieces_run month cache_dir session depth cell_id
      (List.filter (fun piece => negb (is_empty (fst piece)))
         (map (fun qs => (intersection geom (fst qs), snd qs)) quads))
      acc w wk out /\
    Police.for_each quads
      (Police.quadrant_step Police._fetch_with_subdivision geom month cache_dir
         session depth cell_id) acc w
    = (wk, out).
Proof.
  induction quads as [|[quad suffix] quads IH]; intros acc w.
  - exists w, (Ok acc). split; [constructor | reflexivity].
  - cbn [Police.for_each map List.filter fst snd].
    unfold bind at 1, Police.quadrant_step at 1. cbn [fst snd].
    destruct (is_empty (intersection geom quad)) eqn:Hempty; cbn [negb].
    + cbn [ret]. apply IH.
    + rewrite sub_id_of_extended. unfold bind at 1.
      destruct (Police._fetch_with_subdivision (intersection geom quad) month
                  cache_dir session (depth + 1) (extended_label cell_id suffix) w)
        as [w1 [r|e]] eqn:Hchild.
      2: { exists w1, (Raise e). split; [now apply pieces_fetch_raised | reflexivity]. }
      unfold bind at 1, lift at 1.
      destruct (py_iter r) as [items|e] eqn:Hiter.
      2: { exists w1, (Raise e). split; [|reflexivity].
           apply pieces_merge_raised with (r := r); [exact Hchild|].
           cbn [merge_from]. now rewrite Hiter. }
      unfold lift.
      destruct (Police.dedup_into items acc) as [acc1|e] eqn:Hdedup.
      2: { exists w1, (Raise e). split; [|reflexivity].
           apply pieces_merge_raised with (r := r); [exact Hchild|].
           cbn [merge_from]. rewrite Hiter. cbn [bindR]. now rewrite Hdedup. }
      destruct (IH acc1 w1) as (wk & out & Hrun & Hloop).
      exists wk, out. split; [|exact Hloop].
      apply pieces_merged with (acc1 := acc1) (w1 := w1) (r := r);
        [exact Hchild | | exact Hrun].
      cbn [merge_from]. rewrite Hiter. cbn [bindR]. now rewrite Hdedup.
Qed.

End SubdivisionOutcomes.

(** C1 (as the code has it): when the endpoint answers the query of a
    region with the status 503 and the depth is below [MAX_GRID_DEPTH], the
    fetch cuts the bounding box at its midpoints into the four quadrant
    boxes, intersects each with the region and drops the empty
    intersections; the surviving pieces are fetched in the order NW, NE, SW,
    SE at [depth + 1], each under the label of the region extended by the
    suffix (the bare suffix at the root), and merged. When every piece
    returns and merges, the merged list is the result and is written under
    the (label, month) key of the region itself, the label of the root
    being "full". When the fetch of a piece or a merge raises, the fetch of
    the region raises the same exception from the world that this piece
    left: no later piece is fetched and nothing is written under the key of
    the region. Nothing else touches the world, so a quadrant with an empty
    intersection is neither queried nor cached. *)
Theorem capacity_exceeded_subdivides {G Pt : Type} `{Shapely G Pt}
    (geom : G) (month cache_dir : string) (session : Session) (depth : Z)
    (cell_id : string) (coords : list (float * float)) (body : option json)
    (w : world) :
  let label := if String.eqb cell_id "" then "full" else cell_id in
  let cache_path := cache_dir +:+ "/" +:+ label +:+ "_" +:+ month +:+ ".json" in
  let req := crime_request (Police._coords_to_api_string coords) month in
  Police._simplify_to_n_points geom Police.MAX_POLY_POINTS = Ok coords ->
  fs w !! cache_path = None ->
  session (requests w) req = Response 503 body ->
  depth < Police.MAX_GRID_DEPTH ->
  exists (wk : world) (out : result (list json * list key)),
    pieces_run month cache_dir session depth cell_id (surviving_pieces geom)
      ([], []) (framed (Frame Split depth label true) (sent req w)) wk out /\
    Police._fetch_with_subdivision geom month cache_dir session depth cell_id w
    = match out with
      | Ok acc => (dumped cache_path (JList (fst acc)) wk, Ok (JList (fst acc)))
      | Raise e => (wk, Raise e)
      end.
Proof.
  intros label cache_path req Hcoords Hmiss Hresp Hdepth.
  change label with (Police.label_of cell_id) in *.
  change cache_path
    with (Police.cache_file cache_dir (Police.label_of cell_id) month) in *.
  destruct (for_each_quadrants_pieces month cache_dir session depth cell_id geom
              (combine (Police.quadrants_of geom) Police.suffixes) ([], [])
              (framed (Frame Split depth (Police.label_of cell_id) true) (sent req w)))
    as (wk & out & Hrun & Hloop).
  rewrite <- surviving_pieces_quadrants in Hrun.
  exists wk, out. split; [exact Hrun|].
  rewrite fetch_unfold. cbv zeta. rewrite Hcoords.
  rewrite (fetch_single_poly_miss _ _ _ _ _ Hmiss). cbv zeta. fold req.
  rewrite Hresp. cbn [Z.eqb Pos.eqb negb is_None requests sent].
  apply Z.leb_gt in Hdepth. rewrite Hdepth. rewrite eqb_length_cons.
  cbn [negb]. fold (sent req w). rewrite Hloop.
  now destruct out.
Qed.

Lemma capacity_exceeded_subdivides_witness :
  (exists (wk : world) (out : result (list json * list key)),
     pieces_run "2024-01" "cache" nested_session 1 "NW" (surviving_pieces region_NW)
       ([], [])
       (framed (Frame Split 1 "NW" true)
          (sent (crime_request (Police._coords_to_api_string region_NW_ring) "2024-01")
             Boxes.world0))
       wk out /\
     nested_run
     = match out with
       | Ok acc =>
           (dumped "cache/NW_2024-01.json" (JList (fst acc)) wk, Ok (JList (fst acc)))
       | Raise e => (wk, Raise e)
       end) /\
  snd nested_run = Ok (JList [incident 1; incident 2; incident 3; incident 4]) /\
  fs (fst nested_run) !! "cache/NW_NW_2024-01.json" = Some (JList [incident 1]) /\
  fs (fst nested_run) !! "cache/NW_NE_2024-01.json" = Some (JList [incident 2]) /\
  fs (fst nested_run) !! "cache/NW_SW_2024-01.json" = Some (JList [incident 3]) /\
  fs (fst nested_run) !! "cache/NW_SE_2024-01.json" = Some (JList [incident 4]) /\
  fs (fst nested_run) !! "cache/NW_2024-01.json"
  = Some (JList [incident 1; incident 2; incident 3; incident 4]) /\
  length (requests (fst nested_run)) = 5%nat.
Proof.
  split; [|repeat split].
  apply (capacity_exceeded_subdivides region_NW "2024-01" "cache" nested_session 1
           "NW" region_NW_ring None Boxes.world0).
  - reflexivity.
  - reflexivity.
  - reflexivity.
  - reflexivity.
Defined.

(** C1 (as stated) fails for a region one of whose pieces raises. The
    endpoint finds the region too large, at depth 0, and answers the query
    of the first piece with a body that does not decode: the fetch of the
    region raises, after two requests; of the four surviving pieces only
    the first was fetched, nothing was merged, and nothing was written under
    the key of the region. *)
Lemma subdivision_aborted_by_raising_piece :
  aborting_session [] (crime_request (ring_string region) "2024-01")
    = Response 503 None /\
  0 < Police.MAX_GRID_DEPTH /\
  length (surviving_pieces region) = 4%nat /\
  snd aborted_run = Raise JSONDecodeError /\
  length (requests (fst aborted_run)) = 2%nat /\
  fs (fst aborted_run) !! "cache/full_2024-01.json" = None /\
  writes (fst aborted_run) = [].
Proof. repeat split. Qed.

(** The scenario of the spec, at the root: the four quadrants return 3, 0,
    5 and 2 incidents, and their union is written under the label "full"
    after five requests. *)
Example root_scenario_subdivides :
  snd scenario_run = Ok (JList (concat sample_children)) /\
  fs (fst scenario_run) !! "cache/full_2024-01.json"
  = Some (JList (concat sample_children)) /\
  fs (fst scenario_run) !! "cache/NW_2024-01.json"
  = Some (JList [incident 1; incident 2; incident 3]) /\
  length (requests (fst scenario_run)) = 5%nat.
Proof. repeat split. Qed.

(** ** The depth bound *)

Lemma grows_refl lo hi w : grows lo hi 0 0 w w.
Proof. exists [], []. repeat split; auto. Qed.

Lemma grows_trans lo hi n1 m1 n2 m2 w1 w2 w3 :
  grows lo hi n1 m1 w1 w2 -> grows lo hi n2 m2 w2 w3 ->
  grows lo hi (n1 + n2) (m1 + m2) w1 w3.
Proof.
  intros (fr1 & rq1 & Hf1 & Hr1 & Hd1 & Hl1 & Hq1)
         (fr2 & rq2 & Hf2 & Hr2 & Hd2 & Hl2 & Hq2).
  exists (fr2 ++ fr1)%list, (rq2 ++ rq1)%list.
  rewrite Hf2, Hf1, Hr2, Hr1, <- !app_assoc.
  repeat split; [now apply Forall_app | |].
  - unfold count_leaves in *. rewrite List.filter_app, length_app. lia.
  - rewrite length_app. lia.
Qed.

Lemma grows_weaken lo hi lo' hi' n m n' m' w w' :
  grows lo hi n m w w' -> lo' <= lo -> hi <= hi' -> (n <= n')%nat -> (m <= m')%nat ->
  grows lo' hi' n' m' w w'.
Proof.
  intros (fr & rq & Hf & Hr & Hd & Hl & Hq) Hlo Hhi Hn Hm.
  exists fr, rq. repeat split; try assumption; try lia.
  eapply Forall_impl; [exact Hd|]. cbn. intros f [? ?]. split; [lia | assumption].
Qed.

Lemma grows_same lo hi n m w : grows lo hi n m w w.
Proof. exists [], []. repeat split; auto; cbn; lia. Qed.

Lemma grows_eq lo hi n m w w' :
  frames w' = frames w -> requests w' = requests w -> grows lo hi n m w w'.
Proof.
  intros Hf Hr. exists [], []. rewrite Hf, Hr. repeat split; auto; cbn; lia.
Qed.

Lemma grows_framed_leaf depth label queried w :
  grows depth depth 1 0 w (framed (Frame Leaf depth label queried) w).
Proof.
  exists [Frame Leaf depth label queried], []. repeat split; cbn; auto.
  constructor; [|constructor]. cbn. split; [lia | discriminate].
Qed.

Lemma grows_framed_split depth label queried w :
  depth < Police.MAX_GRID_DEPTH ->
  grows depth depth 0 0 w (framed (Frame Split depth label queried) w).
Proof.
  intros Hlt. exists [Frame Split depth label queried], []. repeat split; cbn; auto.
  constructor; [|constructor]. cbn. split; [lia | auto].
Qed.

Lemma grows_sent lo hi r w : grows lo hi 0 1 w (sent r w).
Proof. exists [], [r]. repeat split; cbn; auto. Qed.

(** The direct query makes at most one request and records no frame. *)
Lemma fetch_single_poly_grows lo hi poly_str month cache_path session w :
  grows lo hi 0 1 w
    (fst (Police._fetch_single_poly poly_str month cache_path session w)).
Proof.
  destruct (fs w !! cache_path) as [v|] eqn:Hw.
  - rewrite (fetch_single_poly_hit _ _ _ _ _ _ Hw). cbn [fst].
    apply grows_same.
  - rewrite (fetch_single_poly_miss _ _ _ _ _ Hw). cbv zeta.
    assert (Hd : forall v, grows lo hi 0 1 w
              (dumped cache_path v (sent (crime_request poly_str month) w))).
    { intros v. exists [], [crime_request poly_str month]. repeat split; cbn; auto. }
    destruct (session _ _) as [|status_code body]; [apply grows_sent|].
    destruct (status_code =? 503); [apply grows_sent|].
    destruct (negb (status_code =? 200)); [apply grows_sent|].
    destruct body as [crimes|]; [|apply grows_sent].
    destruct (py_len crimes); apply Hd.
Qed.

Lemma pow4_pos k : (1 <= 4 ^ k)%nat.
Proof. induction k; cbn; lia. Qed.

Lemma max_requests_pos k : (1 <= max_requests k)%nat.
Proof. destruct k; cbn; lia. Qed.

Lemma leaf_queries_le_leaves fr : (leaf_queries fr <= count_leaves fr)%nat.
Proof.
  unfold leaf_queries, count_leaves. induction fr as [|f fr IH]; cbn; [lia|].
  destruct (is_leaf f); cbn; [|exact IH].
  destruct (f_queried f); cbn; lia.
Qed.

Section DepthBound.
Context {G Pt : Type} `{Shapely G Pt}.
Variables (month cache_dir : string) (session : Session).

Lemma for_each_grows {A St : Type} lo hi n m (body : A -> St -> M St) (xs : list A) :
  (forall x s w, grows lo hi n m w (fst (body x s w))) ->
  forall s w,
    grows lo hi (length xs * n) (length xs * m) w
      (fst (Police.for_each xs body s w)).
Proof.
  intros Hbody. induction xs as [|x xs IH]; intros s w.
  - cbn. apply grows_refl.
  - cbn [Police.for_each length]. unfold bind.
    pose proof (Hbody x s w) as Hx.
    destruct (body x s w) as [w1 [s1|e]]; cbn [fst] in Hx.
    + replace (S (length xs) * n)%nat with (n + length xs * n)%nat by lia.
      replace (S (length xs) * m)%nat with (m + length xs * m)%nat by lia.
      eapply grows_trans; [exact Hx | apply IH].
    + cbn [fst]. eapply grows_weaken; [exact Hx | lia..].
Qed.

Lemma length_quadrants (geom : G) :
  length (combine (Police.quadrants_of geom) Police.suffixes) = 4%nat.
Proof.
  unfold Police.quadrants_of.
  destruct (bounds geom) as [[[minx miny] maxx] maxy]. reflexivity.
Qed.

(** What one fetch adds to the world, by the levels left below its depth. *)
Lemma fetch_grows (depth : Z) :
  forall (geom : G) (cell_id : string) (w : world),
  grows depth (Z.max depth Police.MAX_GRID_DEPTH)
    (4 ^ Z.to_nat (Police.MAX_GRID_DEPTH - depth))
    (max_requests (Z.to_nat (Police.MAX_GRID_DEPTH - depth)))
    w (fst (Police._fetch_with_subdivision geom month cache_dir session depth
              cell_id w)).
Proof.
  induction depth as [depth IH] using depth_induction.
  intros geom cell_id w. rewrite fetch_unfold. cbv zeta.
  set (k := Z.to_nat (Police.MAX_GRID_DEPTH - depth)).
  pose proof (pow4_pos k) as Hpow. pose proof (max_requests_pos k) as Hreq.
  destruct (Police._simplify_to_n_points geom Police.MAX_POLY_POINTS)
    as [coords|e]; cbn [fst].
  2: { apply grows_same. }
  pose proof (fetch_single_poly_grows depth depth
                (Police._coords_to_api_string coords) month
                (Police.cache_file cache_dir (Police.label_of cell_id) month)
                session w) as Hsingle.
  destruct (Police._fetch_single_poly _ _ _ _ w) as [w1 [res|e]];
    cbn [fst] in Hsingle |- *.
  2: { eapply grows_weaken; [exact Hsingle | lia..]. }
  assert (Hleaf : forall queried r,
            grows depth (Z.max depth Police.MAX_GRID_DEPTH) (4 ^ k) (max_requests k) w
              (fst (framed (Frame Leaf depth (Police.label_of cell_id) queried) w1,
                    r : result json))).
  { intros queried r. cbn [fst].
    eapply grows_weaken;
      [eapply grows_trans; [exact Hsingle | apply grows_framed_leaf] | lia..]. }
  destruct (negb (is_None res)); [apply Hleaf|].
  destruct (Police.MAX_GRID_DEPTH <=? depth) eqn:Hdepth; [apply Hleaf|].
  apply Z.leb_gt in Hdepth. specialize (IH Hdepth).
  assert (Hk : k = S (Z.to_nat (Police.MAX_GRID_DEPTH - (depth + 1)))) by (unfold k; lia).
  set (k' := Z.to_nat (Police.MAX_GRID_DEPTH - (depth + 1))) in *.
  lazymatch goal with
  | |- context [Police.for_each ?xs ?body ?s ?w2] =>
      pose proof (for_each_grows (depth + 1) Police.MAX_GRID_DEPTH
                    (4 ^ k') (max_requests k') body xs) as Hloop;
      rewrite length_quadrants in Hloop;
      set (loop := Police.for_each xs body s w2)
  end.
  assert (Hchildren : grows (depth + 1) Police.MAX_GRID_DEPTH
            (4 * 4 ^ k') (4 * max_requests k')
            (framed (Frame Split depth (Police.label_of cell_id)
               (negb (Nat.eqb (length (requests w)) (length (requests w1))))) w1)
            (fst loop)).
  { subst loop. apply Hloop.
    intros [quad suffix] acc w0. unfold Police.quadrant_step. cbn [fst snd].
    destruct (is_empty (intersection geom quad)).
    - cbn [ret fst]. apply grows_same.
    - unfold bind at 1.
      pose proof (IH (intersection geom quad) (Police.sub_id_of cell_id suffix) w0) as Hc.
      rewrite Z.max_r in Hc by lia.
      destruct (Police._fetch_with_subdivision _ _ _ _ _ _ w0) as [w2 [crimes|e]];
        cbn [fst] in Hc |- *; [|exact Hc].
      unfold bind, lift. destruct (py_iter crimes) as [items|e]; cbn [fst]; [|exact Hc].
      destruct (Police.dedup_into items acc); exact Hc. }
  assert (Hall : grows depth (Z.max depth Police.MAX_GRID_DEPTH) (4 ^ k) (max_requests k)
            w (fst loop)).
  { rewrite Hk. cbn [Nat.pow max_requests].
    set (hi := Z.max depth Police.MAX_GRID_DEPTH).
    assert (H1 : grows depth hi 0 1 w w1)
      by (eapply grows_weaken; [exact Hsingle | unfold hi; lia..]).
    assert (H2 : grows depth hi 0 0 w1
              (framed (Frame Split depth (Police.label_of cell_id)
                 (negb (Nat.eqb (length (requests w)) (length (requests w1))))) w1))
      by (eapply grows_weaken; [now apply grows_framed_split | unfold hi; lia..]).
    assert (H3 : grows depth hi (4 * 4 ^ k') (4 * max_requests k')
              (framed (Frame Split depth (Police.label_of cell_id)
                 (negb (Nat.eqb (length (requests w)) (length (requests w1))))) w1)
              (fst loop))
      by (eapply grows_weaken; [exact Hchildren | unfold hi; lia..]).
    eapply grows_weaken;
      [ exact (grows_trans _ _ _ _ _ _ _ _ _
                 (grows_trans _ _ _ _ _ _ _ _ _ H1 H2) H3)
      | lia.. ]. }
  destruct loop as [wk [acc|e]]; cbn [fst] in Hall |- *; [|exact Hall].
  destruct Hall as (fr & rq & Hf & Hr & Hrest). exists fr, rq. now split.
Qed.

End DepthBound.

(** C2: a capacity failure at a depth of [MAX_GRID_DEPTH] or more gives the
    empty list after its one request, without recursing; and whatever the
    polygon and the endpoint, the frames of one top-level fetch lie at
    depths from 0 to [MAX_GRID_DEPTH], only frames below that depth
    subdivide, at most [4 ^ MAX_GRID_DEPTH] leaf queries are made, and at
    most [(4 ^ (MAX_GRID_DEPTH + 1) - 1) / 3] requests in all. *)
Theorem subdivision_depth_bounded {G Pt : Type} `{Shapely G Pt}
    (borough_name : string) (geom : G) (month cache_dir : string)
    (session : Session) (w : world) :
  (forall (depth : Z) (cell_id : string) (coords : list (float * float))
          (body : option json),
     Police._simplify_to_n_points geom Police.MAX_POLY_POINTS = Ok coords ->
     fs w !! Police.cache_file cache_dir (Police.label_of cell_id) month = None ->
     session (requests w) (crime_request (Police._coords_to_api_string coords) month)
       = Response 503 body ->
     Police.MAX_GRID_DEPTH <= depth ->
     Police._fetch_with_subdivision geom month cache_dir session depth cell_id w
     = (framed (Frame Leaf depth (Police.label_of cell_id) true)
          (sent (crime_request (Police._coords_to_api_string coords) month) w),
        Ok (JList []))) /\
  (exists (new_frames : list frame) (new_requests : list request),
     let w' := fst (Police.fetch_borough_month borough_name geom month cache_dir
                      session w) in
     frames w' = (new_frames ++ frames w)%list /\
     requests w' = (new_requests ++ requests w)%list /\
     Forall (fun f => 0 <= f_depth f <= Police.MAX_GRID_DEPTH /\
                      (f_kind f = Split -> f_depth f < Police.MAX_GRID_DEPTH))
       new_frames /\
     (leaf_queries new_frames <= 4 ^ Z.to_nat Police.MAX_GRID_DEPTH)%nat /\
     (length new_requests <= max_requests (Z.to_nat Police.MAX_GRID_DEPTH))%nat).
Proof.
  split.
  - intros depth cell_id coords body Hcoords Hmiss Hresp Hdepth.
    now apply fetch_capacity_at_limit with (body := body).
  - unfold Police.fetch_borough_month.
    destruct (fetch_grows month (path_join cache_dir (replace_spaces borough_name))
                session 0 geom "" w)
      as (fr & rq & Hf & Hr & Hd & Hl & Hq).
    rewrite Z.sub_0_r in Hl, Hq.
    change (Z.max 0 Police.MAX_GRID_DEPTH) with Police.MAX_GRID_DEPTH in Hd.
    pose proof (leaf_queries_le_leaves fr) as Hlq.
    exists fr, rq. cbv zeta. repeat split; try assumption. lia.
Qed.

Lemma subdivision_depth_bounded_witness :
  Police._fetch_with_subdivision region_NW "2024-01" "cache" overloaded_session 2
    "NW_NW" Boxes.world0
  = (framed (Frame Leaf 2 "NW_NW" true)
       (sent (crime_request (Police._coords_to_api_string region_NW_ring) "2024-01")
          Boxes.world0),
     Ok (JList [])).
Proof.
  apply (proj1 (subdivision_depth_bounded "Camden" region_NW "2024-01" "cache"
                  overloaded_session Boxes.world0)
           2 "NW_NW" region_NW_ring None).
  - reflexivity.
  - reflexivity.
  - reflexivity.
  - unfold Police.MAX_GRID_DEPTH. lia.
Defined.

(** The bounds are reached when the endpoint finds every region too large:
    16 leaf queries, 21 requests in all. *)
Example overloaded_run_reaches_bounds :
  snd overloaded_run = Ok (JList []) /\
  leaf_queries (frames (fst overloaded_run)) = 16%nat /\
  length (requests (fst overloaded_run)) = 21%nat /\
  (4 ^ Z.to_nat Police.MAX_GRID_DEPTH)%nat = 16%nat /\
  max_requests (Z.to_nat Police.MAX_GRID_DEPTH) = 21%nat.
Proof. repeat split. Qed.

(** ** Cache writes *)

Lemma careful_refl P w : careful P w w.
Proof. split; [exists []; split; [reflexivity | constructor] | split; auto]. Qed.

Lemma careful_trans P w1 w2 w3 :
  careful P w1 w2 -> careful P w2 w3 -> careful P w1 w3.
Proof.
  intros ((ws1 & Hw1 & Hf1) & Ho1 & Hk1) ((ws2 & Hw2 & Hf2) & Ho2 & Hk2).
  split; [|split].
  - exists (ws2 ++ ws1)%list. rewrite Hw2, Hw1, <- app_assoc.
    split; [reflexivity | now apply Forall_app].
  - intros path Hn. now rewrite Ho2, Ho1.
  - intros path v Hv Hnn. eauto.
Qed.

Lemma careful_mono (P Q : string -> Prop) w w' :
  (forall path, P path -> Q path) -> careful P w w' -> careful Q w w'.
Proof.
  intros HPQ ((ws & Hw & Hf) & Ho & Hk). split; [|split].
  - exists ws. split; [exact Hw|].
    eapply Forall_impl; [exact Hf|]. cbn. intros c [? ?]. auto.
  - intros path Hn. apply Ho. auto.
  - exact Hk.
Qed.

Lemma careful_sent P r w : careful P w (sent r w).
Proof. split; [exists []; split; [reflexivity | constructor] | split; auto]. Qed.

Lemma careful_framed P f w : careful P w (framed f w).
Proof. split; [exists []; split; [reflexivity | constructor] | split; auto]. Qed.

Lemma careful_dumped (P : string -> Prop) path v w :
  P path -> fs w !! path = None \/ fs w !! path = Some JNull ->
  careful P w (dumped path v w).
Proof.
  intros HP Hold. split; [|split].
  - exists [CacheWrite path (fs w !! path) v]. split; [reflexivity|].
    constructor; [|constructor]. split; [exact Hold | exact HP].
  - intros path' Hn. apply lookup_dumped_ne. intros ->. contradiction.
  - intros path' v' Hv' Hnn.
    destruct (decide (path = path')) as [->|Hne].
    + destruct Hold as [Hold|Hold]; rewrite Hold in Hv'; congruence.
    + now rewrite lookup_dumped_ne.
Qed.

(** The direct query writes the cache only on a status 200 with a body that
    decodes, and only under a key that had no file. *)
Lemma fetch_single_poly_write poly_str month cache_path session w :
  let w1 := fst (Police._fetch_single_poly poly_str month cache_path session w) in
  (fs w1 = fs w /\ writes w1 = writes w) \/
  (fs w !! cache_path = None /\
   exists body,
     session (requests w) (crime_request poly_str month) = Response 200 (Some body) /\
     fs w1 = <[cache_path := body]> (fs w) /\
     writes w1 = CacheWrite cache_path None body :: writes w).
Proof.
  cbv zeta. destruct (fs w !! cache_path) as [v|] eqn:Hw.
  - rewrite (fetch_single_poly_hit _ _ _ _ _ _ Hw). now left.
  - rewrite (fetch_single_poly_miss _ _ _ _ _ Hw). cbv zeta.
    destruct (session _ _) as [|status_code body]; [now left|].
    destruct (status_code =? 503) eqn:E503; [now left|].
    destruct (status_code =? 200) eqn:E200; cbn [negb]; [|now left].
    apply Z.eqb_eq in E200. subst status_code.
    destruct body as [crimes|]; [|now left].
    right. split; [reflexivity|]. exists crimes. split; [reflexivity|].
    destruct (py_len crimes); cbn [fst dumped fs writes sent]; rewrite Hw; now split.
Qed.

Lemma fetch_single_poly_careful poly_str month cache_path session w :
  careful (eq cache_path) w
    (fst (Police._fetch_single_poly poly_str month cache_path session w)).
Proof.
  destruct (fs w !! cache_path) as [v|] eqn:Hw.
  - rewrite (fetch_single_poly_hit _ _ _ _ _ _ Hw). apply careful_refl.
  - rewrite (fetch_single_poly_miss _ _ _ _ _ Hw). cbv zeta.
    assert (Hd : forall v, careful (eq cache_path) w
              (dumped cache_path v (sent (crime_request poly_str month) w))).
    { intros v. eapply careful_trans; [apply careful_sent|].
      apply careful_dumped; [reflexivity | now left]. }
    destruct (session _ _) as [|status_code body]; [apply careful_sent|].
    destruct (status_code =? 503); [apply careful_sent|].
    destruct (negb (status_code =? 200)); [apply careful_sent|].
    destruct body as [crimes|]; [|apply careful_sent].
    destruct (py_len crimes); apply Hd.
Qed.

(** When the direct query signals a subdivision, the cache is as it was and
    holds no payload under the key. *)
Lemma fetch_single_poly_none poly_str month cache_path session w w1 :
  Police._fetch_single_poly poly_str month cache_path session w = (w1, Ok JNull) ->
  (forall path, fs w1 !! path = fs w !! path) /\
  (fs w !! cache_path = None \/ fs w !! cache_path = Some JNull).
Proof.
  destruct (fs w !! cache_path) as [v|] eqn:Hw.
  - rewrite (fetch_single_poly_hit _ _ _ _ _ _ Hw). intros [= <- ->]. auto.
  - rewrite (fetch_single_poly_miss _ _ _ _ _ Hw). cbv zeta.
    destruct (session _ _) as [|status_code body]; [discriminate|].
    destruct (status_code =? 503); [intros [= <-]; auto|].
    destruct (negb (status_code =? 200)); [discriminate|].
    destruct body as [crimes|]; [|discriminate].
    destruct crimes; cbn; discriminate.
Qed.

(** *** Labels and cache files *)

Lemma length_append (s t : string) :
  String.length (s +:+ t) = (String.length s + String.length t)%nat.
Proof. induction s as [|a s' IH]; simpl; [reflexivity | now f_equal]. Qed.

Lemma append_assoc (s t u : string) : (s +:+ t) +:+ u = s +:+ (t +:+ u).
Proof.
  induction s as [|a s' IH]; [reflexivity|].
  change (String a ((s' +:+ t) +:+ u) = String a (s' +:+ (t +:+ u))).
  now f_equal.
Qed.

Lemma append_empty_r (s : string) : s +:+ "" = s.
Proof.
  induction s as [|a s' IH]; [reflexivity|].
  change (String a (s' +:+ "") = String a s'). now f_equal.
Qed.

Lemma append_cancel_r (s t u : string) : s +:+ u = t +:+ u -> s = t.
Proof.
  revert t. induction s as [|a s' IH]; intros [|b t] E.
  - reflexivity.
  - apply (f_equal String.length) in E. rewrite !length_append in E. simpl in E. lia.
  - apply (f_equal String.length) in E. rewrite !length_append in E. simpl in E. lia.
  - change (String a (s' +:+ u) = String b (t +:+ u)) in E.
    injection E as -> E. f_equal. now apply IH.
Qed.

Lemma cache_file_inj cache_dir month l1 l2 :
  Police.cache_file cache_dir l1 month = Police.cache_file cache_dir l2 month ->
  l1 = l2.
Proof.
  unfold Police.cache_file, path_join. intros E.
  apply (inj (String.append cache_dir)) in E.
  apply (inj (String.append "/")) in E.
  now apply append_cancel_r in E.
Qed.

Lemma label_of_nonempty cell_id : cell_id <> "" -> Police.label_of cell_id = cell_id.
Proof.
  intros Hne. unfold Police.label_of.
  now destruct (String.eqb_spec cell_id "").
Qed.

Lemma sub_id_of_nonempty cell_id suffix :
  In suffix Police.suffixes -> Police.sub_id_of cell_id suffix <> "".
Proof.
  intros Hs. unfold Police.sub_id_of.
  destruct (String.eqb_spec cell_id "") as [->|Hne].
  - cbn in Hs. intuition (subst; discriminate).
  - rewrite (label_of_nonempty _ Hne). destruct cell_id; [congruence | discriminate].
Qed.

(** The labels under a cell that is not the root start with its id. *)
Lemma under_prefix cell_id label :
  cell_id <> "" -> under cell_id label -> exists t, label = cell_id +:+ t.
Proof.
  intros Hne [-> | (suffix & t & _ & ->)].
  - rewrite (label_of_nonempty _ Hne). exists "". now rewrite append_empty_r.
  - unfold Police.sub_id_of. destruct (String.eqb_spec cell_id ""); [congruence|].
    rewrite (label_of_nonempty _ Hne). exists ("_" +:+ suffix +:+ t).
    now rewrite !append_assoc.
Qed.

(** The labels under a child are labels under its parent. *)
Lemma under_child cell_id suffix label :
  In suffix Police.suffixes ->
  under (Police.sub_id_of cell_id suffix) label -> under cell_id label.
Proof.
  intros Hs Hu. right.
  destruct (under_prefix _ _ (sub_id_of_nonempty cell_id suffix Hs) Hu) as [t ->].
  eauto.
Qed.

(** The label of a cell is not under any of its children. *)
Lemma label_not_under_child cell_id suffix :
  In suffix Police.suffixes ->
  ~ under (Police.sub_id_of cell_id suffix) (Police.label_of cell_id).
Proof.
  intros Hs Hu.
  destruct (under_prefix _ _ (sub_id_of_nonempty cell_id suffix Hs) Hu) as [t E].
  unfold Police.sub_id_of, Police.label_of in E.
  destruct (String.eqb_spec cell_id "") as [->|Hne].
  - cbn in Hs. intuition (subst; discriminate).
  - unfold Police.label_of in E. destruct (String.eqb_spec cell_id ""); [congruence|].
    apply (f_equal String.length) in E. rewrite !length_append in E. simpl in E. lia.
Qed.

Lemma subtree_key_child cache_dir month cell_id suffix path :
  In suffix Police.suffixes ->
  subtree_key cache_dir month (Police.sub_id_of cell_id suffix) path ->
  subtree_key cache_dir month cell_id path.
Proof.
  intros Hs (label & -> & Hu). exists label. split; [reflexivity|].
  now apply under_child with (suffix := suffix).
Qed.

Lemma own_key_not_child cache_dir month cell_id suffix :
  In suffix Police.suffixes ->
  ~ subtree_key cache_dir month (Police.sub_id_of cell_id suffix)
      (Police.cache_file cache_dir (Police.label_of cell_id) month).
Proof.
  intros Hs (label & E & Hu). apply cache_file_inj in E. subst label.
  now apply (label_not_under_child cell_id suffix).
Qed.

Lemma own_key_subtree cache_dir month cell_id :
  subtree_key cache_dir month cell_id
    (Police.cache_file cache_dir (Police.label_of cell_id) month).
Proof. eexists. split; [reflexivity | now left]. Qed.

Section CacheWrites.
Context {G Pt : Type} `{Shapely G Pt}.
Variables (month cache_dir : string) (session : Session).

Lemma for_each_careful {A St : Type} (P : string -> Prop)
    (body : A -> St -> M St) (xs : list A) :
  (forall x, In x xs -> forall s w, careful P w (fst (body x s w))) ->
  forall s w, careful P w (fst (Police.for_each xs body s w)).
Proof.
  induction xs as [|x xs IH]; intros Hbody s w.
  - apply careful_refl.
  - cbn [Police.for_each]. unfold bind.
    pose proof (Hbody x (or_introl eq_refl) s w) as Hx.
    destruct (body x s w) as [w1 [s1|e]]; cbn [fst] in Hx |- *; [|exact Hx].
    eapply careful_trans; [exact Hx|].
    apply IH. intros y Hy. apply Hbody. now right.
Qed.

(** A fetch writes only cache files of its own subtree, only where no
    payload was, and leaves every payload that was there. *)
Lemma fetch_careful (depth : Z) :
  forall (geom : G) (cell_id : string) (w : world),
  careful (subtree_key cache_dir month cell_id) w
    (fst (Police._fetch_with_subdivision geom month cache_dir session depth
            cell_id w)).
Proof.
  induction depth as [depth IH] using depth_induction.
  intros geom cell_id w. rewrite fetch_unfold. cbv zeta.
  set (P := subtree_key cache_dir month cell_id).
  set (cache_path := Police.cache_file cache_dir (Police.label_of cell_id) month).
  destruct (Police._simplify_to_n_points geom Police.MAX_POLY_POINTS)
    as [coords|e]; cbn [fst]; [|apply careful_refl].
  assert (Hsingle : careful P w
            (fst (Police._fetch_single_poly (Police._coords_to_api_string coords)
                    month cache_path session w))).
  { eapply careful_mono; [|apply fetch_single_poly_careful].
    intros path <-. apply own_key_subtree. }
  destruct (Police._fetch_single_poly _ _ _ _ w) as [w1 [res|e]] eqn:Hrun;
    cbn [fst] in Hsingle |- *; [|exact Hsingle].
  assert (Hleaf : forall f, careful P w (framed f w1)).
  { intros f. eapply careful_trans; [exact Hsingle | apply careful_framed]. }
  destruct (negb (is_None res)) eqn:Hres; [apply Hleaf|].
  destruct (Police.MAX_GRID_DEPTH <=? depth) eqn:Hdepth; [apply Hleaf|].
  apply Z.leb_gt in Hdepth. specialize (IH Hdepth).
  destruct res; try discriminate.
  destruct (fetch_single_poly_none _ _ _ _ _ _ Hrun) as [Hsame Hold].
  set (P' := fun path => exists suffix, In suffix Police.suffixes /\
               subtree_key cache_dir month (Police.sub_id_of cell_id suffix) path).
  lazymatch goal with
  | |- context [Police.for_each ?xs ?body ?s ?w2] =>
      pose proof (for_each_careful P' body xs) as Hloop;
      set (loop := Police.for_each xs body s w2)
  end.
  assert (Hchildren : careful P'
            (framed (Frame Split depth (Police.label_of cell_id)
               (negb (Nat.eqb (length (requests w)) (length (requests w1))))) w1)
            (fst loop)).
  { subst loop. apply Hloop.
    intros [quad suffix] Hin acc w0. apply in_combine_r in Hin.
    unfold Police.quadrant_step. cbn [fst snd].
    destruct (is_empty (intersection geom quad)); [apply careful_refl|].
    unfold bind at 1.
    pose proof (IH (intersection geom quad) (Police.sub_id_of cell_id suffix) w0) as Hc.
    apply (careful_mono _ P') in Hc; [|intros path Hp; exists suffix; now split].
    destruct (Police._fetch_with_subdivision _ _ _ _ _ _ w0) as [w2 [crimes|e]];
      cbn [fst] in Hc |- *; [|exact Hc].
    unfold bind, lift. destruct (py_iter crimes) as [items|e]; cbn [fst]; [|exact Hc].
    destruct (Police.dedup_into items acc); exact Hc. }
  assert (HP' : forall path, P' path -> P path).
  { intros path (suffix & Hs & Hk). now apply subtree_key_child with (suffix := suffix). }
  assert (Hown : ~ P' cache_path).
  { intros (suffix & Hs & Hk). now apply (own_key_not_child _ _ _ _ Hs Hk). }
  assert (Hwk : fs (fst loop) !! cache_path = None \/
                fs (fst loop) !! cache_path = Some JNull).
  { destruct Hchildren as (_ & Hout & _).
    rewrite (Hout cache_path Hown), lookup_framed, Hsame. exact Hold. }
  assert (Hall : careful P w (fst loop)).
  { eapply careful_trans; [apply Hleaf|].
    eapply careful_mono; [exact HP' | exact Hchildren]. }
  destruct loop as [wk [acc|e]]; cbn [fst] in Hall, Hwk |- *; [|exact Hall].
  eapply careful_trans; [exact Hall|].
  apply careful_dumped; [apply own_key_subtree | exact Hwk].
Qed.

End CacheWrites.

(** C5 (as the code has it): the direct query writes the cache only on a
    status 200 with a body that decodes, under a key that had no file; a
    fetch writes only cache files of its own cell and of the cells below it,
    each at a moment when the file does not exist or holds null, and the
    write after a subdivision is one of them, whatever the children got; so
    a fetch leaves every payload that is in the cache as it is. *)
Theorem fetch_never_overwrites_payload {G Pt : Type} `{Shapely G Pt}
    (geom : G) (month cache_dir : string) (session : Session) (depth : Z)
    (cell_id : string) (w : world) :
  (forall poly_str cache_path,
     let w1 := fst (Police._fetch_single_poly poly_str month cache_path session w) in
     (fs w1 = fs w /\ writes w1 = writes w) \/
     (fs w !! cache_path = None /\
      exists body,
        session (requests w) (crime_request poly_str month)
          = Response 200 (Some body) /\
        fs w1 = <[cache_path := body]> (fs w) /\
        writes w1 = CacheWrite cache_path None body :: writes w)) /\
  (let w' := fst (Police._fetch_with_subdivision geom month cache_dir session
                    depth cell_id w) in
   (exists new_writes,
      writes w' = (new_writes ++ writes w)%list /\
      Forall (fun c => (cw_old c = None \/ cw_old c = Some JNull) /\
                       subtree_key cache_dir month cell_id (cw_path c))
        new_writes) /\
   (forall path, ~ subtree_key cache_dir month cell_id path ->
                 fs w' !! path = fs w !! path) /\
   (forall path payload, fs w !! path = Some payload -> payload <> JNull ->
                         fs w' !! path = Some payload)).
Proof.
  split.
  - intros poly_str cache_path. apply fetch_single_poly_write.
  - apply (fetch_careful month cache_dir session depth geom cell_id w).
Qed.

Lemma fetch_never_overwrites_payload_witness :
  fs (fst (Police._fetch_with_subdivision region "2024-01" "cache"
             overloaded_session 0 ""
             (dumped "cache/NW_2024-01.json" duplicated_payload Boxes.world0)))
    !! "cache/NW_2024-01.json"
  = Some duplicated_payload.
Proof.
  pose proof (fetch_never_overwrites_payload region "2024-01" "cache"
                overloaded_session 0 ""
                (dumped "cache/NW_2024-01.json" duplicated_payload Boxes.world0))
    as [_ (_ & _ & Hkeep)].
  apply Hkeep; [reflexivity | discriminate].
Defined.

(** C5 (as stated) fails: on an endpoint that answers every request with
    the status 503 no query succeeds, and still the fetch writes cache
    entries, the empty list, under the key of the region and under the keys
    of its quadrants. *)
Lemma cache_written_without_successful_query :
  (forall history r, overloaded_session history r = Response 503 None) /\
  fs Boxes.world0 !! "cache/full_2024-01.json" = None /\
  snd overloaded_run = Ok (JList []) /\
  fs (fst overloaded_run) !! "cache/full_2024-01.json" = Some (JList []) /\
  fs (fst overloaded_run) !! "cache/NW_2024-01.json" = Some (JList []) /\
  length (writes (fst overloaded_run)) = 5%nat.
Proof. repeat split. Qed.

(** ** The fetch always returns or raises a Python exception *)

Section Totality.
Context {G Pt : Type} `{Shapely G Pt}.

Lemma py_get_raises x k d e : py_get x k d = Raise e -> e = AttributeError.
Proof. destruct x; cbn; congruence. Qed.

Lemma crime_key_raises c e : Police.crime_key c = Raise e -> e <> OutOfFuel.
Proof.
  unfold Police.crime_key, Police.crime_uid.
  repeat match goal with
         | |- context [py_get ?x ?k ?d] =>
             let E := fresh "E" in
             destruct (py_get x k d) eqn:E;
             [|apply py_get_raises in E; subst; cbn; congruence]; cbn [bindR]
         | |- context [if ?b then _ else _] => destruct b; cbn [bindR]
         | |- context [match pyval_of ?x with _ => _ end] => destruct (pyval_of x)
         end; congruence.
Qed.

Lemma dedup_into_raises items acc e :
  Police.dedup_into items acc = Raise e -> e <> OutOfFuel.
Proof.
  revert acc. induction items as [|c rest IH]; intros acc; cbn; [discriminate|].
  destruct (Police.crime_key c) as [k|e'] eqn:Ek; cbn [bindR].
  - destruct (negb (key_in k (snd acc))); apply IH.
  - intros [= <-]. now apply crime_key_raises in Ek.
Qed.

Lemma simplify_loop_raises k geom simplified tolerance max_points e :
  Police.simplify_loop k geom simplified tolerance max_points = Raise e ->
  e = AttributeError.
Proof.
  revert simplified tolerance. induction k as [|k IH]; intros simplified tolerance; cbn;
    [discriminate|].
  destruct (exterior_coords (simplify geom tolerance)); [|congruence].
  destruct (_ <=? _); [discriminate | apply IH].
Qed.

Lemma simplify_to_n_points_raises geom max_points e :
  Police._simplify_to_n_points geom max_points = Raise e -> e = AttributeError.
Proof.
  unfold Police._simplify_to_n_points.
  destruct (exterior_coords geom); [|congruence].
  destruct (_ <=? _); [discriminate|].
  destruct (Police.simplify_loop _ _ _ _ _) eqn:E; cbn [bindR].
  - destruct (exterior_coords a); congruence.
  - apply simplify_loop_raises in E. congruence.
Qed.

Lemma fetch_single_poly_raises poly_str month cache_path session w w1 e :
  Police._fetch_single_poly poly_str month cache_path session w = (w1, Raise e) ->
  e <> OutOfFuel.
Proof.
  destruct (fs w !! cache_path) as [v|] eqn:Hw.
  - rewrite (fetch_single_poly_hit _ _ _ _ _ _ Hw). discriminate.
  - rewrite (fetch_single_poly_miss _ _ _ _ _ Hw). cbv zeta.
    destruct (session _ _) as [|status_code body]; [discriminate|].
    destruct (status_code =? 503); [discriminate|].
    destruct (negb (status_code =? 200)); [discriminate|].
    destruct body as [crimes|]; [|intros [= _ <-]; discriminate].
    destruct crimes; cbn; intros [= _ <-]; discriminate.
Qed.

Lemma for_each_raises {A St : Type} (body : A -> St -> M St) (xs : list A) :
  (forall x s w, snd (body x s w) <> Raise OutOfFuel) ->
  forall s w, snd (Police.for_each xs body s w) <> Raise OutOfFuel.
Proof.
  intros Hbody. induction xs as [|x xs IH]; intros s w; [discriminate|].
  cbn [Police.for_each]. unfold bind. pose proof (Hbody x s w) as Hx.
  destruct (body x s w) as [w1 [s1|e]]; [apply IH | exact Hx].
Qed.

(** The fuel of [_fetch_with_subdivision] is never exhausted. *)
Lemma fetch_never_out_of_fuel (month cache_dir : string) (session : Session)
    (depth : Z) :
  forall (geom : G) (cell_id : string) (w : world),
  snd (Police._fetch_with_subdivision geom month cache_dir session depth cell_id w)
  <> Raise OutOfFuel.
Proof.
  induction depth as [depth IH] using depth_induction.
  intros geom cell_id w. rewrite fetch_unfold. cbv zeta.
  destruct (Police._simplify_to_n_points geom Police.MAX_POLY_POINTS)
    as [coords|e] eqn:Hs.
  2: { apply simplify_to_n_points_raises in Hs. subst. discriminate. }
  destruct (Police._fetch_single_poly _ _ _ _ w) as [w1 [res|e]] eqn:Hrun.
  2: { cbn. intros [= ->]. now apply fetch_single_poly_raises in Hrun. }
  destruct (negb (is_None res)); [discriminate|].
  destruct (Police.MAX_GRID_DEPTH <=? depth) eqn:Hdepth; [discriminate|].
  apply Z.leb_gt in Hdepth. specialize (IH Hdepth).
  lazymatch goal with
  | |- context [Police.for_each ?xs ?body ?s ?w2] =>
      pose proof (for_each_raises body xs) as Hloop;
      set (loop := Police.for_each xs body s w2)
  end.
  assert (Hl : snd loop <> Raise OutOfFuel).
  { subst loop. apply Hloop. intros [quad suffix] acc w0.
    unfold Police.quadrant_step. cbn [fst snd].
    destruct (is_empty (intersection geom quad)); [discriminate|].
    unfold bind at 1.
    pose proof (IH (intersection geom quad) (Police.sub_id_of cell_id suffix) w0) as Hc.
    destruct (Police._fetch_with_subdivision _ _ _ _ _ _ w0) as [w2 [crimes|e]];
      [|cbn in Hc |- *; congruence].
    unfold bind, lift. destruct crimes; cbn; try discriminate;
      match goal with
      | |- context [Police.dedup_into ?items acc] =>
          destruct (Police.dedup_into items acc) eqn:Ed;
          [discriminate | cbn; intros [= ->]; now apply dedup_into_raises in Ed]
      end. }
  destruct loop as [wk [acc|e]]; [discriminate | cbn in Hl |- *; congruence].
Qed.

End Totality.

(** With more fuel than the levels left below a frame, the fuelled body is
    [_fetch_with_subdivision], and it never ends for lack of fuel. *)
Theorem fetch_fuel_adequate {G Pt : Type} `{Shapely G Pt}
    (fuel : nat) (geom : G) (month cache_dir : string) (session : Session)
    (depth : Z) (cell_id : string) (w : world) :
  (Z.to_nat (Police.MAX_GRID_DEPTH - depth) < fuel)%nat ->
  Police.fetch_fuel fuel geom month cache_dir session depth cell_id w
  = Police._fetch_with_subdivision geom month cache_dir session depth cell_id w /\
  snd (Police._fetch_with_subdivision geom month cache_dir session depth cell_id w)
  <> Raise OutOfFuel.
Proof.
  intros Hfuel. split.
  - now apply fetch_fuel_enough.
  - apply fetch_never_out_of_fuel.
Qed.

(** The child id extends the id of the cell by the suffix; at the root,
    whose id is empty and whose cache label is "full", it is the suffix. *)
Lemma sub_id_of_extends (cell_id suffix : string) :
  Police.sub_id_of cell_id suffix
  = if String.eqb cell_id "" then suffix else cell_id +:+ "_" +:+ suffix.
Proof.
  unfold Police.sub_id_of, Police.label_of.
  now destruct (String.eqb cell_id "").
Qed.

(** ** Failures of the Overpass endpoints *)

Section OverpassFailures.
Context {G Pt : Type} `{Shapely G Pt}.
Variables (query : string) (session : Session).
Hypothesis Hfail : forall history r, endpoint_fails (session history r).

Lemma query_endpoints_all_fail (endpoints : list string) (w : world) :
  Osm.query_endpoints endpoints query session w
  = (fold_left (fun w' endpoint => sent (overpass_request endpoint query) w')
       endpoints w, Ok JNull).
Proof.
  revert w. induction endpoints as [|endpoint rest IH]; intros w; [reflexivity|].
  cbn [Osm.query_endpoints fold_left]. unfold bind, send.
  fold (overpass_request endpoint query).
  fold (sent (overpass_request endpoint query) w).
  pose proof (Hfail (requests w) (overpass_request endpoint query)) as Hf.
  destruct (session _ _) as [|status_code body]; [apply IH|].
  apply Z.eqb_neq in Hf. rewrite Hf. apply IH.
Qed.

(** Every endpoint is tried once, in rank order, and the call gives [None]. *)
Lemma query_overpass_all_fail (w : world) :
  Osm._query_overpass query session w
  = (sent (overpass_request "https://overpass.kumi.systems/api/interpreter" query)
       (sent (overpass_request "https://overpass-api.de/api/interpreter" query) w),
     Ok JNull).
Proof. unfold Osm._query_overpass. now rewrite query_endpoints_all_fail. Qed.

End OverpassFailures.

(** A borough whose query fails on every endpoint counts 0: nothing is
    cached and nothing is raised, so the boroughs after it are fetched. *)
Lemma fetch_borough_parking_failed {G Pt : Type} `{Shapely G Pt}
    (borough_name : string) (borough_geom : G) (cache_dir : string)
    (session : Session) (w : world) :
  (forall history r, endpoint_fails (session history r)) ->
  fs w !! path_join cache_dir (replace_spaces borough_name +:+ "_parking.json")
    = None ->
  exists w',
    Osm.fetch_borough_parking borough_name borough_geom cache_dir session w
      = (w', Ok 0) /\
    fs w' = fs w /\ writes w' = writes w /\
    length (requests w') = (2 + length (requests w))%nat /\
    forall rest results,
      Osm.fetch_rows ((borough_name, borough_geom) :: rest) cache_dir session
        results w
      = Osm.fetch_rows rest cache_dir session (<[borough_name := 0]> results) w'.
Proof.
  intros Hfail Hmiss.
  assert (Hrun : exists w',
            Osm.fetch_borough_parking borough_name borough_geom cache_dir session w
              = (w', Ok 0) /\
            fs w' = fs w /\ writes w' = writes w /\
            length (requests w') = (2 + length (requests w))%nat).
  { unfold Osm.fetch_borough_parking.
    rewrite (bind_ok _ _ _ _ _ (path_exists_false _ _ Hmiss)).
    destruct (bounds borough_geom) as [[[minx miny] maxx] maxy].
    unfold bind. rewrite (query_overpass_all_fail _ _ Hfail). cbn [is_None].
    eexists. split; [reflexivity|]. now repeat split. }
  destruct Hrun as (w' & Hrun & Hfs & Hwr & Hreq).
  exists w'. repeat split; try assumption.
  intros rest results. cbn [Osm.fetch_rows]. unfold bind. now rewrite Hrun.
Qed.

(** * Further properties *)

(** ** Overpass: failover between the endpoints *)

Section OverpassFailover.
Variables (query : string) (session : Session).

(** The endpoints of a ranked list are tried in order until one answers
    200 with a body that decodes; those after it are not contacted. *)
Lemma query_endpoints_first_success (failed : list string) (good : string)
    (rest : list string) (v : json) :
  forall w,
  (forall e history, In e failed ->
     endpoint_fails (session history (overpass_request e query))) ->
  (forall history,
     session history (overpass_request good query) = Response 200 (Some v)) ->
  Osm.query_endpoints (failed ++ good :: rest) query session w
  = (sent (overpass_request good query)
       (fold_left (fun w' e => sent (overpass_request e query) w') failed w),
     Ok v).
Proof.
  induction failed as [|e failed IH]; intros w Hfailed Hgood.
  - cbn [app fold_left Osm.query_endpoints]. unfold bind, send.
    fold (overpass_request good query). rewrite Hgood. reflexivity.
  - cbn [app fold_left Osm.query_endpoints]. unfold bind at 1, send at 1.
    fold (overpass_request e query). fold (sent (overpass_request e query) w).
    pose proof (Hfailed e (requests w) (or_introl eq_refl)) as Hf.
    destruct (session (requests w) (overpass_request e query)) as [|status_code body].
    + apply IH; [|exact Hgood]. intros e' history He'. apply Hfailed. now right.
    + cbn in Hf. apply Z.eqb_neq in Hf. rewrite Hf.
      apply IH; [|exact Hgood]. intros e' history He'. apply Hfailed. now right.
Qed.

End OverpassFailover.

(** X1: when the primary endpoint fails, by a network error or a status
    other than 200, and the mirror answers 200 with a body that decodes,
    [_query_overpass] returns the payload of the mirror after exactly two
    requests, the primary first. *)
Theorem query_overpass_falls_back_to_mirror
    (query : string) (session : Session) (w : world) (v : json) :
  endpoint_fails (session (requests w) (overpass_request primary_endpoint query)) ->
  session (overpass_request primary_endpoint query :: requests w)
    (overpass_request mirror_endpoint query) = Response 200 (Some v) ->
  Osm._query_overpass query session w
  = (sent (overpass_request mirror_endpoint query)
       (sent (overpass_request primary_endpoint query) w),
     Ok v).
Proof.
  intros Hprimary Hmirror.
  unfold Osm._query_overpass, Osm.OVERPASS_ENDPOINTS.
  cbn [Osm.query_endpoints]. unfold bind at 1, send at 1.
  fold primary_endpoint. fold (overpass_request primary_endpoint query).
  fold (sent (overpass_request primary_endpoint query) w).
  assert (Hsecond :
    bind (send session (HttpPost mirror_endpoint [("data", query)]))
      (fun resp =>
         match resp with
         | RequestException => ret JNull
         | Response status_code body =>
             if status_code =? 200
             then match body with Some v0 => ret v0 | None => ret JNull end
             else ret JNull
         end) (sent (overpass_request primary_endpoint query) w)
    = (sent (overpass_request mirror_endpoint query)
         (sent (overpass_request primary_endpoint query) w), Ok v)).
  { unfold bind, send. cbn [requests sent].
    fold (overpass_request mirror_endpoint query). rewrite Hmirror. reflexivity. }
  destruct (session (requests w) (overpass_request primary_endpoint query))
    as [|status_code body].
  - exact Hsecond.
  - cbn in Hprimary. apply Z.eqb_neq in Hprimary. rewrite Hprimary. exact Hsecond.
Qed.

Lemma query_overpass_falls_back_to_mirror_witness :
  Osm._query_overpass "q" mirror_only_session Boxes.world0
  = (sent (overpass_request mirror_endpoint "q")
       (sent (overpass_request primary_endpoint "q") Boxes.world0),
     Ok (JDict [("elements", JList sample_elements)])).
Proof.
  apply (query_overpass_falls_back_to_mirror "q" mirror_only_session Boxes.world0).
  - exact I.
  - reflexivity.
Defined.

(** When the primary endpoint answers 200 with a body that decodes,
    [_query_overpass] returns that payload after one request: the mirror is
    not contacted. *)
Lemma query_overpass_primary_answers
    (query : string) (session : Session) (w : world) (v : json) :
  session (requests w) (overpass_request primary_endpoint query)
    = Response 200 (Some v) ->
  Osm._query_overpass query session w
  = (sent (overpass_request primary_endpoint query) w, Ok v).
Proof.
  intros Hprimary.
  unfold Osm._query_overpass, Osm.OVERPASS_ENDPOINTS.
  cbn [Osm.query_endpoints]. unfold bind at 1, send at 1.
  fold primary_endpoint. fold (overpass_request primary_endpoint query).
  rewrite Hprimary. reflexivity.
Qed.

(** ** Overpass: the borough cache *)

Section ParkingCache.
Context {G Pt : Type} `{Shapely G Pt}.
Variables (borough_name : string) (borough_geom : G) (cache_dir : string).

(** Without a cache file, the fetch is the query followed, when the query
    gives a payload, by the write of the payload and the filter. *)
Lemma fetch_borough_parking_miss (session : Session) (w : world) :
  fs w !! parking_file cache_dir borough_name = None ->
  Osm.fetch_borough_parking borough_name borough_geom cache_dir session w =
  match Osm._query_overpass (parking_query borough_geom) session w with
  | (w1, Raise e) => (w1, Raise e)
  | (w1, Ok raw) =>
      if is_None raw then (w1, Ok 0)
      else (dumped (parking_file cache_dir borough_name) raw w1,
            Osm.spatial_filter raw borough_geom)
  end.
Proof.
  intros Hmiss. unfold Osm.fetch_borough_parking, parking_query.
  fold (parking_file cache_dir borough_name).
  rewrite (bind_ok _ _ _ _ _ (path_exists_false _ _ Hmiss)).
  destruct (bounds borough_geom) as [[[minx miny] maxx] maxy].
  unfold bind at 1.
  destruct (Osm._query_overpass _ session w) as [w1 [raw|e]]; [|reflexivity].
  destruct (is_None raw); reflexivity.
Qed.

End ParkingCache.

(** X2: a fetch without cache file whose query gives a payload writes that
    payload to the cache file of the borough as it came, before the filter
    reads it, in a single write; what the fetch returns is the filter's
    count, or the filter's exception when the payload is malformed. *)
Theorem fetch_borough_parking_caches_raw_payload {G Pt : Type} `{Shapely G Pt}
    (borough_name : string) (borough_geom : G) (cache_dir : string)
    (session : Session) (w w1 : world) (raw : json) :
  fs w !! parking_file cache_dir borough_name = None ->
  Osm._query_overpass (parking_query borough_geom) session w = (w1, Ok raw) ->
  raw <> JNull ->
  Osm.fetch_borough_parking borough_name borough_geom cache_dir session w
  = (World (<[parking_file cache_dir borough_name := raw]> (fs w1)) (requests w1)
       (frames w1)
       (CacheWrite (parking_file cache_dir borough_name)
          (fs w1 !! parking_file cache_dir borough_name) raw :: writes w1),
     Osm.spatial_filter raw borough_geom).
Proof.
  intros Hmiss Hquery Hnn. rewrite fetch_borough_parking_miss by assumption.
  rewrite Hquery. destruct raw; try reflexivity. congruence.
Qed.

Lemma fetch_borough_parking_caches_raw_payload_witness :
  Osm.fetch_borough_parking "City of London" region "cache/osm"
    mirror_only_session Boxes.world0
  = (World (<[parking_file "cache/osm" "City of London" :=
               JDict [("elements", JList sample_elements)]]> ∅)
       [overpass_request mirror_endpoint (parking_query region);
        overpass_request primary_endpoint (parking_query region)]
       []
       [CacheWrite (parking_file "cache/osm" "City of London") None
          (JDict [("elements", JList sample_elements)])],
     Ok 2).
Proof.
  etransitivity.
  - apply (fetch_borough_parking_caches_raw_payload "City of London" region
             "cache/osm" mirror_only_session Boxes.world0
             (sent (overpass_request mirror_endpoint (parking_query region))
                (sent (overpass_request primary_endpoint (parking_query region))
                   Boxes.world0))
             (JDict [("elements", JList sample_elements)]) eq_refl eq_refl).
    discriminate.
  - reflexivity.
Defined.

(** X3: once a fetch has written the payload of a borough, every later
    fetch of that borough, whatever the endpoints would answer, makes no
    request and no write and returns what the first fetch returned, the
    same count or the same exception. *)
Theorem fetch_borough_parking_repeats_from_cache {G Pt : Type} `{Shapely G Pt}
    (borough_name : string) (borough_geom : G) (cache_dir : string)
    (session session' : Session) (w w1 : world) (raw : json) :
  fs w !! parking_file cache_dir borough_name = None ->
  Osm._query_overpass (parking_query borough_geom) session w = (w1, Ok raw) ->
  raw <> JNull ->
  Osm.fetch_borough_parking borough_name borough_geom cache_dir session'
    (fst (Osm.fetch_borough_parking borough_name borough_geom cache_dir session w))
  = (fst (Osm.fetch_borough_parking borough_name borough_geom cache_dir session w),
     snd (Osm.fetch_borough_parking borough_name borough_geom cache_dir session w)).
Proof.
  intros Hmiss Hquery Hnn.
  rewrite (fetch_borough_parking_miss _ borough_geom _ session w Hmiss).
  rewrite Hquery.
  destruct raw; try congruence; cbn [is_None fst snd];
    apply fetch_borough_parking_cached; apply lookup_dumped_eq.
Qed.

Lemma fetch_borough_parking_repeats_from_cache_witness :
  Osm.fetch_borough_parking "City of London" region "cache/osm" malformed_session
    (fst (Osm.fetch_borough_parking "City of London" region "cache/osm"
            malformed_session Boxes.world0))
  = (fst (Osm.fetch_borough_parking "City of London" region "cache/osm"
            malformed_session Boxes.world0),
     snd (Osm.fetch_borough_parking "City of London" region "cache/osm"
            malformed_session Boxes.world0)).
Proof.
  apply (fetch_borough_parking_repeats_from_cache "City of London" region
           "cache/osm" malformed_session malformed_session Boxes.world0
           (sent (overpass_request primary_endpoint (parking_query region))
              Boxes.world0)
           (JList [JInt 1])).
  - reflexivity.
  - reflexivity.
  - discriminate.
Defined.

(** A payload that is not an object raises in the filter after it was
    cached, and the next fetch raises again, from the cache. *)
Example malformed_payload_is_cached :
  snd (Osm.fetch_borough_parking "City of London" region "cache/osm"
         malformed_session Boxes.world0) = Raise AttributeError /\
  fs (fst (Osm.fetch_borough_parking "City of London" region "cache/osm"
             malformed_session Boxes.world0))
    !! parking_file "cache/osm" "City of London" = Some (JList [JInt 1]) /\
  Osm.fetch_borough_parking "City of London" region "cache/osm" healthy_session
    (fst (Osm.fetch_borough_parking "City of London" region "cache/osm"
            malformed_session Boxes.world0))
  = (fst (Osm.fetch_borough_parking "City of London" region "cache/osm"
            malformed_session Boxes.world0), Raise AttributeError).
Proof. repeat split. Qed.

(** X4: a status 200 whose body is the JSON value null counts as a failed
    query: the fetch returns 0 after that one request, the mirror is not
    tried and nothing is cached. *)
Theorem fetch_borough_parking_null_body {G Pt : Type} `{Shapely G Pt}
    (borough_name : string) (borough_geom : G) (cache_dir : string)
    (session : Session) (w : world) :
  fs w !! parking_file cache_dir borough_name = None ->
  session (requests w) (overpass_request primary_endpoint (parking_query borough_geom))
    = Response 200 (Some JNull) ->
  Osm.fetch_borough_parking borough_name borough_geom cache_dir session w
  = (sent (overpass_request primary_endpoint (parking_query borough_geom)) w, Ok 0).
Proof.
  intros Hmiss Hresp. rewrite fetch_borough_parking_miss by assumption.
  now rewrite (query_overpass_primary_answers _ _ _ _ Hresp).
Qed.

Lemma fetch_borough_parking_null_body_witness :
  Osm.fetch_borough_parking "City of London" region "cache/osm"
    (fun _ _ => Response 200 (Some JNull)) Boxes.world0
  = (sent (overpass_request primary_endpoint (parking_query region)) Boxes.world0,
     Ok 0).
Proof.
  apply (fetch_borough_parking_null_body "City of London" region "cache/osm"
           (fun _ _ => Response 200 (Some JNull)) Boxes.world0); reflexivity.
Defined.

(** ** Overpass: the sweep over the boroughs *)

Section ParkingSweep.
Context {G Pt : Type} `{Shapely G Pt}.
Variables (cache_dir : string) (session : Session).

Lemma fetch_rows_dom (rows : list (string * G)) :
  forall (results results' : gmap string Z) (w w' : world),
  Osm.fetch_rows rows cache_dir session results w = (w', Ok results') ->
  dom results' = dom results ∪ list_to_set (map fst rows).
Proof.
  induction rows as [|[name geom] rows IH]; intros results results' w w' Hrun.
  - cbn in Hrun. injection Hrun as _ <-. cbn [map list_to_set].
    now rewrite (right_id_L ∅ (∪)).
  - cbn [Osm.fetch_rows] in Hrun.
    destruct (bind_inv_ok _ _ _ _ _ Hrun) as (w1 & count & Hfetch & Hrest).
    rewrite (IH _ _ _ _ Hrest), dom_insert_L. cbn [map fst].
    rewrite list_to_set_cons.
    now rewrite (comm_L (∪) {[name]} (dom results)), (assoc_L (∪)).
Qed.

Lemma fetch_rows_all_fail (rows : list (string * G)) :
  (forall history r, endpoint_fails (session history r)) ->
  forall (names : gset string) (w : world),
  (forall name geom, In (name, geom) rows ->
     fs w !! parking_file cache_dir name = None) ->
  exists w',
    Osm.fetch_rows rows cache_dir session (gset_to_gmap 0 names) w
      = (w', Ok (gset_to_gmap 0 (names ∪ list_to_set (map fst rows)))) /\
    fs w' = fs w /\ writes w' = writes w /\
    length (requests w') = (2 * length rows + length (requests w))%nat.
Proof.
  intros Hfail. induction rows as [|[name geom] rows IH]; intros names w Hmiss.
  - exists w. cbn [Osm.fetch_rows map list_to_set length].
    rewrite (right_id_L ∅ (∪)). repeat split.
  - destruct (fetch_borough_parking_failed name geom cache_dir session w Hfail)
      as (w1 & _ & Hfs & Hwr & Hreq & Hstep).
    { apply (Hmiss name geom). now left. }
    rewrite Hstep. rewrite <- gset_to_gmap_union_singleton.
    destruct (IH ({[name]} ∪ names) w1) as (w' & Hrun & Hfs' & Hwr' & Hreq').
    { intros name' geom' Hin. rewrite Hfs. apply (Hmiss name' geom'). now right. }
    exists w'. rewrite Hrun. repeat split.
    + cbn [map fst]. rewrite list_to_set_cons.
      now rewrite (assoc_L (∪)), (comm_L (∪) names {[name]}).
    + congruence.
    + congruence.
    + rewrite Hreq', Hreq. cbn [length]. lia.
Qed.

End ParkingSweep.

(** X5: when the sweep over the boroughs returns, the dict has exactly the
    names of the rows as its keys, whether a borough was counted from the
    cache, from an endpoint, or as 0 after a failure. *)
Theorem fetch_all_boroughs_parking_keys {G Pt : Type} `{Shapely G Pt}
    (boroughs_gdf : list (string * G)) (cache_dir : string) (session : Session)
    (w w' : world) (results : gmap string Z) :
  Osm.fetch_all_boroughs_parking boroughs_gdf cache_dir session w = (w', Ok results) ->
  dom results = list_to_set (map fst boroughs_gdf).
Proof.
  unfold Osm.fetch_all_boroughs_parking. intros Hrun.
  apply fetch_rows_dom in Hrun. rewrite Hrun.
  now rewrite dom_empty_L, (left_id_L ∅ (∪)).
Qed.

Lemma fetch_all_boroughs_parking_keys_witness :
  dom (<["Camden" := 0]> (<["City of London" := 2]> (∅ : gmap string Z)))
  = list_to_set (map fst sample_boroughs).
Proof.
  apply (fetch_all_boroughs_parking_keys sample_boroughs "cache/osm" healthy_session
           Boxes.world0
           (fst (Osm.fetch_all_boroughs_parking sample_boroughs "cache/osm"
                   healthy_session Boxes.world0))).
  vm_compute. reflexivity.
Defined.

(** X6: when every endpoint fails for every request and no borough has a
    cache file, the sweep still returns: every borough counts 0, each was
    queried on both endpoints, and nothing was cached. *)
Theorem fetch_all_boroughs_parking_all_fail {G Pt : Type} `{Shapely G Pt}
    (boroughs_gdf : list (string * G)) (cache_dir : string) (session : Session)
    (w : world) :
  (forall history r, endpoint_fails (session history r)) ->
  (forall name geom, In (name, geom) boroughs_gdf ->
     fs w !! parking_file cache_dir name = None) ->
  exists w',
    Osm.fetch_all_boroughs_parking boroughs_gdf cache_dir session w
      = (w', Ok (gset_to_gmap 0 (list_to_set (map fst boroughs_gdf)))) /\
    fs w' = fs w /\ writes w' = writes w /\
    length (requests w') = (2 * length boroughs_gdf + length (requests w))%nat.
Proof.
  intros Hfail Hmiss. unfold Osm.fetch_all_boroughs_parking.
  destruct (fetch_rows_all_fail cache_dir session boroughs_gdf Hfail ∅ w Hmiss)
    as (w' & Hrun & Hrest).
  exists w'. split; [|exact Hrest].
  rewrite gset_to_gmap_empty, (left_id_L ∅ (∪)) in Hrun. exact Hrun.
Qed.

Lemma fetch_all_boroughs_parking_all_fail_witness :
  exists w',
    Osm.fetch_all_boroughs_parking sample_boroughs "cache/osm" failing_session
      Boxes.world0
      = (w', Ok (gset_to_gmap 0 (list_to_set (map fst sample_boroughs)))) /\
    fs w' = fs Boxes.world0 /\ writes w' = writes Boxes.world0 /\
    length (requests w')
    = (2 * length sample_boroughs + length (requests Boxes.world0))%nat.
Proof.
  apply (fetch_all_boroughs_parking_all_fail sample_boroughs "cache/osm"
           failing_session Boxes.world0).
  - intros history r. cbn. discriminate.
  - intros name geom _. reflexivity.
Defined.

(** ** The simplifier stops at the first round that meets the budget *)

(** X7: when the polygon exceeds the budget, the result is the ring of the
    first of the 30 rounds whose simplification meets the budget, without
    its closing vertex: of the tolerances [0.0001 * 2^i] the least that is
    enough is used, and no later round runs. *)
Theorem simplify_to_n_points_first_round {G Pt : Type} `{Shapely G Pt}
    (geom : G) (max_points : Z) (coords cs : list (float * float)) (i : nat) :
  exterior_coords geom = Some coords ->
  max_points < Z.of_nat (length coords) ->
  (i < 30)%nat ->
  (forall t, (t < i)%nat ->
     exists cs', exterior_coords (simplify geom (tolerance_at t)) = Some cs' /\
                 max_points < Z.of_nat (length cs')) ->
  exterior_coords (simplify geom (tolerance_at i)) = Some cs ->
  Z.of_nat (length cs) <= max_points ->
  Police._simplify_to_n_points geom max_points = Ok (removelast cs).
Proof.
  intros Hcoords Hover Hi Hbefore Hcs Hlen. unfold Police._simplify_to_n_points.
  rewrite Hcoords. apply Z.leb_gt in Hover. rewrite Hover.
  change 0.0001%float with (tolerance_at 0).
  rewrite (simplify_loop_first geom max_points cs i 30 0 geom Hi Hbefore Hcs Hlen).
  cbn [bindR Nat.add]. now rewrite Hcs.
Qed.

Lemma simplify_to_n_points_first_round_witness :
  Police._simplify_to_n_points (Sketch.Geom 3 region) 5
  = Ok [(2, 0); (2, 2); (0, 2); (0, 0)]%float.
Proof.
  apply (simplify_to_n_points_first_round (Sketch.Geom 3 region) 5
           [(2, 0); (2, 0); (2, 0); (2, 0); (2, 2); (0, 2); (0, 0); (2, 0)]%float
           [(2, 0); (2, 2); (0, 2); (0, 0); (2, 0)]%float 1).
  - reflexivity.
  - cbn. lia.
  - lia.
  - intros t Ht. assert (t = 0%nat) as -> by lia.
    eexists. split; [reflexivity|]. cbn. lia.
  - reflexivity.
  - cbn. lia.
Defined.

(** ** The list of the available months *)

Lemma map_outcome_returns {A B : Type} (f : A -> outcome B) (l : list A)
    (ys : list B) :
  map_outcome f l = Returns ys -> Forall2 (fun x y => f x = Returns y) l ys.
Proof.
  revert ys. induction l as [|x l IH]; intros ys Hmap; cbn in Hmap.
  - injection Hmap as <-. constructor.
  - destruct (f x) as [y|e] eqn:Hx; cbn in Hmap; [|discriminate].
    destruct (map_outcome f l) as [ys'|e]; cbn in Hmap; [|discriminate].
    injection Hmap as <-. constructor; [assumption | now apply IH].
Qed.

Lemma map_outcome_all {A B : Type} (f : A -> outcome B) (l : list A) (ys : list B) :
  Forall2 (fun x y => f x = Returns y) l ys -> map_outcome f l = Returns ys.
Proof.
  induction 1 as [|x y l ys Hx _ IH]; [reflexivity|].
  cbn [map_outcome]. now rewrite Hx, IH.
Qed.

Lemma py_subscript_returns (d : json) (k : string) (v : json) :
  py_subscript d k = Returns v <-> exists kv, d = JDict kv /\ dict_get kv k = Some v.
Proof.
  split.
  - destruct d; cbn; try discriminate. destruct (dict_get d k) eqn:Hget; [|discriminate].
    intros [= <-]. eauto.
  - intros (kv & -> & Hget). cbn. now rewrite Hget.
Qed.

Lemma all_strings_map (l : list string) : all_strings (map JStr l) = Some l.
Proof. induction l as [|s l IH]; [reflexivity|]. cbn. now rewrite IH. Qed.

Lemma py_sorted_strings (sorted_mixed : list json -> outcome (list json))
    (l : list string) :
  py_sorted sorted_mixed (map JStr l) = Returns (map JStr (merge_sort String.le l)).
Proof.
  destruct l as [|a [|b l]]; [reflexivity..|].
  unfold py_sorted. change (map JStr (a :: b :: l)) with (JStr a :: JStr b :: map JStr l).
  change (JStr a :: JStr b :: map JStr l) with (map JStr (a :: b :: l)).
  now rewrite all_strings_map.
Qed.

Lemma py_sorted_nil (sorted_mixed : list json -> outcome (list json)) :
  py_sorted sorted_mixed [] = Returns [].
Proof. reflexivity. Qed.

(** The months that the [try] gives come from an answer that is a list of
    dated objects, with a status that [raise_for_status] accepts. *)
Lemma available_months_returns (sorted_mixed : list json -> outcome (list json))
    (resp : net_outcome) (months : list json) :
  Police.available_months sorted_mixed resp = Returns months ->
  months <> [] /\
  exists status_code items,
    resp = Response status_code (Some (JList items)) /\
    ~ (400 <= status_code < 600) /\
    items <> [] /\
    Forall (fun d => exists v, dated d v) items.
Proof.
  unfold Police.available_months. destruct resp as [|status_code body]; [discriminate|].
  unfold Police.raise_for_status.
  destruct ((400 <=? status_code) && (status_code <? 600)) eqn:Hstatus;
    cbn [bindO]; [discriminate|].
  destruct body as [dates|]; cbn [resp_json widen bindO]; [|discriminate].
  destruct (py_iter dates) as [items|e] eqn:Hiter; cbn [widen bindO]; [|discriminate].
  destruct (map_outcome _ items) as [values|e] eqn:Hvalues; cbn [bindO]; [|discriminate].
  destruct (py_sorted sorted_mixed values) as [sorted|e] eqn:Hsorted;
    cbn [bindO]; [|discriminate].
  destruct sorted as [|m sorted]; [discriminate|]. intros [= <-].
  split; [discriminate|].
  apply map_outcome_returns in Hvalues.
  assert (Hitems : items <> []).
  { intros ->. inversion Hvalues; subst. discriminate. }
  assert (Hdated : Forall (fun d => exists v, dated d v) items).
  { clear -Hvalues. induction Hvalues as [|d v items values Hd _ IH]; constructor;
      [|exact IH]. exists v. now apply py_subscript_returns. }
  exists status_code, items. split; [|split; [|now split]].
  - f_equal. f_equal. destruct dates; cbn in Hiter; try discriminate.
    + injection Hiter as <-. destruct s; [contradiction|].
      inversion Hdated as [|? ? (v & kv & Hd & _)]; discriminate.
    + now injection Hiter as <-.
    + injection Hiter as <-. destruct d as [|[k v] d]; [contradiction|].
      inversion Hdated as [|? ? (v' & kv & Hd & _)]; discriminate.
  - intros [Hlo Hhi]. apply Z.leb_le in Hlo. apply Z.ltb_lt in Hhi.
    now rewrite Hlo, Hhi in Hstatus.
Qed.

(** X8: [get_available_months] never raises: it makes its one request,
    touches no cache, and returns a list; the list has months in it only
    when the status is not a 4xx or 5xx and the body is a list, not empty,
    of objects that each have the entry [date]. Every other answer, and a
    failed request, gives the empty list. *)
Theorem get_available_months_swallows_failures
    (sorted_mixed : list json -> outcome (list json)) (session : Session)
    (w : world) :
  exists months,
    Police.get_available_months sorted_mixed session w
      = (sent months_request w, Ok months) /\
    (months <> [] ->
     exists status_code items,
       session (requests w) months_request
         = Response status_code (Some (JList items)) /\
       ~ (400 <= status_code < 600) /\
       items <> [] /\
       Forall (fun d => exists v, dated d v) items).
Proof.
  unfold Police.get_available_months, bind, send. fold months_request.
  fold (sent months_request w).
  destruct (Police.available_months sorted_mixed (session (requests w) months_request))
    as [months|e] eqn:Hbody.
  - exists months. split; [reflexivity|]. intros _.
    now apply available_months_returns in Hbody as [_ Hshape].
  - exists []. split; [reflexivity|]. intros Hne. now contradiction Hne.
Qed.

(** On an answer that is a list of objects whose [date] entries are
    strings, the result is the sorted list of these strings. *)
Lemma get_available_months_strings
    (sorted_mixed : list json -> outcome (list json)) (session : Session)
    (w : world) (status_code : Z) (items : list json) (dates : list string) :
  session (requests w) months_request = Response status_code (Some (JList items)) ->
  ~ (400 <= status_code < 600) ->
  Forall2 (fun d s => dated d (JStr s)) items dates ->
  dates <> [] ->
  Police.get_available_months sorted_mixed session w
  = (sent months_request w, Ok (map JStr (merge_sort String.le dates))).
Proof.
  intros Hresp Hstatus Hdated Hne.
  unfold Police.get_available_months, bind, send. fold months_request.
  fold (sent months_request w). rewrite Hresp.
  unfold Police.available_months, Police.raise_for_status.
  assert ((400 <=? status_code) && (status_code <? 600) = false) as ->.
  { apply andb_false_iff. destruct (Z.leb_spec 400 status_code); [|now left].
    right. apply Z.ltb_ge. lia. }
  cbn [bindO resp_json widen py_iter].
  rewrite (map_outcome_all _ items (map JStr dates)).
  - cbn [bindO]. rewrite py_sorted_strings. cbn [bindO].
    destruct (merge_sort String.le dates) as [|m months] eqn:Hsorted; [|reflexivity].
    pose proof (merge_sort_Permutation String.le dates) as Hperm.
    rewrite Hsorted in Hperm. apply Permutation_nil_l in Hperm. congruence.
  - clear -Hdated. induction Hdated as [|d s items dates Hd _ IH]; constructor;
      [|exact IH]. now apply py_subscript_returns.
Qed.

(** X9: on an answer that is a list of objects whose [date] entries are
    strings, [get_available_months] returns these strings in ascending
    order: the same months, each as often as it was listed, the most recent
    last. *)
Theorem get_available_months_sorted
    (sorted_mixed : list json -> outcome (list json)) (session : Session)
    (w : world) (status_code : Z) (items : list json) (dates : list string) :
  session (requests w) months_request = Response status_code (Some (JList items)) ->
  ~ (400 <= status_code < 600) ->
  Forall2 (fun d s => dated d (JStr s)) items dates ->
  dates <> [] ->
  exists months,
    Police.get_available_months sorted_mixed session w
      = (sent months_request w, Ok (map JStr months)) /\
    Sorted String.le months /\
    months ≡ₚ dates.
Proof.
  intros Hresp Hstatus Hdated Hne.
  exists (merge_sort String.le dates). split; [|split].
  - now apply get_available_months_strings with (status_code := status_code)
                                                (items := items).
  - apply Sorted_merge_sort; apply _.
  - apply merge_sort_Permutation.
Qed.

Lemma get_available_months_sorted_witness :
  exists months,
    Police.get_available_months unsorted months_session Boxes.world0
      = (sent months_request Boxes.world0, Ok (map JStr months)) /\
    Sorted String.le months /\
    months ≡ₚ ["2024-02"; "2023-12"; "2024-01"].
Proof.
  apply (get_available_months_sorted unsorted months_session Boxes.world0 200
           [ JDict [("date", JStr "2024-02"); ("stop-and-search", JList [])];
             JDict [("date", JStr "2023-12"); ("stop-and-search", JList [])];
             JDict [("date", JStr "2024-01"); ("stop-and-search", JList [])] ]).
  - reflexivity.
  - lia.
  - repeat constructor; eexists; split; reflexivity.
  - discriminate.
Defined.

(** The months of the sample session, as the function returns them. *)
Example get_available_months_sample :
  snd (Police.get_available_months unsorted months_session Boxes.world0)
  = Ok [JStr "2023-12"; JStr "2024-01"; JStr "2024-02"].
Proof. reflexivity. Qed.

(** ** The months that the pipeline selects *)

Lemma strongly_sorted_app {A : Type} (R : relation A) (l1 l2 : list A) :
  StronglySorted R (l1 ++ l2)%list ->
  Forall (fun a => Forall (R a) l2) l1 /\ StronglySorted R l2.
Proof.
  induction l1 as [|a l1 IH]; cbn; intros Hsorted; [now split|].
  inversion Hsorted as [|? ? Hrest Hall]; subst.
  destruct (IH Hrest) as [Hfirst Hl2]. split; [|exact Hl2].
  constructor; [|exact Hfirst]. apply Forall_app in Hall. apply Hall.
Qed.

Lemma py_slice_from_last {A : Type} (n : Z) (l : list A) :
  0 < n <= Z.of_nat (length l) ->
  py_slice_from (- n) l = drop (length l - Z.to_nat n) l.
Proof.
  intros Hn. unfold py_slice_from.
  destruct (Z.ltb_spec (- n) 0); [|lia]. f_equal. lia.
Qed.

Lemma py_slice_from_all {A : Type} (n : Z) (l : list A) :
  n = 0 \/ Z.of_nat (length l) <= n ->
  py_slice_from (- n) l = l.
Proof.
  intros Hn. unfold py_slice_from.
  destruct (Z.ltb_spec (- n) 0).
  - replace (Z.to_nat _) with 0%nat by lia. reflexivity.
  - replace (Z.to_nat _) with 0%nat by lia. reflexivity.
Qed.

Section ResolveMonths.
Variables (sorted_mixed : list json -> outcome (list json))
          (fallback : Z -> outcome (list json)).
Variables (session : Session) (w : world) (status_code : Z)
          (items : list json) (dates : list string).
Hypothesis Hresp :
  session (requests w) months_request = Response status_code (Some (JList items)).
Hypothesis Hstatus : ~ (400 <= status_code < 600).
Hypothesis Hdated : Forall2 (fun d s => dated d (JStr s)) items dates.

(** When the API lists months, the selection is the slice of the sorted
    list. *)
Lemma resolve_months_slice (n_months : Z) :
  dates <> [] ->
  Dataset.resolve_months sorted_mixed fallback n_months session w
  = (sent months_request w,
     match py_slice_from (- n_months) (merge_sort String.le dates) with
     | [] => Throws IndexError
     | selected => Returns (map JStr selected)
     end).
Proof.
  intros Hne. unfold Dataset.resolve_months.
  rewrite (get_available_months_strings sorted_mixed session w status_code items
             dates Hresp Hstatus Hdated Hne).
  pose proof (merge_sort_Permutation String.le dates) as Hperm.
  destruct (merge_sort String.le dates) as [|m months] eqn:Hsorted.
  { apply Permutation_nil_l in Hperm. congruence. }
  cbn [map truthy negb].
  change (JStr m :: map JStr months) with (map JStr (m :: months)).
  unfold py_slice_from. rewrite length_map, skipn_map.
  now destruct (drop _ (m :: months)).
Qed.

End ResolveMonths.

(** X10: when the API lists at least [n_months] months, with
    [n_months > 0], [resolve_months] returns [n_months] of them in
    ascending order, and no month that it leaves out is later than one that
    it returns: the selection is the [n_months] most recent months. *)
Theorem resolve_months_latest
    (sorted_mixed : list json -> outcome (list json))
    (fallback : Z -> outcome (list json)) (n_months : Z) (session : Session)
    (w : world) (status_code : Z) (items : list json) (dates : list string) :
  session (requests w) months_request = Response status_code (Some (JList items)) ->
  ~ (400 <= status_code < 600) ->
  Forall2 (fun d s => dated d (JStr s)) items dates ->
  0 < n_months <= Z.of_nat (length dates) ->
  exists older selected,
    Dataset.resolve_months sorted_mixed fallback n_months session w
      = (sent months_request w, Returns (map JStr selected)) /\
    Z.of_nat (length selected) = n_months /\
    Sorted String.le selected /\
    (older ++ selected)%list ≡ₚ dates /\
    Forall (fun a => Forall (String.le a) selected) older.
Proof.
  intros Hresp Hstatus Hdated Hn.
  assert (Hne : dates <> []) by (intros ->; cbn in Hn; lia).
  pose proof (merge_sort_Permutation String.le dates) as Hperm.
  assert (Hsorted : StronglySorted String.le (merge_sort String.le dates))
    by (apply StronglySorted_merge_sort; apply _).
  pose proof (Permutation_length Hperm) as Hlen.
  set (sorted := merge_sort String.le dates) in *.
  set (k := (length sorted - Z.to_nat n_months)%nat).
  exists (take k sorted), (drop k sorted).
  rewrite <- (take_drop k sorted) in Hsorted.
  apply strongly_sorted_app in Hsorted as [Hcut Hselected].
  assert (Hcount : Z.of_nat (length (drop k sorted)) = n_months).
  { rewrite length_drop. unfold k. lia. }
  split; [|split; [exact Hcount|split; [|split]]].
  - rewrite (resolve_months_slice sorted_mixed fallback session w status_code items
               dates Hresp Hstatus Hdated n_months Hne).
    fold sorted. rewrite py_slice_from_last by lia. fold k.
    destruct (drop k sorted); [cbn in Hcount; lia | reflexivity].
  - now apply StronglySorted_Sorted.
  - now rewrite take_drop.
  - exact Hcut.
Qed.

Lemma resolve_months_latest_witness :
  exists older selected,
    Dataset.resolve_months unsorted no_fallback 2 months_session Boxes.world0
      = (sent months_request Boxes.world0, Returns (map JStr selected)) /\
    Z.of_nat (length selected) = 2 /\
    Sorted String.le selected /\
    (older ++ selected)%list ≡ₚ ["2024-02"; "2023-12"; "2024-01"] /\
    Forall (fun a => Forall (String.le a) selected) older.
Proof.
  apply (resolve_months_latest unsorted no_fallback 2 months_session Boxes.world0
           200
           [ JDict [("date", JStr "2024-02"); ("stop-and-search", JList [])];
             JDict [("date", JStr "2023-12"); ("stop-and-search", JList [])];
             JDict [("date", JStr "2024-01"); ("stop-and-search", JList [])] ]).
  - reflexivity.
  - lia.
  - repeat constructor; eexists; split; reflexivity.
  - cbn. lia.
Defined.

(** X11: with [n_months = 0], as with an [n_months] that is at least the
    number of the months listed, [resolve_months] returns every month that
    the API lists, in ascending order: a request for zero months selects
    them all. *)
Theorem resolve_months_zero_selects_all
    (sorted_mixed : list json -> outcome (list json))
    (fallback : Z -> outcome (list json)) (n_months : Z) (session : Session)
    (w : world) (status_code : Z) (items : list json) (dates : list string) :
  session (requests w) months_request = Response status_code (Some (JList items)) ->
  ~ (400 <= status_code < 600) ->
  Forall2 (fun d s => dated d (JStr s)) items dates ->
  dates <> [] ->
  n_months = 0 \/ Z.of_nat (length dates) <= n_months ->
  exists selected,
    Dataset.resolve_months sorted_mixed fallback n_months session w
      = (sent months_request w, Returns (map JStr selected)) /\
    Sorted String.le selected /\
    selected ≡ₚ dates.
Proof.
  intros Hresp Hstatus Hdated Hne Hn.
  pose proof (merge_sort_Permutation String.le dates) as Hperm.
  exists (merge_sort String.le dates). split; [|split; [|exact Hperm]].
  - rewrite (resolve_months_slice sorted_mixed fallback session w status_code items
               dates Hresp Hstatus Hdated n_months Hne).
    rewrite py_slice_from_all by (rewrite (Permutation_length Hperm); exact Hn).
    destruct (merge_sort String.le dates) eqn:Hsorted; [|reflexivity].
    apply Permutation_nil_l in Hperm. congruence.
  - apply Sorted_merge_sort; apply _.
Qed.

Lemma resolve_months_zero_selects_all_witness :
  exists selected,
    Dataset.resolve_months unsorted no_fallback 0 months_session Boxes.world0
      = (sent months_request Boxes.world0, Returns (map JStr selected)) /\
    Sorted String.le selected /\
    selected ≡ₚ ["2024-02"; "2023-12"; "2024-01"].
Proof.
  apply (resolve_months_zero_selects_all unsorted no_fallback 0 months_session
           Boxes.world0 200
           [ JDict [("date", JStr "2024-02"); ("stop-and-search", JList [])];
             JDict [("date", JStr "2023-12"); ("stop-and-search", JList [])];
             JDict [("date", JStr "2024-01"); ("stop-and-search", JList [])] ]).
  - reflexivity.
  - lia.
  - repeat constructor; eexists; split; reflexivity.
  - discriminate.
  - now left.
Defined.

(** A negative [n_months] drops that many of the oldest months, and raises
    when none is left. *)
Example resolve_months_negative :
  snd (Dataset.resolve_months unsorted no_fallback (-1) months_session Boxes.world0)
    = Returns [JStr "2024-01"; JStr "2024-02"] /\
  snd (Dataset.resolve_months unsorted no_fallback (-3) months_session Boxes.world0)
    = Throws IndexError.
Proof. split; reflexivity. Qed.

(** ** The records of the crimes *)

Section Records.
Variable float_of_str : string -> option float.
Variables (borough_gss borough_name month : string).

Lemma coordinate_in_range (x : json) :
  in_float_range x = true ->
  (exists v, Police.coordinate float_of_str x = Returns v) \/
  Police.coordinate float_of_str x = Throws (Core TypeError) \/
  Police.coordinate float_of_str x = Throws ValueError.
Proof.
  intros Hrange. unfold Police.coordinate.
  destruct (truthy x); [|left; eauto].
  destruct x as [|b|n|f|s|l|d]; cbn [py_float bindO]; eauto.
  - cbn in Hrange. apply bool_decide_eq_true in Hrange as [f Hf].
    rewrite Hf. cbn. eauto.
  - destruct (float_of_str s); cbn; eauto.
Qed.

Lemma coordinates_in_range (lat_str lng_str : json) :
  in_float_range lat_str = true -> in_float_range lng_str = true ->
  exists latlng, Police.coordinates float_of_str lat_str lng_str = Returns latlng.
Proof.
  intros Hlat Hlng. unfold Police.coordinates.
  destruct (coordinate_in_range lat_str Hlat) as [[lat ->] | [-> | ->]];
    cbn [bindO]; eauto.
  destruct (coordinate_in_range lng_str Hlng) as [[lng ->] | [-> | ->]];
    cbn [bindO]; eauto.
Qed.

Lemma entry_in_range_get (l : list (string * json)) (k : string) (x : json) :
  entry_in_range l k = true ->
  py_get (JDict l) k JNull = Ok x -> in_float_range x = true.
Proof.
  unfold entry_in_range. cbn [py_get]. destruct (dict_get l k) as [v|].
  - now intros Hv [= <-].
  - now intros _ [= <-].
Qed.

Lemma parse_crime_parseable (c : json) :
  parseable c = true ->
  exists r,
    Police.parse_crime float_of_str c borough_gss borough_name month = Returns r /\
    Police.r_area_id r = borough_gss /\
    Police.r_area_name r = borough_name /\
    Police.r_month r = month /\
    py_get c "id" (JStr "") = Ok (Police.r_crime_id r).
Proof.
  destruct c as [| | | | | |d]; try discriminate. intros Hc.
  unfold Police.parse_crime. cbn [py_get widen bindO].
  assert (Hcoords : forall loc,
            (loc = JDict [] \/
             exists l, loc = JDict l /\ entry_in_range l "latitude" = true /\
                       entry_in_range l "longitude" = true) ->
            exists r,
              (let! lat_str := widen (py_get loc "latitude" JNull) in
               let! lng_str := widen (py_get loc "longitude" JNull) in
               let! latlng := Police.coordinates float_of_str lat_str lng_str in
               let! id := Returns (match dict_get d "id" with
                                   | Some v => v
                                   | None => JStr ""
                                   end) in
               Returns (Police.CrimeRecord borough_gss borough_name month id
                          (fst latlng) (snd latlng))) = Returns r /\
              Police.r_area_id r = borough_gss /\
              Police.r_area_name r = borough_name /\
              Police.r_month r = month /\
              Ok (match dict_get d "id" with Some v => v | None => JStr "" end)
              = Ok (Police.r_crime_id r)).
  { intros loc Hloc.
    assert (exists l, loc = JDict l /\ entry_in_range l "latitude" = true /\
                      entry_in_range l "longitude" = true) as (l & -> & Hlat & Hlng).
    { destruct Hloc as [-> | Hloc]; [exists []; now repeat split | exact Hloc]. }
    cbn [py_get widen bindO].
    destruct (coordinates_in_range
                (match dict_get l "latitude" with Some v => v | None => JNull end)
                (match dict_get l "longitude" with Some v => v | None => JNull end))
      as [latlng ->].
    { now apply (entry_in_range_get l "latitude"). }
    { now apply (entry_in_range_get l "longitude"). }
    cbn [bindO]. eexists. now repeat split. }
  cbn [parseable] in Hc.
  destruct (dict_get d "location") as [loc|]; cbn [truthy].
  - destruct (truthy loc) eqn:Htruthy.
    + destruct loc as [| | | | | |l]; try discriminate.
      apply andb_true_iff in Hc as [Hlat Hlng]. apply Hcoords. right. eauto.
    + apply Hcoords. now left.
  - apply Hcoords. now left.
Qed.

Lemma parse_loop_parseable (crimes : list json) :
  Forall (fun c => parseable c = true) crimes ->
  forall records,
  exists new_records,
    Police.parse_loop float_of_str crimes borough_gss borough_name month records
      = Returns (records ++ new_records)%list /\
    Forall2 (fun c r =>
               Police.r_area_id r = borough_gss /\
               Police.r_area_name r = borough_name /\
               Police.r_month r = month /\
               py_get c "id" (JStr "") = Ok (Police.r_crime_id r))
      crimes new_records.
Proof.
  induction 1 as [|c crimes Hc _ IH]; intros records.
  - exists []. split; [|constructor]. cbn. now rewrite app_nil_r.
  - cbn [Police.parse_loop].
    destruct (parse_crime_parseable c Hc) as (r & -> & Hr). cbn [bindO].
    destruct (IH (records ++ [r])%list) as (rest & -> & Hrest).
    exists (r :: rest). split; [|now constructor].
    now rewrite <- app_assoc.
Qed.

End Records.

(** X12: of crimes that are objects whose [location] is absent, falsy, or
    an object without an integer coordinate beyond the float range,
    [parse_crimes_to_records] makes one record each, in the order of the
    crimes, with the crime's [id] (the empty string when it has none) and
    the borough and month given: a crime whose coordinates are missing or do
    not convert still gets its record, and nothing is raised. *)
Theorem parse_crimes_to_records_one_per_crime
    (float_of_str : string -> option float) (crimes : list json)
    (borough_gss borough_name month : string) :
  Forall (fun c => parseable c = true) crimes ->
  exists records,
    Police.parse_crimes_to_records float_of_str (JList crimes) borough_gss
      borough_name month = Returns records /\
    Forall2 (fun c r =>
               Police.r_area_id r = borough_gss /\
               Police.r_area_name r = borough_name /\
               Police.r_month r = month /\
               py_get c "id" (JStr "") = Ok (Police.r_crime_id r))
      crimes records.
Proof.
  intros Hcrimes. unfold Police.parse_crimes_to_records. cbn [py_iter widen bindO].
  destruct (parse_loop_parseable float_of_str borough_gss borough_name month crimes
              Hcrimes []) as (records & Hrun & Hrecords).
  exists records. now split.
Qed.

Lemma parse_crimes_to_records_one_per_crime_witness :
  exists records,
    Police.parse_crimes_to_records sample_float_of_str (JList sample_crimes)
      "E09000007" "Camden" "2024-01" = Returns records /\
    Forall2 (fun c r =>
               Police.r_area_id r = "E09000007" /\
               Police.r_area_name r = "Camden" /\
               Police.r_month r = "2024-01" /\
               py_get c "id" (JStr "") = Ok (Police.r_crime_id r))
      sample_crimes records.
Proof.
  apply (parse_crimes_to_records_one_per_crime sample_float_of_str sample_crimes
           "E09000007" "Camden" "2024-01").
  repeat constructor.
Defined.

(** The records of the sample: the third crime has a longitude that
    converts, and its record has none, because its latitude does not. *)
Example parse_crimes_to_records_sample :
  Police.parse_crimes_to_records sample_float_of_str (JList sample_crimes)
    "E09000007" "Camden" "2024-01"
  = Returns
      [ Police.CrimeRecord "E09000007" "Camden" "2024-01" (JInt 101)
          (Some 51.5%float) (Some (-0.12)%float);
        Police.CrimeRecord "E09000007" "Camden" "2024-01" (JInt 102) None None;
        Police.CrimeRecord "E09000007" "Camden" "2024-01" (JStr "") None None ].
Proof. reflexivity. Qed.

(** An integer coordinate beyond the float range raises an
    [OverflowError], which the [try] does not catch. *)
Example parse_crimes_to_records_overflow :
  Police.parse_crimes_to_records sample_float_of_str
    (JList [JDict [("location", JDict [("latitude", JInt (2 ^ 1024))])]])
    "E09000007" "Camden" "2024-01"
  = Throws OverflowError.
Proof. reflexivity. Qed.

(** ** The exposure map *)

Section Exposure.
Context {G Pt : Type} `{Shapely G Pt}.
Variables (osm_cache : string) (session : Session) (w : world).

Lemma sum_inside_count (items : list json) (geometry : G) :
  forall total,
  Dataset.sum_inside items geometry total = Osm.count_inside items geometry total.
Proof.
  induction items as [|e items IH]; intros total; [reflexivity|].
  cbn [Dataset.sum_inside Osm.count_inside].
  change (Dataset._elem_to_point e) with (Osm._element_to_point e).
  destruct (Osm._element_to_point e) as [[p|]|err]; cbn [bindR]; [|apply IH|reflexivity].
  destruct (contains geometry p); apply IH.
Qed.

(** One round of the loop of the [skip_osm] branch. *)
Lemma cached_rows_step (r : Dataset.row) (rest : list Dataset.row)
    (result : gmap string Z) :
  Dataset.cached_rows (r :: rest) osm_cache result w
  = match cached_count w osm_cache r with
    | Ok count =>
        Dataset.cached_rows rest osm_cache (<[Dataset.gss_code r := count]> result) w
    | Raise e => (w, Raise e)
    end.
Proof.
  cbn [Dataset.cached_rows]. unfold cached_count.
  fold (parking_file osm_cache (Dataset.name r)).
  destruct (fs w !! parking_file osm_cache (Dataset.name r)) as [raw|] eqn:Hraw.
  - rewrite (bind_ok _ _ _ _ _ (path_exists_true _ _ _ Hraw)).
    unfold bind at 1, json_load. rewrite Hraw.
    unfold Osm.spatial_filter, bind, lift.
    destruct (py_get raw "elements" (JList [])) as [elements|e];
      cbn [bindR]; [|reflexivity].
    destruct (py_iter elements) as [items|e]; cbn [bindR]; [|reflexivity].
    rewrite sum_inside_count.
    now destruct (Osm.count_inside items (Dataset.geometry r) 0).
  - now rewrite (bind_ok _ _ _ _ _ (path_exists_false _ _ Hraw)).
Qed.

(** The loop of the [skip_osm] branch leaves the world as it is, and gives
    the dict the codes of its rows. *)
Lemma cached_rows_offline (gdf : list Dataset.row) :
  forall result,
  exists r,
    Dataset.cached_rows gdf osm_cache result w = (w, r) /\
    (forall counts, r = Ok counts ->
       dom counts = dom result ∪ list_to_set (map Dataset.gss_code gdf)) /\
    ((forall row, In row gdf ->
        fs w !! parking_file osm_cache (Dataset.name row) = None) ->
     forall codes, result = gset_to_gmap 0 codes ->
     r = Ok (gset_to_gmap 0 (codes ∪ list_to_set (map Dataset.gss_code gdf)))).
Proof.
  induction gdf as [|row gdf IH]; intros result.
  - exists (Ok result). split; [reflexivity|]. split.
    + intros counts [= <-]. cbn [map list_to_set]. now rewrite (right_id_L ∅ (∪)).
    + intros _ codes ->. cbn [map list_to_set]. now rewrite (right_id_L ∅ (∪)).
  - rewrite cached_rows_step.
    destruct (cached_count w osm_cache row) as [count|e] eqn:Hcount.
    + destruct (IH (<[Dataset.gss_code row := count]> result))
        as (r & Hrun & Hdom & Hzero).
      exists r. split; [exact Hrun|]. split.
      * intros counts Hr. rewrite (Hdom counts Hr), dom_insert_L.
        cbn [map]. rewrite list_to_set_cons.
        now rewrite (comm_L (∪) {[Dataset.gss_code row]} (dom result)), (assoc_L (∪)).
      * intros Hmiss codes ->.
        assert (count = 0) as ->.
        { unfold cached_count in Hcount.
          rewrite (Hmiss row (or_introl eq_refl)) in Hcount. congruence. }
        rewrite (Hzero (fun row' Hin => Hmiss row' (or_intror Hin))
                   ({[Dataset.gss_code row]} ∪ codes)).
        -- cbn [map]. rewrite list_to_set_cons.
           now rewrite (assoc_L (∪)), (comm_L (∪) codes {[Dataset.gss_code row]}).
        -- now rewrite gset_to_gmap_union_singleton.
    + exists (Raise e). split; [reflexivity|]. split; [discriminate|].
      intros Hmiss. unfold cached_count in Hcount.
      rewrite (Hmiss row (or_introl eq_refl)) in Hcount. discriminate.
Qed.

(** On rows that all have a cache file, the sweep of utils_osm.py and the
    loop of the [skip_osm] branch raise the same exception or fill their
    dicts with the same counts, and leave the world as it is. *)
Lemma fetch_rows_cached_rows (gdf : list Dataset.row) :
  (forall row, In row gdf ->
     is_Some (fs w !! parking_file osm_cache (Dataset.name row))) ->
  forall (results : gmap string Z) (result : gmap string Z),
  (exists e,
     Osm.fetch_rows (map (fun r => (Dataset.name r, Dataset.geometry r)) gdf)
       osm_cache session results w = (w, Raise e) /\
     Dataset.cached_rows gdf osm_cache result w = (w, Raise e)) \/
  (Osm.fetch_rows (map (fun r => (Dataset.name r, Dataset.geometry r)) gdf)
     osm_cache session results w
   = (w, Ok (fold_left
               (fun m r => <[Dataset.name r := count_of w osm_cache r]> m)
               gdf results)) /\
   Dataset.cached_rows gdf osm_cache result w
   = (w, Ok (fold_left
               (fun m r => <[Dataset.gss_code r := count_of w osm_cache r]> m)
               gdf result))).
Proof.
  induction gdf as [|row gdf IH]; intros Hcached results result.
  - right. now split.
  - destruct (Hcached row (or_introl eq_refl)) as [raw Hraw].
    assert (Hcount : cached_count w osm_cache row
                     = Osm.spatial_filter raw (Dataset.geometry row))
      by (unfold cached_count; now rewrite Hraw).
    rewrite cached_rows_step, Hcount. cbn [map Osm.fetch_rows fold_left].
    unfold bind.
    rewrite (fetch_borough_parking_cached (Dataset.name row) (Dataset.geometry row)
               osm_cache session w raw Hraw).
    destruct (Osm.spatial_filter raw (Dataset.geometry row)) as [count|e] eqn:Hfilter.
    + assert (count_of w osm_cache row = count) as ->
        by (unfold count_of; now rewrite Hcount).
      apply IH. intros row' Hin. apply Hcached. now right.
    + left. exists e. now split.
Qed.

End Exposure.

Lemma fold_insert_other {A V : Type} (key : A -> string) (val : A -> V)
    (l : list A) :
  forall (m : gmap string V) (k : string),
  ~ In k (map key l) ->
  fold_left (fun m a => <[key a := val a]> m) l m !! k = m !! k.
Proof.
  induction l as [|a l IH]; intros m k Hk; [reflexivity|].
  cbn [fold_left]. rewrite IH by (intros Hin; apply Hk; now right).
  apply lookup_insert_ne. intros Heq. apply Hk. now left.
Qed.

Lemma fold_insert_lookup {A V : Type} (key : A -> string) (val : A -> V)
    (l : list A) :
  forall (m : gmap string V) (a : A),
  List.NoDup (map key l) -> In a l ->
  fold_left (fun m a => <[key a := val a]> m) l m !! key a = Some (val a).
Proof.
  induction l as [|b l IH]; intros m a Hnodup Hin; [contradiction|].
  cbn [map] in Hnodup. inversion Hnodup as [|? ? Hfresh Hrest]; subst.
  cbn [fold_left]. destruct Hin as [-> | Hin].
  - rewrite fold_insert_other by exact Hfresh. apply lookup_insert_eq.
  - now apply IH.
Qed.

Lemma insertion_order_nodup (names : list string) :
  forall seen,
  List.NoDup names -> (forall n, In n names -> n ∉ seen) ->
  Dataset.insertion_order names seen = names.
Proof.
  induction names as [|n names IH]; intros seen Hnodup Hseen; [reflexivity|].
  inversion Hnodup as [|? ? Hfresh Hrest]; subst.
  cbn [Dataset.insertion_order].
  rewrite bool_decide_eq_false_2 by (apply Hseen; now left).
  f_equal. apply IH; [exact Hrest|].
  intros n' Hin. rewrite elem_of_cons. intros [-> | Hn']; [contradiction|].
  revert Hn'. apply Hseen. now right.
Qed.

Lemma rekey_rows {G : Type} (count : @Dataset.row G -> Z)
    (name_to_count : gmap string Z) (gss_of : gmap string string)
    (rows : list (@Dataset.row G)) :
  (forall r, In r rows ->
     name_to_count !! Dataset.name r = Some (count r) /\
     gss_of !! Dataset.name r = Some (Dataset.gss_code r)) ->
  forall result,
  Dataset.rekey (map Dataset.name rows) name_to_count gss_of result
  = Returns (fold_left (fun m r => <[Dataset.gss_code r := count r]> m) rows result).
Proof.
  induction rows as [|r rows IH]; intros Hrows result; [reflexivity|].
  cbn [map Dataset.rekey fold_left].
  destruct (Hrows r (or_introl eq_refl)) as [-> ->].
  apply IH. intros r' Hin. apply Hrows. now right.
Qed.

(** X13: with [skip_osm] set, [fetch_exposure] reads the cache only: it
    makes no request and writes no file; when it returns, the keys of its
    dict are the codes of the rows; and when no row has a cache file, every
    code counts 0. *)
Theorem fetch_exposure_skip_osm_reads_cache_only {G Pt : Type} `{Shapely G Pt}
    (gdf : list Dataset.row) (cache_dir : string) (session : Session) (w : world) :
  exists r,
    Dataset.fetch_exposure gdf cache_dir true session w = (w, r) /\
    (forall counts, r = Returns counts ->
       dom counts = list_to_set (map Dataset.gss_code gdf)) /\
    ((forall row, In row gdf ->
        fs w !! parking_file (path_join cache_dir "osm") (Dataset.name row) = None) ->
     r = Returns (gset_to_gmap 0 (list_to_set (map Dataset.gss_code gdf)))).
Proof.
  unfold Dataset.fetch_exposure.
  destruct (cached_rows_offline (path_join cache_dir "osm") w gdf ∅)
    as (r & -> & Hdom & Hzero).
  exists (widen r). split; [reflexivity|]. split.
  - intros counts Hr. destruct r as [counts'|e]; [|discriminate].
    injection Hr as ->. rewrite (Hdom counts eq_refl).
    now rewrite dom_empty_L, (left_id_L ∅ (∪)).
  - intros Hmiss. rewrite (Hzero Hmiss ∅) by now rewrite gset_to_gmap_empty.
    cbn [widen]. now rewrite (left_id_L ∅ (∪)).
Qed.

(** X14: when the rows have distinct names and each has a cache file,
    [fetch_exposure] gives the same with and without [skip_osm]: the same
    dict from codes to counts, or the same exception, and no request. *)
Theorem fetch_exposure_paths_agree {G Pt : Type} `{Shapely G Pt}
    (gdf : list Dataset.row) (cache_dir : string) (session : Session) (w : world) :
  List.NoDup (map Dataset.name gdf) ->
  (forall row, In row gdf ->
     is_Some (fs w !! parking_file (path_join cache_dir "osm") (Dataset.name row))) ->
  Dataset.fetch_exposure gdf cache_dir false session w
  = Dataset.fetch_exposure gdf cache_dir true session w /\
  fst (Dataset.fetch_exposure gdf cache_dir false session w) = w.
Proof.
  intros Hnodup Hcached. unfold Dataset.fetch_exposure, Osm.fetch_all_boroughs_parking.
  set (osm_cache := path_join cache_dir "osm") in *.
  destruct (fetch_rows_cached_rows osm_cache session w gdf Hcached ∅ ∅)
    as [(e & -> & ->) | [-> ->]]; [now split|].
  cbn [widen fst]. split; [|reflexivity]. f_equal.
  rewrite insertion_order_nodup; [|exact Hnodup|intros n _; apply not_elem_of_nil].
  apply rekey_rows. intros r Hin. split.
  - now apply (fold_insert_lookup Dataset.name (count_of w osm_cache)).
  - now apply (fold_insert_lookup Dataset.name Dataset.gss_code).
Qed.

Lemma fetch_exposure_paths_agree_witness :
  Dataset.fetch_exposure sample_rows "cache" false failing_session cached_world
  = Dataset.fetch_exposure sample_rows "cache" true failing_session cached_world /\
  fst (Dataset.fetch_exposure sample_rows "cache" false failing_session cached_world)
  = cached_world.
Proof.
  apply (fetch_exposure_paths_agree sample_rows "cache" failing_session cached_world).
  - repeat constructor; cbn; intros Hin; decompose [or] Hin; discriminate || contradiction.
  - intros row Hin. cbn in Hin. decompose [or] Hin; subst; try contradiction;
      eexists; reflexivity.
Defined.

(** The exposure map of the sample: two features in the City, one in
    Camden. *)
Example fetch_exposure_sample :
  exists counts,
    snd (Dataset.fetch_exposure sample_rows "cache" true failing_session cached_world)
      = Returns counts /\
    counts !! "E09000001" = Some 2 /\
    counts !! "E09000007" = Some 1.
Proof. eexists. split; [reflexivity|]. split; reflexivity. Qed.

(** ** A payload that is null *)


